(** * CoyaleRash: the simulation and combat loop

    A shallow embedding of the game core of the repository
    (js/utils/Utils.js, js/entities/Unit.js, js/entities/Tower.js and
    js/game/Game.js) and the properties of its combat loop.

    Numbers.  A JavaScript number that holds a coordinate, a distance, a
    speed or a duration is modelled as a real number ([R], with
    [Math.sqrt] as [sqrt]); the quantities that only ever take integer
    values in the program (health, damage, elixir, millisecond time
    stamps) are modelled in [Z].  NaN and the infinities are not
    modelled, except for the initial [Infinity] of the closest-distance
    scans, which is the [None] of an [option R].

    Objects.  The units, towers and projectiles of a game are JavaScript
    objects held in the arrays of the [Game] object and mutated in place.
    The arrays are modelled as lists, an object reference as an index
    into its list, and a method of a unit or tower as a function of the
    index of [this] and the game.

    Tables.  The two tables of unit types are object literals read as
    [table[type] || table.knight].  Such a read finds the entry of the
    type, or a member that the literal inherits from [Object.prototype]
    (for a type such as ['toString']), or nothing, and only then the
    knight entry.  An inherited member is truthy and has none of the
    fields of an entry: the read is modelled as an [option], whose
    [None] is that member. *)

From Stdlib Require Import Reals Lra ZArith Lia Bool String.
From stdpp Require Import base list.

(* ================================================================== *)
(** * Utils.js: Vector2D and Utils *)
(* ================================================================== *)

(** Comparisons of numbers as booleans. *)
Definition Rltb (a b : R) : bool := if Rlt_dec a b then true else false.
Definition Rleb (a b : R) : bool := if Rle_dec a b then true else false.

Record Vector2D : Type := mkVector2D { x : R; y : R }.

Module Vec.
Local Open Scope R_scope.

Definition add (this other : Vector2D) : Vector2D :=
  mkVector2D (x this + x other) (y this + y other).

Definition multiply (this : Vector2D) (scalar : R) : Vector2D :=
  mkVector2D (x this * scalar) (y this * scalar).

Definition magnitude (this : Vector2D) : R :=
  sqrt (x this * x this + y this * y this).

(** [normalize] leaves a vector of magnitude 0 as it is. *)
Definition normalize (this : Vector2D) : Vector2D :=
  let mag := magnitude this in
  if Rltb 0 mag then mkVector2D (x this / mag) (y this / mag) else this.

Definition distanceTo (this other : Vector2D) : R :=
  let dx := x this - x other in
  let dy := y this - y other in
  sqrt (dx * dx + dy * dy).

Definition directionTo (this other : Vector2D) : Vector2D :=
  normalize (mkVector2D (x other - x this) (y other - y this)).
End Vec.

Record Rect : Type := mkRect
  { rect_x : R; rect_y : R; rect_width : R; rect_height : R }.

Module Utils.
Local Open Scope R_scope.

Definition clamp (value min max : R) : R := Rmin (Rmax value min) max.

Definition pointInRect (point : Vector2D) (rect : Rect) : bool :=
  Rleb (rect_x rect) (x point) &&
  Rleb (x point) (rect_x rect + rect_width rect) &&
  Rleb (rect_y rect) (y point) &&
  Rleb (y point) (rect_y rect + rect_height rect).
End Utils.

(* ================================================================== *)
(** * The entities: data *)
(* ================================================================== *)

(** The two teams, the strings ['player'] and ['enemy'] of the source. *)
Inductive Team : Type := player | enemy.

Definition Team_eqb (a b : Team) : bool :=
  match a, b with
  | player, player | enemy, enemy => true
  | _, _ => false
  end.

(** A reference held in the [target] field of a unit: a unit or a tower
    of the game, by its index in [game.units] or [game.towers].  The
    field is recomputed by [findTarget] at the start of every [update]
    before it is read, so an index never outlives the list it points
    into. *)
Inductive TargetRef : Type :=
  | UnitRef (i : nat)
  | TowerRef (k : nat).

(** The entry of a unit type in the table of [Unit.getUnitStats]. *)
Record UnitStats : Type := mkUnitStats
  { st_health : Z; st_damage : Z; st_speed : R; st_range : R; st_radius : R }.

(** A unit type is a string: it comes from the [data-unit] attribute of a
    card or from the list of the enemy AI.  The numeric fields of a unit
    hold numbers: a unit built for a type that reads an inherited member
    of the table, whose fields are all [undefined], is not a value of
    this type (see [Unit_new]). *)
Record Unit : Type := mkUnit
  { u_position : Vector2D;
    u_type : string;
    u_team : Team;
    u_alive : bool;
    u_maxHealth : Z;
    u_health : Z;
    u_damage : Z;
    u_speed : R;
    u_attackRange : R;
    u_radius : R;
    u_velocity : Vector2D;
    u_target : option TargetRef;
    u_lastAttack : Z;
    u_attackCooldown : Z;
    u_animationTime : R;
    u_facing : Z }.

(** The target of a tower is always a unit: an index into [game.units]. *)
Record Tower : Type := mkTower
  { t_position : Vector2D;
    t_team : Team;
    t_alive : bool;
    t_maxHealth : Z;
    t_health : Z;
    t_damage : Z;
    t_attackRange : R;
    t_radius : R;
    t_target : option nat;
    t_lastAttack : Z;
    t_attackCooldown : Z }.

(** A projectile is an object literal that carries its own [update]
    closure; the literal of [Unit.createProjectile] and the literal of
    [Tower.attack] differ in it.  [p_update] records which of the two
    closures the object carries. *)
Inductive UpdateClosure : Type := UnitFired | TowerFired.

Record Projectile : Type := mkProjectile
  { p_position : Vector2D;
    p_target : Vector2D;
    p_speed : R;
    p_damage : Z;
    p_team : Team;
    p_alive : bool;
    p_type : string;
    p_update : UpdateClosure }.

Record Canvas : Type := mkCanvas { width : R; height : R }.

(** The outcome passed to [endGame]. *)
Inductive GameResult : Type := victory | defeat.

Record Game : Type := mkGame
  { g_canvas : Canvas;
    g_running : bool;
    g_result : option GameResult;
    g_units : list Unit;
    g_towers : list Tower;
    g_projectiles : list Projectile;
    g_playerElixir : Z;
    g_maxElixir : Z;
    g_elixirRegenRate : Z;
    g_lastElixirRegen : R;
    g_selectedCard : option string;
    g_draggingCard : bool;
    g_mousePos : Vector2D;
    g_isMouseDown : bool;
    g_playerZone : Rect;
    g_enemyZone : Rect }.

(** ** Field updates *)

Definition Unit_with_position (u : Unit) (p : Vector2D) : Unit :=
  mkUnit p (u_type u) (u_team u) (u_alive u) (u_maxHealth u) (u_health u)
    (u_damage u) (u_speed u) (u_attackRange u) (u_radius u) (u_velocity u)
    (u_target u) (u_lastAttack u) (u_attackCooldown u) (u_animationTime u)
    (u_facing u).

Definition Unit_with_velocity (u : Unit) (v : Vector2D) : Unit :=
  mkUnit (u_position u) (u_type u) (u_team u) (u_alive u) (u_maxHealth u)
    (u_health u) (u_damage u) (u_speed u) (u_attackRange u) (u_radius u) v
    (u_target u) (u_lastAttack u) (u_attackCooldown u) (u_animationTime u)
    (u_facing u).

Definition Unit_with_facing (u : Unit) (f : Z) : Unit :=
  mkUnit (u_position u) (u_type u) (u_team u) (u_alive u) (u_maxHealth u)
    (u_health u) (u_damage u) (u_speed u) (u_attackRange u) (u_radius u)
    (u_velocity u) (u_target u) (u_lastAttack u) (u_attackCooldown u)
    (u_animationTime u) f.

Definition Unit_with_target (u : Unit) (t : option TargetRef) : Unit :=
  mkUnit (u_position u) (u_type u) (u_team u) (u_alive u) (u_maxHealth u)
    (u_health u) (u_damage u) (u_speed u) (u_attackRange u) (u_radius u)
    (u_velocity u) t (u_lastAttack u) (u_attackCooldown u)
    (u_animationTime u) (u_facing u).

Definition Unit_with_lastAttack (u : Unit) (t : Z) : Unit :=
  mkUnit (u_position u) (u_type u) (u_team u) (u_alive u) (u_maxHealth u)
    (u_health u) (u_damage u) (u_speed u) (u_attackRange u) (u_radius u)
    (u_velocity u) (u_target u) t (u_attackCooldown u) (u_animationTime u)
    (u_facing u).

Definition Unit_with_animationTime (u : Unit) (t : R) : Unit :=
  mkUnit (u_position u) (u_type u) (u_team u) (u_alive u) (u_maxHealth u)
    (u_health u) (u_damage u) (u_speed u) (u_attackRange u) (u_radius u)
    (u_velocity u) (u_target u) (u_lastAttack u) (u_attackCooldown u) t
    (u_facing u).

Definition Unit_with_health (u : Unit) (h : Z) (a : bool) : Unit :=
  mkUnit (u_position u) (u_type u) (u_team u) a (u_maxHealth u) h
    (u_damage u) (u_speed u) (u_attackRange u) (u_radius u) (u_velocity u)
    (u_target u) (u_lastAttack u) (u_attackCooldown u) (u_animationTime u)
    (u_facing u).

Definition Tower_with_target (t : Tower) (tg : option nat) : Tower :=
  mkTower (t_position t) (t_team t) (t_alive t) (t_maxHealth t) (t_health t)
    (t_damage t) (t_attackRange t) (t_radius t) tg (t_lastAttack t)
    (t_attackCooldown t).

Definition Tower_with_lastAttack (t : Tower) (time : Z) : Tower :=
  mkTower (t_position t) (t_team t) (t_alive t) (t_maxHealth t) (t_health t)
    (t_damage t) (t_attackRange t) (t_radius t) (t_target t) time
    (t_attackCooldown t).

Definition Tower_with_health (t : Tower) (h : Z) (a : bool) : Tower :=
  mkTower (t_position t) (t_team t) a (t_maxHealth t) h (t_damage t)
    (t_attackRange t) (t_radius t) (t_target t) (t_lastAttack t)
    (t_attackCooldown t).

Definition Projectile_with_position (p : Projectile) (pos : Vector2D)
  : Projectile :=
  mkProjectile pos (p_target p) (p_speed p) (p_damage p) (p_team p)
    (p_alive p) (p_type p) (p_update p).

Definition Projectile_with_alive (p : Projectile) (a : bool) : Projectile :=
  mkProjectile (p_position p) (p_target p) (p_speed p) (p_damage p)
    (p_team p) a (p_type p) (p_update p).

Definition Game_with_units (g : Game) (us : list Unit) : Game :=
  mkGame (g_canvas g) (g_running g) (g_result g) us (g_towers g)
    (g_projectiles g) (g_playerElixir g) (g_maxElixir g)
    (g_elixirRegenRate g) (g_lastElixirRegen g) (g_selectedCard g)
    (g_draggingCard g) (g_mousePos g) (g_isMouseDown g) (g_playerZone g)
    (g_enemyZone g).

Definition Game_with_towers (g : Game) (ts : list Tower) : Game :=
  mkGame (g_canvas g) (g_running g) (g_result g) (g_units g) ts
    (g_projectiles g) (g_playerElixir g) (g_maxElixir g)
    (g_elixirRegenRate g) (g_lastElixirRegen g) (g_selectedCard g)
    (g_draggingCard g) (g_mousePos g) (g_isMouseDown g) (g_playerZone g)
    (g_enemyZone g).

Definition Game_with_projectiles (g : Game) (ps : list Projectile) : Game :=
  mkGame (g_canvas g) (g_running g) (g_result g) (g_units g) (g_towers g)
    ps (g_playerElixir g) (g_maxElixir g) (g_elixirRegenRate g)
    (g_lastElixirRegen g) (g_selectedCard g) (g_draggingCard g)
    (g_mousePos g) (g_isMouseDown g) (g_playerZone g) (g_enemyZone g).

Definition Game_with_elixir (g : Game) (e : Z) (last : R) : Game :=
  mkGame (g_canvas g) (g_running g) (g_result g) (g_units g) (g_towers g)
    (g_projectiles g) e (g_maxElixir g) (g_elixirRegenRate g) last
    (g_selectedCard g) (g_draggingCard g) (g_mousePos g) (g_isMouseDown g)
    (g_playerZone g) (g_enemyZone g).

Definition Game_with_selection (g : Game) (card : option string)
    (dragging : bool) : Game :=
  mkGame (g_canvas g) (g_running g) (g_result g) (g_units g) (g_towers g)
    (g_projectiles g) (g_playerElixir g) (g_maxElixir g)
    (g_elixirRegenRate g) (g_lastElixirRegen g) card dragging
    (g_mousePos g) (g_isMouseDown g) (g_playerZone g) (g_enemyZone g).

Definition Game_with_mouse (g : Game) (mousePos : Vector2D)
    (isMouseDown : bool) : Game :=
  mkGame (g_canvas g) (g_running g) (g_result g) (g_units g) (g_towers g)
    (g_projectiles g) (g_playerElixir g) (g_maxElixir g)
    (g_elixirRegenRate g) (g_lastElixirRegen g) (g_selectedCard g)
    (g_draggingCard g) mousePos isMouseDown (g_playerZone g)
    (g_enemyZone g).

Definition Game_with_running (g : Game) (r : bool)
    (res : option GameResult) : Game :=
  mkGame (g_canvas g) r res (g_units g) (g_towers g) (g_projectiles g)
    (g_playerElixir g) (g_maxElixir g) (g_elixirRegenRate g)
    (g_lastElixirRegen g) (g_selectedCard g) (g_draggingCard g)
    (g_mousePos g) (g_isMouseDown g) (g_playerZone g) (g_enemyZone g).

(* ================================================================== *)
(** * Control: normal and abrupt completion *)
(* ================================================================== *)

(** A method that runs on the game either returns, or throws the
    [TypeError] of a property read on [undefined]; the state carried by
    [TypeError] is the game as the mutations made before the throw left
    it.  Nothing in the source catches an exception. *)
Inductive completion : Type :=
  | Normal (g : Game)
  | TypeError (g : Game).

Definition andThen (c : completion) (k : Game -> completion) : completion :=
  match c with
  | Normal g => k g
  | TypeError g => TypeError g
  end.

Notation "c >>> k" := (andThen c k) (at level 58, left associativity).

(** The state a completion ends in. *)
Definition final (c : completion) : Game :=
  match c with Normal g | TypeError g => g end.

(** [Array.prototype.forEach] and the counting [for] loops: the body runs
    for the given indices in order, until one throws. *)
Fixpoint forIndices (indices : list nat) (body : nat -> Game -> completion)
    (g : Game) : completion :=
  match indices with
  | [] => Normal g
  | i :: rest => body i g >>> forIndices rest body
  end.

(** The first index whose element satisfies [f] ([Array.prototype.find],
    as a reference to the element found). *)
Fixpoint findIndexFrom {A : Type} (f : A -> bool) (l : list A) (k : nat)
  : option nat :=
  match l with
  | [] => None
  | a :: rest => if f a then Some k else findIndexFrom f rest (S k)
  end.

Definition findIndex {A : Type} (f : A -> bool) (l : list A) : option nat :=
  findIndexFrom f l 0.

(** [distance < closestDistance], where [None] is [Infinity]. *)
Definition closer (distance : R) (closestDistance : option R) : bool :=
  match closestDistance with
  | None => true
  | Some c => Rltb distance c
  end.

(* ================================================================== *)
(** * Unit.js: class Unit *)
(* ================================================================== *)

Section Tables.
Local Open Scope string_scope.

(** The keys that an object literal inherits from [Object.prototype]:
    its methods, [constructor], and the accessor [__proto__].  Each of
    them reads a function or an object, which is truthy and on which
    [health], [damage], [speed], [range], [radius] and [cost] all read
    [undefined]. *)
Definition inheritedKey (key : string) : bool :=
  existsb (String.eqb key)
    ["constructor"; "hasOwnProperty"; "isPrototypeOf";
     "propertyIsEnumerable"; "toLocaleString"; "toString"; "valueOf";
     "__proto__"; "__defineGetter__"; "__defineSetter__";
     "__lookupGetter__"; "__lookupSetter__"].

(** [table[type] || table.knight] for a table that is an object literal
    with the keys [knight], [archer], [giant] and [wizard], whose
    entries are objects (truthy): the entry of [type]; [None] for the
    inherited member; the knight entry for any other string, which reads
    [undefined]. *)
Definition entryOrKnight {A : Type} (knight archer giant wizard : A)
    (type : string) : option A :=
  if String.eqb type "knight" then Some knight
  else if String.eqb type "archer" then Some archer
  else if String.eqb type "giant" then Some giant
  else if String.eqb type "wizard" then Some wizard
  else if inheritedKey type then None
  else Some knight.
End Tables.

Section UnitClass.
Local Open Scope string_scope.
Local Open Scope Z_scope.

(** The four entries of the table [stats] of [getUnitStats]. *)
Definition knightStats : UnitStats := mkUnitStats 1200 150 30 40 15.
Definition archerStats : UnitStats := mkUnitStats 400 100 40 100 12.
Definition giantStats : UnitStats := mkUnitStats 3000 200 20 50 25.
Definition wizardStats : UnitStats := mkUnitStats 600 250 35 120 12.

Definition getUnitStats (type : string) : option UnitStats :=
  entryOrKnight knightStats archerStats giantStats wizardStats type.

Definition Reqb (a b : R) : bool := if Req_dec_T a b then true else false.

(** The body of the constructor after [stats] has been read from the
    table; [stats.radius || 15] takes 15 for a radius of 0. *)
Definition Unit_of (stats : UnitStats) (position : Vector2D) (type : string)
    (team : Team) : Unit :=
  {| u_position := position;
     u_type := type;
     u_team := team;
     u_alive := true;
     u_maxHealth := st_health stats;
     u_health := st_health stats;
     u_damage := st_damage stats;
     u_speed := st_speed stats;
     u_attackRange := st_range stats;
     u_radius := if Reqb (st_radius stats) 0 then 15%R else st_radius stats;
     u_velocity := mkVector2D 0 0;
     u_target := None;
     u_lastAttack := 0;
     u_attackCooldown := 1000;
     u_animationTime := 0%R;
     u_facing := if Team_eqb team player then -1 else 1 |}.

(** [new Unit(position, type, team)].  For a type that reads an
    inherited member of the table the constructor builds an object whose
    health, damage, speed and range are [undefined]: no unit of the
    model, [None]. *)
Definition Unit_new (position : Vector2D) (type : string) (team : Team)
  : option Unit :=
  match getUnitStats type with
  | Some stats => Some (Unit_of stats position type team)
  | None => None
  end.

Definition Unit_takeDamage (this : Unit) (amount : Z) : Unit :=
  let health := u_health this - amount in
  if health <=? 0 then Unit_with_health this 0 false
  else Unit_with_health this health (u_alive this).

(** [this.type === 'archer' || this.type === 'wizard'] *)
Definition isRanged (type : string) : bool :=
  String.eqb type "archer" || String.eqb type "wizard".
End UnitClass.

(* ================================================================== *)
(** * Tower.js: class Tower (the methods that need no game) *)
(* ================================================================== *)

Section TowerClass.
Local Open Scope Z_scope.

Definition Tower_new (position : Vector2D) (team : Team) : Tower :=
  {| t_position := position;
     t_team := team;
     t_alive := true;
     t_maxHealth := 2500;
     t_health := 2500;
     t_damage := 200;
     t_attackRange := 150%R;
     t_radius := 30%R;
     t_target := None;
     t_lastAttack := 0;
     t_attackCooldown := 800 |}.

(** The call of [updateHealthDisplay] at the end writes to the page
    only. *)
Definition Tower_takeDamage (this : Tower) (amount : Z) : Tower :=
  let health := t_health this - amount in
  if health <=? 0 then Tower_with_health this 0 false
  else Tower_with_health this health (t_alive this).
End TowerClass.

(* ================================================================== *)
(** * The object store: units and towers by reference *)
(* ================================================================== *)

(** What [this.target] evaluates to: a unit or a tower.  Both have
    [position], [alive] and [takeDamage], which is all that the methods
    of a unit use of their target. *)
Inductive Combatant : Type :=
  | IsUnit (u : Unit)
  | IsTower (t : Tower).

Definition c_position (c : Combatant) : Vector2D :=
  match c with IsUnit u => u_position u | IsTower t => t_position t end.

Definition c_alive (c : Combatant) : bool :=
  match c with IsUnit u => u_alive u | IsTower t => t_alive t end.

Definition c_health (c : Combatant) : Z :=
  match c with IsUnit u => u_health u | IsTower t => t_health t end.

Definition deref (g : Game) (r : TargetRef) : option Combatant :=
  match r with
  | UnitRef j => IsUnit <$> g_units g !! j
  | TowerRef k => IsTower <$> g_towers g !! k
  end.

Definition setUnit (g : Game) (i : nat) (u : Unit) : Game :=
  Game_with_units g (<[i := u]> (g_units g)).

Definition setTower (g : Game) (k : nat) (t : Tower) : Game :=
  Game_with_towers g (<[k := t]> (g_towers g)).

(** [target.takeDamage(amount)] on the object that [r] refers to. *)
Definition target_takeDamage (g : Game) (r : TargetRef) (amount : Z) : Game :=
  match r with
  | UnitRef j =>
      match g_units g !! j with
      | Some u => setUnit g j (Unit_takeDamage u amount)
      | None => g
      end
  | TowerRef k =>
      match g_towers g !! k with
      | Some t => setTower g k (Tower_takeDamage t amount)
      | None => g
      end
  end.

(* ================================================================== *)
(** * Unit.js: the methods of a unit that run against the game *)
(* ================================================================== *)

(** In each method [i] is the index of [this] in [game.units]. *)

(** The [forEach] of [Unit.findTarget] over [game.units], from index [k]
    on, with the two local variables of the method. *)
Fixpoint Unit_scanUnits (this : Unit) (units : list Unit) (k : nat)
    (closestTarget : option nat) (closestDistance : option R)
  : option nat * option R :=
  match units with
  | [] => (closestTarget, closestDistance)
  | unit :: rest =>
      if negb (Team_eqb (u_team unit) (u_team this)) && u_alive unit then
        let distance := Vec.distanceTo (u_position this) (u_position unit) in
        if closer distance closestDistance
        then Unit_scanUnits this rest (S k) (Some k) (Some distance)
        else Unit_scanUnits this rest (S k) closestTarget closestDistance
      else Unit_scanUnits this rest (S k) closestTarget closestDistance
  end.

(** The value that [Unit.findTarget] assigns to [this.target]. *)
Definition Unit_chooseTarget (this : Unit) (g : Game) : option TargetRef :=
  match fst (Unit_scanUnits this (g_units g) 0 None None) with
  | Some j => Some (UnitRef j)
  | None =>
      match findIndex (fun tower =>
                         negb (Team_eqb (t_team tower) (u_team this))
                         && t_alive tower) (g_towers g) with
      | Some k => Some (TowerRef k)
      | None => None
      end
  end.

Definition Unit_findTarget (i : nat) (g : Game) : Game :=
  match g_units g !! i with
  | None => g
  | Some this => setUnit g i (Unit_with_target this (Unit_chooseTarget this g))
  end.

(** [direction.multiply(this.speed)] scales [direction] in place and
    returns it, so after that statement [direction] and [this.velocity]
    are one object: the test of [direction.y] reads the velocity. *)
Definition Unit_move (deltaTime : R) (i : nat) (g : Game) : Game :=
  match g_units g !! i with
  | None => g
  | Some this =>
      match u_target this with
      | None => g
      | Some r =>
          match deref g r with
          | None => g
          | Some target =>
              let distanceToTarget :=
                Vec.distanceTo (u_position this) (c_position target) in
              if Rleb distanceToTarget (u_attackRange this)
              then setUnit g i (Unit_with_velocity this (mkVector2D 0 0))
              else
                let direction :=
                  Vec.multiply
                    (Vec.directionTo (u_position this) (c_position target))
                    (u_speed this) in
                let velocity := direction in
                let movement := Vec.multiply velocity deltaTime in
                let position := Vec.add (u_position this) movement in
                let facing :=
                  if Rltb (y direction) 0 then (-1)%Z
                  else if Rltb 0 (y direction) then 1%Z
                  else u_facing this in
                let radius := u_radius this in
                let position :=
                  mkVector2D
                    (Utils.clamp (x position) radius
                       (width (g_canvas g) - radius))
                    (Utils.clamp (y position) radius
                       (height (g_canvas g) - radius)) in
                setUnit g i
                  (Unit_with_facing
                     (Unit_with_position (Unit_with_velocity this velocity)
                        position)
                     facing)
          end
      end
  end.

(** [createProjectile(target, game)]: the object literal, with the
    clones of the two positions, and the push.  [game] is [true] when
    the caller passed the game and [false] when it left the argument
    out: the literal is built, and [game.projectiles] then throws on
    [undefined]. *)
Definition Unit_projectile (this : Unit) (target : Combatant) : Projectile :=
  {| p_position := u_position this;
     p_target := c_position target;
     p_speed := 200;
     p_damage := u_damage this;
     p_team := u_team this;
     p_alive := true;
     p_type := u_type this;
     p_update := UnitFired |}.

Definition Unit_createProjectile (i : nat) (r : TargetRef) (game : bool)
    (g : Game) : completion :=
  match g_units g !! i, deref g r with
  | Some this, Some target =>
      let projectile := Unit_projectile this target in
      if game
      then Normal (Game_with_projectiles g (g_projectiles g ++ [projectile]))
      else TypeError g
  | _, _ => Normal g
  end.

(** [attack(target, game)] *)
Definition Unit_attack (i : nat) (r : TargetRef) (game : bool) (g : Game)
  : completion :=
  match g_units g !! i with
  | None => Normal g
  | Some this =>
      if isRanged (u_type this)
      then Unit_createProjectile i r game g
      else Normal (target_takeDamage g r (u_damage this))
  end.

Definition Unit_setLastAttack (i : nat) (time : Z) (g : Game) : Game :=
  match g_units g !! i with
  | None => g
  | Some this => setUnit g i (Unit_with_lastAttack this time)
  end.

(** [attemptAttack(game)]; [currentTime] is what [Date.now()] returns. *)
Definition Unit_attemptAttack (currentTime : Z) (i : nat) (g : Game)
  : completion :=
  match g_units g !! i with
  | None => Normal g
  | Some this =>
      match u_target this with
      | None => Normal g
      | Some r =>
          match deref g r with
          | None => Normal g
          | Some target =>
              if negb (c_alive target) then Normal g
              else if (currentTime - u_lastAttack this
                       <? u_attackCooldown this)%Z
              then Normal g
              else
                let distanceToTarget :=
                  Vec.distanceTo (u_position this) (c_position target) in
                if Rleb distanceToTarget (u_attackRange this)
                then Unit_attack i r true g >>>
                     (fun g => Normal (Unit_setLastAttack i currentTime g))
                else Normal g
          end
      end
  end.

Definition Unit_addAnimationTime (i : nat) (deltaTime : R) (g : Game) : Game :=
  match g_units g !! i with
  | None => g
  | Some this =>
      setUnit g i
        (Unit_with_animationTime this (u_animationTime this + deltaTime))
  end.

(** [update(deltaTime, game)] *)
Definition Unit_update (deltaTime : R) (currentTime : Z) (i : nat) (g : Game)
  : completion :=
  match g_units g !! i with
  | None => Normal g
  | Some this =>
      if negb (u_alive this) then Normal g
      else
        let g := Unit_findTarget i g in
        let g := Unit_move deltaTime i g in
        Unit_attemptAttack currentTime i g >>>
        (fun g => Normal (Unit_addAnimationTime i deltaTime g))
  end.

(* ================================================================== *)
(** * The projectile closures *)
(* ================================================================== *)

(** The two [update] closures are the same text up to the impact radius:
    10 in the literal of [Unit.createProjectile], 15 in the literal of
    [Tower.attack]. *)
Definition impactRadius (c : UpdateClosure) : R :=
  match c with UnitFired => 10 | TowerFired => 15 end.

Definition Projectile_update (this : Projectile) (deltaTime : R)
  : Projectile :=
  let direction := Vec.directionTo (p_position this) (p_target this) in
  let movement := Vec.multiply direction (p_speed this * deltaTime) in
  let position := Vec.add (p_position this) movement in
  let distance := Vec.distanceTo position (p_target this) in
  let alive :=
    if Rltb distance (impactRadius (p_update this)) then false
    else p_alive this in
  let alive :=
    if Rltb (x position) 0 || Rltb 800 (x position)
       || Rltb (y position) 0 || Rltb 600 (y position)
    then false else alive in
  Projectile_with_alive (Projectile_with_position this position) alive.

(* ================================================================== *)
(** * Tower.js: the methods of a tower that run against the game *)
(* ================================================================== *)

(** In each method [k] is the index of [this] in [game.towers]. *)

Fixpoint Tower_scanUnits (this : Tower) (units : list Unit) (j : nat)
    (closestTarget : option nat) (closestDistance : option R)
  : option nat * option R :=
  match units with
  | [] => (closestTarget, closestDistance)
  | unit :: rest =>
      if negb (Team_eqb (u_team unit) (t_team this)) && u_alive unit then
        let distance := Vec.distanceTo (t_position this) (u_position unit) in
        if Rleb distance (t_attackRange this)
           && closer distance closestDistance
        then Tower_scanUnits this rest (S j) (Some j) (Some distance)
        else Tower_scanUnits this rest (S j) closestTarget closestDistance
      else Tower_scanUnits this rest (S j) closestTarget closestDistance
  end.

Definition Tower_chooseTarget (this : Tower) (g : Game) : option nat :=
  fst (Tower_scanUnits this (g_units g) 0 None None).

Definition Tower_findTarget (k : nat) (g : Game) : Game :=
  match g_towers g !! k with
  | None => g
  | Some this =>
      setTower g k (Tower_with_target this (Tower_chooseTarget this g))
  end.

(** [attack(target, game)]: a tower only ever fires a projectile. *)
Definition Tower_projectile (this : Tower) (target : Unit) : Projectile :=
  {| p_position := t_position this;
     p_target := u_position target;
     p_speed := 300;
     p_damage := t_damage this;
     p_team := t_team this;
     p_alive := true;
     p_type := "tower";
     p_update := TowerFired |}.

Definition Tower_attack (k : nat) (j : nat) (g : Game) : Game :=
  match g_towers g !! k, g_units g !! j with
  | Some this, Some target =>
      let projectile := Tower_projectile this target in
      Game_with_projectiles g (g_projectiles g ++ [projectile])
  | _, _ => g
  end.

Definition Tower_setLastAttack (k : nat) (time : Z) (g : Game) : Game :=
  match g_towers g !! k with
  | None => g
  | Some this => setTower g k (Tower_with_lastAttack this time)
  end.

Definition Tower_attemptAttack (currentTime : Z) (k : nat) (g : Game) : Game :=
  match g_towers g !! k with
  | None => g
  | Some this =>
      match t_target this with
      | None => g
      | Some j =>
          match g_units g !! j with
          | None => g
          | Some target =>
              if negb (u_alive target) then g
              else if (currentTime - t_lastAttack this
                       <? t_attackCooldown this)%Z
              then g
              else
                let distanceToTarget :=
                  Vec.distanceTo (t_position this) (u_position target) in
                if Rleb distanceToTarget (t_attackRange this)
                then Tower_setLastAttack k currentTime (Tower_attack k j g)
                else g
          end
      end
  end.

(** [update(deltaTime, game)]; [updateHealthDisplay] writes to the page
    only. *)
Definition Tower_update (currentTime : Z) (k : nat) (g : Game) : Game :=
  match g_towers g !! k with
  | None => g
  | Some this =>
      if negb (t_alive this) then g
      else Tower_attemptAttack currentTime k (Tower_findTarget k g)
  end.

(* ================================================================== *)
(** * Game.js: class Game *)
(* ================================================================== *)

(** The entry of a unit type in the table of [Game.getUnitData]. *)
Record UnitData : Type := mkUnitData
  { cost : Z; d_health : Z; d_damage : Z; d_speed : R; d_range : R }.

Section GameClass.
Local Open Scope string_scope.

(** The four entries of the table [unitTypes] of [getUnitData]. *)
Definition knightData : UnitData := mkUnitData 3 1200 150 30 40.
Definition archerData : UnitData := mkUnitData 3 400 100 40 100.
Definition giantData : UnitData := mkUnitData 5 3000 200 20 50.
Definition wizardData : UnitData := mkUnitData 5 600 250 35 120.

Definition getUnitData (type : string) : option UnitData :=
  entryOrKnight knightData archerData giantData wizardData type.

(** [new Game()].  The two zones are computed from the size the canvas
    element has when the constructor starts ([canvas0]);
    [setupCanvas] then resizes the canvas to the width of its container
    ([containerWidth]) and a height of 500, and [initializeTowers]
    places the two towers on the resized canvas. *)
Definition Game_new (canvas0 : Canvas) (containerWidth : R) : Game :=
  let canvas := mkCanvas containerWidth 500 in
  {| g_canvas := canvas;
     g_running := false;
     g_result := None;
     g_units := [];
     g_towers :=
       [ Tower_new (mkVector2D (width canvas / 2) (height canvas - 50))
           player;
         Tower_new (mkVector2D (width canvas / 2) 50) enemy ];
     g_projectiles := [];
     g_playerElixir := 10;
     g_maxElixir := 10;
     g_elixirRegenRate := 1;
     g_lastElixirRegen := 0;
     g_selectedCard := None;
     g_draggingCard := false;
     g_mousePos := mkVector2D 0 0;
     g_isMouseDown := false;
     g_playerZone :=
       mkRect 0 (height canvas0 / 2) (width canvas0) (height canvas0 / 2);
     g_enemyZone := mkRect 0 0 (width canvas0) (height canvas0 / 2) |}.

(** [updateElixir(deltaTime)]; [updateElixirDisplay] writes to the page
    only. *)
Definition Game_updateElixir (deltaTime : R) (g : Game) : Game :=
  let lastElixirRegen := (g_lastElixirRegen g + deltaTime)%R in
  if Rleb 1 lastElixirRegen
  then Game_with_elixir g
         (Z.min (g_playerElixir g + g_elixirRegenRate g) (g_maxElixir g)) 0
  else Game_with_elixir g (g_playerElixir g) lastElixirRegen.

(** [updateUnits(deltaTime)].  [currentTime i] is the value that
    [Date.now()] returns in the [attemptAttack] of the unit at index
    [i]. *)
Definition Game_updateUnits (deltaTime : R) (currentTime : nat -> Z)
    (g : Game) : completion :=
  forIndices (seq 0 (length (g_units g)))
    (fun i => Unit_update deltaTime (currentTime i) i) g.

Definition Game_updateProjectiles (deltaTime : R) (g : Game) : Game :=
  Game_with_projectiles g
    (map (fun projectile => Projectile_update projectile deltaTime)
       (g_projectiles g)).

Definition Game_updateTowers (currentTime : nat -> Z) (g : Game) : Game :=
  foldl (fun g k => Tower_update (currentTime k) k g) g
    (seq 0 (length (g_towers g))).

(** One pair [(i, j)] of the unit-against-unit loop of
    [checkCollisions], the body of the inner [for].  Both calls of
    [attack] leave the [game] argument out. *)
Definition Game_clashPair (i j : nat) (g : Game) : completion :=
  match g_units g !! i, g_units g !! j with
  | Some unit1, Some unit2 =>
      if negb (u_alive unit2) || Team_eqb (u_team unit1) (u_team unit2)
      then Normal g
      else
        let distance :=
          Vec.distanceTo (u_position unit1) (u_position unit2) in
        (if Rltb distance (u_attackRange unit1)
         then Unit_attack i (UnitRef j) false g
         else Normal g) >>>
        (fun g =>
           if Rltb distance (u_attackRange unit2)
           then Unit_attack j (UnitRef i) false g
           else Normal g)
  | _, _ => Normal g
  end.

(** One row of the unit-against-unit loop, the body of the outer
    [for]; [n] is [this.units.length]. *)
Definition Game_clashRow (n i : nat) (g : Game) : completion :=
  match g_units g !! i with
  | None => Normal g
  | Some unit1 =>
      if negb (u_alive unit1) then Normal g
      else forIndices (seq (S i) (n - S i)) (Game_clashPair i) g
  end.

(** The unit-against-unit loop of [checkCollisions]. *)
Definition Game_clashUnits (g : Game) : completion :=
  let n := length (g_units g) in
  forIndices (seq 0 n) (Game_clashRow n) g.

(** The test of the projectile-against-unit loop. *)
Definition projectileHits (projectile : Projectile) (unit : Unit) : bool :=
  negb (Team_eqb (u_team unit) (p_team projectile)) && u_alive unit
  && Rltb (Vec.distanceTo (p_position projectile) (u_position unit))
       (u_radius unit).

(** The inner [forEach] of the projectile-against-unit loop: one
    projectile against the units, in list order. *)
Fixpoint Game_strikeUnits (projectile : Projectile) (units : list Unit)
  : Projectile * list Unit :=
  match units with
  | [] => (projectile, [])
  | unit :: rest =>
      if projectileHits projectile unit then
        let unit := Unit_takeDamage unit (p_damage projectile) in
        let projectile := Projectile_with_alive projectile false in
        let '(projectile, rest) := Game_strikeUnits projectile rest in
        (projectile, unit :: rest)
      else
        let '(projectile, rest) := Game_strikeUnits projectile rest in
        (projectile, unit :: rest)
  end.

(** The outer [forEach]: every projectile of the list in turn, against
    the units as the projectiles before it left them. *)
Fixpoint Game_strikeAll (projectiles : list Projectile) (units : list Unit)
  : list Projectile * list Unit :=
  match projectiles with
  | [] => ([], units)
  | projectile :: rest =>
      let '(projectile, units) := Game_strikeUnits projectile units in
      let '(rest, units) := Game_strikeAll rest units in
      (projectile :: rest, units)
  end.

Definition Game_strikeProjectiles (g : Game) : Game :=
  let '(projectiles, units) :=
    Game_strikeAll (g_projectiles g) (g_units g) in
  Game_with_projectiles (Game_with_units g units) projectiles.

(** [checkCollisions()] *)
Definition Game_checkCollisions (g : Game) : completion :=
  Game_clashUnits g >>> (fun g => Normal (Game_strikeProjectiles g)).

Definition Game_cleanupEntities (g : Game) : Game :=
  Game_with_projectiles
    (Game_with_units g (filter (fun unit => u_alive unit = true) (g_units g)))
    (filter (fun projectile => p_alive projectile = true) (g_projectiles g)).

(** [endGame(result)]; the alert and the page reload that it schedules
    are outside the simulation. *)
Definition Game_endGame (result : GameResult) (g : Game) : Game :=
  Game_with_running g false (Some result).

(** [checkWinConditions()]; reading [alive] of a tower that [find] did
    not find throws. *)
Definition Game_checkWinConditions (g : Game) : completion :=
  let playerTower :=
    findIndex (fun t => Team_eqb (t_team t) player) (g_towers g) in
  let enemyTower :=
    findIndex (fun t => Team_eqb (t_team t) enemy) (g_towers g) in
  match playerTower ≫= (fun k => g_towers g !! k) with
  | None => TypeError g
  | Some playerTower =>
      if negb (t_alive playerTower) then Normal (Game_endGame defeat g)
      else
        match enemyTower ≫= (fun k => g_towers g !! k) with
        | None => TypeError g
        | Some enemyTower =>
            if negb (t_alive enemyTower)
            then Normal (Game_endGame victory g)
            else Normal g
        end
  end.

(** [update(deltaTime)]: one tick. *)
Definition Game_update (deltaTime : R) (unitTime towerTime : nat -> Z)
    (g : Game) : completion :=
  let g := Game_updateElixir deltaTime g in
  Game_updateUnits deltaTime unitTime g >>>
  (fun g =>
     let g := Game_updateProjectiles deltaTime g in
     let g := Game_updateTowers towerTime g in
     Game_checkCollisions g >>>
     (fun g =>
        let g := Game_cleanupEntities g in
        Game_checkWinConditions g)).

(** ** Card and unit placement *)

(** [selectCard(cardType)]; [None] is a card without a [data-unit]
    attribute ([undefined]). *)
Definition Game_selectCard (cardType : option string) (g : Game) : Game :=
  Game_with_selection g cardType true.

Definition Game_cancelCardPlacement (g : Game) : Game :=
  Game_with_selection g None false.

(** [spawnUnit(type, position, team)]; a unit has no [element], so the
    optional chain does nothing.  [None] when the constructor builds no
    unit of the model. *)
Definition Game_spawnUnit (type : string) (position : Vector2D)
    (team : Team) (g : Game) : option Game :=
  match Unit_new position type team with
  | Some unit => Some (Game_with_units g (g_units g ++ [unit]))
  | None => None
  end.

Definition Game_spendElixir (amount : Z) (g : Game) : Game :=
  Game_with_elixir g (g_playerElixir g - amount) (g_lastElixirRegen g).

(** [!this.selectedCard] is true for [null], [undefined] and the empty
    string: [truthyCard] returns the card otherwise. *)
Definition truthyCard (card : option string) : option string :=
  match card with
  | Some "" => None
  | other => other
  end.

(** [tryPlaceUnit()]: the point of the placement is [this.mousePos],
    which the mouse and touch handlers set just before the call.  When
    [unitData] is an inherited member of the table, [unitData.cost] is
    [undefined] and [this.playerElixir >= undefined] is false: nothing
    is spawned or spent.  When it is an entry, the table of the
    constructor has an entry for the same type (the two tables have the
    same keys), so the spawn builds a unit of the model: the last branch
    is never taken. *)
Definition Game_tryPlaceUnit (g : Game) : Game :=
  match truthyCard (g_selectedCard g) with
  | None => Game_cancelCardPlacement g
  | Some selectedCard =>
      if negb (Utils.pointInRect (g_mousePos g) (g_playerZone g))
      then Game_cancelCardPlacement g
      else
        match getUnitData selectedCard with
        | None => Game_cancelCardPlacement g
        | Some unitData =>
            if (cost unitData <=? g_playerElixir g)%Z
            then
              match Game_spawnUnit selectedCard (g_mousePos g) player g with
              | Some g =>
                  Game_cancelCardPlacement
                    (Game_spendElixir (cost unitData) g)
              | None => Game_cancelCardPlacement g
              end
            else Game_cancelCardPlacement g
        end
  end.

(** ** Input handling *)

(** [handleMouseDown(e)] and [handleTouchStart(e)]: the position of the
    pointer on the canvas is stored. *)
Definition Game_handlePointerDown (point : Vector2D) (g : Game) : Game :=
  Game_with_mouse g point true.

(** [handleMouseMove(e)] and [handleTouchMove(e)] *)
Definition Game_handlePointerMove (point : Vector2D) (g : Game) : Game :=
  Game_with_mouse g point (g_isMouseDown g).

(** [this.selectedCard && this.draggingCard] *)
Definition placing (g : Game) : bool :=
  match truthyCard (g_selectedCard g) with
  | Some _ => g_draggingCard g
  | None => false
  end.

Definition Game_handleMouseUp (point : Vector2D) (g : Game) : Game :=
  let g := Game_with_mouse g point false in
  if placing g then Game_tryPlaceUnit g else g.

(** [handleTouchEnd(e)]: the position is the one of the last move. *)
Definition Game_handleTouchEnd (g : Game) : Game :=
  let g := Game_with_mouse g (g_mousePos g) false in
  if placing g then Game_tryPlaceUnit g else g.
End GameClass.

(* ================================================================== *)
(** * The game over time *)
(* ================================================================== *)

(** What reaches the game from outside: a frame of the game loop, the
    selection of a card, the pointer events (of the mouse, or of a
    touch, which the handlers treat alike), the cancellation of a
    placement, and a spawn of the enemy AI.  A frame that throws leaves
    the game as the throw found it.  The enemy AI draws the type of a
    spawn from its list of the four types; a spawn with a type that
    builds no unit of the model is no event of the program, and as a
    step it leaves the game as it is. *)
Inductive Step : Type :=
  | Advance (deltaTime : R) (unitTime towerTime : nat -> Z)
  | Select (cardType : option string)
  | PointerDown (point : Vector2D)
  | PointerMove (point : Vector2D)
  | MouseUp (point : Vector2D)
  | TouchEnd
  | Cancel
  | EnemySpawn (type : string) (position : Vector2D).

Definition Game_step (s : Step) (g : Game) : Game :=
  match s with
  | Advance deltaTime unitTime towerTime =>
      final (Game_update deltaTime unitTime towerTime g)
  | Select cardType => Game_selectCard cardType g
  | PointerDown point => Game_handlePointerDown point g
  | PointerMove point => Game_handlePointerMove point g
  | MouseUp point => Game_handleMouseUp point g
  | TouchEnd => Game_handleTouchEnd g
  | Cancel => Game_cancelCardPlacement g
  | EnemySpawn type position =>
      match Game_spawnUnit type position enemy g with
      | Some g => g
      | None => g
      end
  end.

Definition Game_run (steps : list Step) (g : Game) : Game :=
  foldl (fun g s => Game_step s g) g steps.

(** A projectile after [n] updates, each with the time step
    [deltaTime]. *)
Fixpoint Projectile_flight (deltaTime : R) (n : nat) (p : Projectile)
  : Projectile :=
  match n with
  | O => p
  | S n => Projectile_flight deltaTime n (Projectile_update p deltaTime)
  end.

(* ================================================================== *)
(** * Vocabulary of the properties *)
(* ================================================================== *)

(** ** Geometry *)

(** The square of the distance between two points. *)
Definition distance2 (a b : Vector2D) : R :=
  ((x a - x b) * (x a - x b) + (y a - y b) * (y a - y b))%R.

(** A point lies in a rectangle, edges included. *)
Definition inRect (point : Vector2D) (rect : Rect) : Prop :=
  (rect_x rect <= x point <= rect_x rect + rect_width rect)%R
  /\ (rect_y rect <= y point <= rect_y rect + rect_height rect)%R.

(** A position is outside the rectangle that the [update] closure of a
    projectile checks: 0..800 by 0..600. *)
Definition offScreen (position : Vector2D) : Prop :=
  (x position < 0 \/ 800 < x position
   \/ y position < 0 \/ 600 < y position)%R.

(** ** Combatants *)

(** [takeDamage] through a reference of unknown class. *)
Definition Combatant_takeDamage (c : Combatant) (amount : Z) : Combatant :=
  match c with
  | IsUnit u => IsUnit (Unit_takeDamage u amount)
  | IsTower t => IsTower (Tower_takeDamage t amount)
  end.

(** Health and liveness agree: alive with positive health, or dead with
    health 0. *)
Definition intact (c : Combatant) : Prop :=
  if c_alive c then (0 < c_health c)%Z else c_health c = 0%Z.

(** A unit is a live unit of the other team than [team]. *)
Definition opposingLive (team : Team) (unit : Unit) : Prop :=
  u_team unit <> team /\ u_alive unit = true.

(** A tower is a live tower of the other team than [team]. *)
Definition opposingLiveTower (team : Team) (tower : Tower) : Prop :=
  t_team tower <> team /\ t_alive tower = true.

(** The four types of the cards and of the enemy AI. *)
Definition knownType (type : string) : Prop :=
  type = "knight"%string \/ type = "archer"%string
  \/ type = "giant"%string \/ type = "wizard"%string.

(** Health and liveness of a tower. *)
Definition towerVitals (t : Tower) : Z * bool := (t_health t, t_alive t).

(** ** Attacks *)

(** The conditions under which the cooldown-gated attack of a unit
    fires at the time [currentTime]: the unit has a target, the target
    is alive and within the attack range, and the cooldown has elapsed
    since the last attack. *)
Definition Unit_fires (currentTime : Z) (this : Unit) (r : TargetRef)
    (target : Combatant) (g : Game) : Prop :=
  u_target this = Some r /\ deref g r = Some target
  /\ c_alive target = true
  /\ (Vec.distanceTo (u_position this) (c_position target)
      <= u_attackRange this)%R
  /\ (u_attackCooldown this <= currentTime - u_lastAttack this)%Z.

(** The same conditions for a tower. *)
Definition Tower_fires (currentTime : Z) (this : Tower) (j : nat)
    (target : Unit) (g : Game) : Prop :=
  t_target this = Some j /\ g_units g !! j = Some target
  /\ u_alive target = true
  /\ (Vec.distanceTo (t_position this) (u_position target)
      <= t_attackRange this)%R
  /\ (t_attackCooldown this <= currentTime - t_lastAttack this)%Z.

(** A unit is in reach of a projectile: it is of the other team, alive,
    and the projectile is within the radius of the unit. *)
Definition inReach (projectile : Projectile) (unit : Unit) : Prop :=
  u_team unit <> p_team projectile
  /\ u_alive unit = true
  /\ (Vec.distanceTo (p_position projectile) (u_position unit)
      < u_radius unit)%R.

(** What the projectile loop does to one unit. *)
Definition struckBy (projectile : Projectile) (unit : Unit) : Unit :=
  if projectileHits projectile unit
  then Unit_takeDamage unit (p_damage projectile)
  else unit.

(** The two closest-unit scans have one shape: among the units that
    pass a test, keep the first one at the least distance from a point.
    [scanClosest] is that shape, used to reason about both. *)
Fixpoint scanClosest (candidate : Unit -> bool) (origin : Vector2D)
    (units : list Unit) (k : nat)
    (closestTarget : option nat) (closestDistance : option R)
  : option nat * option R :=
  match units with
  | [] => (closestTarget, closestDistance)
  | unit :: rest =>
      let distance := Vec.distanceTo origin (u_position unit) in
      if candidate unit && closer distance closestDistance
      then scanClosest candidate origin rest (S k) (Some k) (Some distance)
      else scanClosest candidate origin rest (S k)
             closestTarget closestDistance
  end.

(** ** Placement and resource *)

(** The conditions under which a placement goes through: a card is
    pending, the pointer is in the zone of the human side, and the
    resource covers the cost of the card, which is the cost of its entry
    in the table ([playerElixir >= unitData.cost] is false when the
    cost is [undefined]). *)
Definition placementLegal (g : Game) : Prop :=
  exists (card : string) (unitData : UnitData),
    truthyCard (g_selectedCard g) = Some card
    /\ inRect (g_mousePos g) (g_playerZone g)
    /\ getUnitData card = Some unitData
    /\ (cost unitData <= g_playerElixir g)%Z.

(** The part of the game that a placement depends on: the resource of
    the human side and its zone. *)
Definition economy (g : Game) : Z * Z * Z * R * Rect :=
  (g_playerElixir g, g_maxElixir g, g_elixirRegenRate g,
   g_lastElixirRegen g, g_playerZone g).

(** The constants of the resource as the constructor sets them, and the
    bounds of the amount. *)
Definition economy_ok (g : Game) : Prop :=
  g_maxElixir g = 10%Z /\ g_elixirRegenRate g = 1%Z
  /\ (0 <= g_playerElixir g <= 10)%Z.

(** ** What a piece of the program keeps of a game *)

Definition same_economy (g g' : Game) : Prop := economy g' = economy g.

(** The tower list of [g'] is that of [g]. *)
Definition towersKept (g g' : Game) : Prop := g_towers g' = g_towers g.

(** Two games whose towers agree on an attribute [f]. *)
Definition sameTowersBy {A : Type} (f : Tower -> A) (g g' : Game) : Prop :=
  f <$> g_towers g' = f <$> g_towers g.

(** Two games whose units agree on an attribute [f]. *)
Definition sameUnitsBy {A : Type} (f : Unit -> A) (g g' : Game) : Prop :=
  f <$> g_units g' = f <$> g_units g.



(** ** Invariants of a game *)

(** The tower list holds at most one tower of each team, as
    [initializeTowers] builds it. *)
Definition towersOnePerTeam (g : Game) : Prop :=
  forall (k k' : nat) (t t' : Tower),
    g_towers g !! k = Some t -> g_towers g !! k' = Some t' ->
    t_team t = t_team t' -> k = k'.

(** The state of a unit, of a tower and of a game that the constructors
    establish and every step maintains: health and liveness agree, no
    damage is negative, and the cooldowns and the range of a tower are
    the ones the constructors set. *)
Definition Unit_ok (u : Unit) : Prop :=
  intact (IsUnit u) /\ (0 <= u_damage u)%Z /\ u_attackCooldown u = 1000%Z.

Definition Tower_ok (t : Tower) : Prop :=
  intact (IsTower t) /\ (0 <= t_damage t)%Z
  /\ t_attackCooldown t = 800%Z /\ t_attackRange t = 150%R.

Definition wellFormed (g : Game) : Prop :=
  Forall Unit_ok (g_units g) /\ Forall Tower_ok (g_towers g)
  /\ Forall (fun p => (0 <= p_damage p)%Z) (g_projectiles g).

Definition keepsWellFormed (g g' : Game) : Prop :=
  wellFormed g -> wellFormed g'.

(* ================================================================== *)
(** * Example games *)
(* ================================================================== *)

(** A game as the constructor builds it on an 800 by 600 canvas in a
    container 800 wide: the canvas becomes 800 by 500, with the tower of
    the human side at (400, 450) and the enemy tower at (400, 50). *)
Definition freshGame : Game := Game_new (mkCanvas 800 600) 800.

(** A clock that stands still. *)
Definition stillClock (time : Z) : nat -> Z := fun _ => time.

(** The units of the examples are the ones that the constructor builds
    for a type of the table: [new Unit(position, 'knight', team)] and
    the like. *)
Definition newKnight (position : Vector2D) (team : Team) : Unit :=
  Unit_of knightStats position "knight" team.

Definition newArcher (position : Vector2D) (team : Team) : Unit :=
  Unit_of archerStats position "archer" team.

Definition newGiant (position : Vector2D) (team : Team) : Unit :=
  Unit_of giantStats position "giant" team.

(** A projectile of the human side with two enemy knights in reach. *)
Definition twoInReach : Game :=
  Game_with_projectiles
    (Game_with_units freshGame
       [newKnight (mkVector2D 100 100) enemy;
        newKnight (mkVector2D 105 100) enemy])
    [ {| p_position := mkVector2D 100 100;
         p_target := mkVector2D 100 100;
         p_speed := 200;
         p_damage := 100;
         p_team := player;
         p_alive := true;
         p_type := "archer";
         p_update := UnitFired |} ].

(** Two knights of opposing teams, 20 apart. *)
Definition twoKnights : Game :=
  Game_with_units freshGame
    [newKnight (mkVector2D 400 300) player;
     newKnight (mkVector2D 420 300) enemy].

(** The same, after the first knight has taken the second as its
    target. *)
Definition twoKnightsEngaged : Game :=
  setUnit twoKnights 0
    (Unit_with_target (newKnight (mkVector2D 400 300) player)
       (Some (UnitRef 1))).

(** An archer of the human side with an enemy knight 50 away: within
    the range of the archer (100), outside the range of the knight
    (40). *)
Definition archerInRange : Game :=
  Game_with_units freshGame
    [newArcher (mkVector2D 400 300) player;
     newKnight (mkVector2D 450 300) enemy].

(** Three knights in a row, 20 apart: one of the human side, an enemy
    one that has 100 points of health left, and a second one of the
    human side. *)
Definition threeKnights : Game :=
  Game_with_units freshGame
    [newKnight (mkVector2D 400 300) player;
     Unit_takeDamage (newKnight (mkVector2D 420 300) enemy) 1100;
     newKnight (mkVector2D 440 300) player].

(** An enemy knight 50 away from the tower of the human side. *)
Definition knightAtTower : Game :=
  Game_with_units freshGame [newKnight (mkVector2D 400 400) enemy].


(** A projectile of a unit in flight along the x axis. *)
Definition arrow : Projectile :=
  {| p_position := mkVector2D 100 100;
     p_target := mkVector2D 200 100;
     p_speed := 200;
     p_damage := 100;
     p_team := player;
     p_alive := true;
     p_type := "archer";
     p_update := UnitFired |}.


(* ================================================================== *)
(** * Utils.js: more of Utils *)
(* ================================================================== *)

Section MoreUtils.
Local Open Scope R_scope.

(** [circleCollision(pos1, radius1, pos2, radius2)] *)
Definition Utils_circleCollision (pos1 : Vector2D) (radius1 : R)
    (pos2 : Vector2D) (radius2 : R) : bool :=
  let distance := Vec.distanceTo pos1 pos2 in
  Rltb distance (radius1 + radius2).

(** [random(min, max)]; [rnd] is the number that [Math.random()]
    returns, which lies in the interval from 0 (included) to 1
    (excluded). *)
Definition Utils_random (rnd minimum maximum : R) : R :=
  rnd * (maximum - minimum) + minimum.

(** [randomInt(min, max)], for bounds that are integers. *)
Definition Utils_randomInt (rnd : R) (minimum maximum : Z) : Z :=
  (Zfloor (rnd * IZR (maximum - minimum + 1)) + minimum)%Z.
End MoreUtils.

(* ================================================================== *)
(** * Game.js: the enemy AI and the game loop *)
(* ================================================================== *)

Section GameLoop.
Local Open Scope string_scope.

(** [enemyAI()]; the three numbers are the results of the three calls
    of [Math.random()], in the order of the calls.  An index outside
    the array of types reads [undefined], a type that [u_type] does not
    hold: the result is [None] there.  It does not happen for a number
    that [Math.random()] can return, and for the types of the array the
    spawn builds a unit of the model. *)
Definition Game_enemyAI (rndType rndX rndY : R) (g : Game) : option Game :=
  let unitTypes := ["knight"; "archer"; "giant"; "wizard"] in
  let index := Utils_randomInt rndType 0 (Z.of_nat (length unitTypes) - 1) in
  let spawnX := Utils_random rndX 100 (width (g_canvas g) - 100) in
  let spawnY := Utils_random rndY 50 (rect_height (g_enemyZone g) - 50) in
  if (index <? 0)%Z then None
  else
    match unitTypes !! Z.to_nat index with
    | None => None
    | Some randomType =>
        Game_spawnUnit randomType (mkVector2D spawnX spawnY) enemy g
    end.

(** The callback that [startEnemyAI] installs with [setInterval]. *)
Definition Game_enemyAITimer (rndType rndX rndY : R) (g : Game)
  : option Game :=
  if g_running g then Game_enemyAI rndType rndX rndY g else Some g.

(** The field [lastTime] of the game is read and written by [start] and
    [gameLoop] only.  It is kept beside the [Game] record, together with
    what [requestAnimationFrame] and [setInterval] have been asked for:
    whether a call of [gameLoop] is pending, and whether the timer of
    the enemy AI is installed.  A game is started once (main.js), so at
    most one call of [gameLoop] is pending at a time. *)
Record Loop : Type := mkLoop
  { l_game : Game;
    l_lastTime : R;
    l_frameRequested : bool;
    l_enemyAI : bool }.

(** How a call that may throw leaves the loop. *)
Inductive LoopCompletion : Type :=
  | Returned (l : Loop)
  | Thrown (l : Loop).

Definition loopOf (c : LoopCompletion) : Loop :=
  match c with Returned l | Thrown l => l end.

(** [gameLoop()]; [currentTime] is what [performance.now()] returns.
    The drawing of the frame is left out.  A frame is requested at the
    end, which a throw of [update] does not reach. *)
Definition Game_gameLoop (currentTime : R) (unitTime towerTime : nat -> Z)
    (l : Loop) : LoopCompletion :=
  if negb (g_running (l_game l)) then Returned l
  else
    let deltaTime := ((currentTime - l_lastTime l) / 1000)%R in
    match Game_update deltaTime unitTime towerTime (l_game l) with
    | Normal g => Returned (mkLoop g currentTime true (l_enemyAI l))
    | TypeError g =>
        Thrown (mkLoop g currentTime (l_frameRequested l) (l_enemyAI l))
    end.

(** [start()]; [startTime] and [currentTime] are the results of the two
    calls of [performance.now()], the one of [start] and the one of the
    first [gameLoop]. *)
Definition Game_start (startTime currentTime : R)
    (unitTime towerTime : nat -> Z) (l : Loop) : LoopCompletion :=
  let g := Game_with_running (l_game l) true (g_result (l_game l)) in
  let l := mkLoop g startTime (l_frameRequested l) (l_enemyAI l) in
  match Game_gameLoop currentTime unitTime towerTime l with
  | Returned l =>
      Returned (mkLoop (l_game l) (l_lastTime l) (l_frameRequested l) true)
  | Thrown l => Thrown l
  end.

(** [stop()] *)
Definition Game_stop (g : Game) : Game :=
  Game_with_running g false (g_result g).

(** The callback of [requestAnimationFrame]: it runs once when a frame
    has been requested, and the request is used up. *)
Definition Loop_animationFrame (currentTime : R)
    (unitTime towerTime : nat -> Z) (l : Loop) : Loop :=
  if l_frameRequested l
  then loopOf (Game_gameLoop currentTime unitTime towerTime
                 (mkLoop (l_game l) (l_lastTime l) false (l_enemyAI l)))
  else l.

(** A frame of the browser: the time and the clock readings that the
    callback sees. *)
Record Frame : Type := mkFrame
  { f_currentTime : R; f_unitTime : nat -> Z; f_towerTime : nat -> Z }.

Definition Loop_frames (frames : list Frame) (l : Loop) : Loop :=
  foldl (fun l f =>
           Loop_animationFrame (f_currentTime f) (f_unitTime f)
             (f_towerTime f) l)
    l frames.

(** A loop around a game that has not been started. *)
Definition Loop_new (g : Game) : Loop := mkLoop g 0 false false.
End GameLoop.

(* ================================================================== *)
(** * UI.js: where the UI reaches the game *)
(* ================================================================== *)

Section UIClass.
Local Open Scope string_scope.

(** The key that a value of [card.dataset.unit] reads in a table:
    [undefined] reads the key ["undefined"]. *)
Definition propertyKey (unitType : option string) : string :=
  match unitType with
  | Some type => type
  | None => "undefined"
  end.

(** [startCardDrag(card)] on a UI whose game is set, as it acts on the
    game; [unitType] is [card.dataset.unit].  The selection of the UI
    itself and the styling of the page are left out.  When [unitData] is
    an inherited member of the table, [unitData.cost] is [undefined] and
    [this.game.playerElixir < undefined] is false: the card is selected
    whatever the elixir. *)
Definition UI_startCardDrag (unitType : option string) (g : Game) : Game :=
  match getUnitData (propertyKey unitType) with
  | None => Game_selectCard unitType g
  | Some unitData =>
      if (g_playerElixir g <? cost unitData)%Z then g
      else Game_selectCard unitType g
  end.

(** [isValidPlacement] of [updateDragPreview], the test that colours
    the border of the card. *)
Definition UI_isValidPlacement (canvasY : R) (canvas : Canvas) : bool :=
  Rltb (height canvas / 2) canvasY.
End UIClass.

(* ================================================================== *)
(** * More vocabulary *)
(* ================================================================== *)

(** A position is inside the canvas, edges included: the playfield, to
    which [Unit.move] clamps the units. *)
Definition inCanvas (position : Vector2D) (canvas : Canvas) : Prop :=
  (0 <= x position <= width canvas)%R
  /\ (0 <= y position <= height canvas)%R.



(** No unit of the game is an archer or a wizard. *)
Definition noneRanged (g : Game) : Prop :=
  Forall (fun type => isRanged type = false) (u_type <$> g_units g).

(** The game has a tower of each team. *)
Definition bothTowers (g : Game) : Prop :=
  (exists (k : nat) (t : Tower),
     g_towers g !! k = Some t /\ t_team t = player)
  /\ (exists (k : nat) (t : Tower),
        g_towers g !! k = Some t /\ t_team t = enemy).

(** What never changes of a tower. *)
Definition towerConstants (t : Tower)
  : Vector2D * Team * Z * Z * R * R * Z :=
  (t_position t, t_team t, t_maxHealth t, t_damage t, t_attackRange t,
   t_radius t, t_attackCooldown t).

(** What never changes of a unit. *)
Definition unitConstants (u : Unit) : string * Team * Z * Z * R * R * R * Z :=
  (u_type u, u_team u, u_maxHealth u, u_damage u, u_speed u,
   u_attackRange u, u_radius u, u_attackCooldown u).

(** The part of a game that only the input handlers write. *)
Definition controls (g : Game)
  : option string * bool * Vector2D * bool * Canvas * Rect :=
  (g_selectedCard g, g_draggingCard g, g_mousePos g, g_isMouseDown g,
   g_canvas g, g_enemyZone g).

Definition same_controls (g g' : Game) : Prop := controls g' = controls g.



(** A tower has not gained health and has not come back to life. *)
Definition towerDecays (t t' : Tower) : Prop :=
  (t_health t' <= t_health t)%Z /\ (t_alive t = false -> t_alive t' = false).

(** The towers of [g'] are those of a well-formed [g], each one decayed;
    [g'] is well formed too. *)
Definition towersDecay (g g' : Game) : Prop :=
  wellFormed g ->
  wellFormed g' /\ Forall2 towerDecays (g_towers g) (g_towers g').

(** A step that is a frame or a move of the pointer: what can happen
    between the selection of a card and the release of the pointer. *)
Definition duringDrag (s : Step) : Prop :=
  match s with
  | Advance _ _ _ | PointerDown _ | PointerMove _ | EnemySpawn _ _ => True
  | _ => False
  end.

(** A piece of the program that writes no unit other than the one at
    [i], and no projectile. *)
Definition onlyUnit (i : nat) (g g' : Game) : Prop :=
  (forall j : nat, j <> i -> g_units g' !! j = g_units g !! j)
  /\ g_projectiles g' = g_projectiles g.

(* ================================================================== *)
(** * More example games *)
(* ================================================================== *)

(** Two enemy knights, the first one 100 and the second one 20 away
    from the point (400, 300). *)
Definition twoEnemies : Game :=
  Game_with_units freshGame
    [newKnight (mkVector2D 500 300) enemy;
     newKnight (mkVector2D 420 300) enemy].

(** An enemy knight that has been killed and not yet removed. *)
Definition fallenKnight : Game :=
  Game_with_units freshGame
    [Unit_takeDamage (newKnight (mkVector2D 400 300) enemy) 5000].

(** An archer of the human side and an enemy knight 30 apart: each one
    within the range of the other (100 and 40). *)
Definition archerAndKnight : Game :=
  Game_with_units freshGame
    [newArcher (mkVector2D 400 300) player;
     newKnight (mkVector2D 430 300) enemy].

(** A game in a container 2000 wide: the canvas is 2000 by 500 and the
    towers stand at x = 1000. *)
Definition wideGame : Game := Game_new (mkCanvas 800 600) 2000.


(** An arrow below the canvas of [freshGame], which is 500 high, on its
    way further down. *)
Definition lowArrow : Projectile :=
  {| p_position := mkVector2D 400 520;
     p_target := mkVector2D 400 590;
     p_speed := 200;
     p_damage := 100;
     p_team := enemy;
     p_alive := true;
     p_type := "archer";
     p_update := UnitFired |}.

(** An enemy knight 49 below the tower of the human side, out of its
    range (40), after it has taken the tower as its target. *)
Definition knightBelowTower : Game :=
  Unit_findTarget 0
    (Game_with_units freshGame [newKnight (mkVector2D 400 499) enemy]).
(* ================================================================== *)
(** * Properties *)
(* ================================================================== *)

(** ** Comparisons *)

Lemma Rltb_true_iff (a b : R) : Rltb a b = true <-> (a < b)%R.
Proof. unfold Rltb. destruct (Rlt_dec a b); split; intros; try done. Qed.

Lemma Rltb_false_iff (a b : R) : Rltb a b = false <-> (b <= a)%R.
Proof.
  unfold Rltb. destruct (Rlt_dec a b); split; intros; try done; lra.
Qed.

Lemma Rleb_true_iff (a b : R) : Rleb a b = true <-> (a <= b)%R.
Proof. unfold Rleb. destruct (Rle_dec a b); split; intros; try done. Qed.

Lemma Rleb_false_iff (a b : R) : Rleb a b = false <-> (b < a)%R.
Proof.
  unfold Rleb. destruct (Rle_dec a b); split; intros; try done; lra.
Qed.

Lemma Reqb_true_iff (a b : R) : Reqb a b = true <-> a = b.
Proof. unfold Reqb. destruct (Req_dec_T a b); split; intros; try done. Qed.

Lemma Reqb_false_iff (a b : R) : Reqb a b = false <-> a <> b.
Proof. unfold Reqb. destruct (Req_dec_T a b); split; intros; try done. Qed.

Lemma Team_eqb_eq (a b : Team) : Team_eqb a b = true <-> a = b.
Proof. destruct a, b; simpl; split; intros; done. Qed.

Lemma Team_eqb_refl (a : Team) : Team_eqb a a = true.
Proof. by destruct a. Qed.

Lemma Team_eqb_sym (a b : Team) : Team_eqb a b = Team_eqb b a.
Proof. by destruct a, b. Qed.

(** ** Distances *)

Section Distances.
Local Open Scope R_scope.

Lemma distanceTo_distance2 (a b : Vector2D) :
  Vec.distanceTo a b = sqrt (distance2 a b).
Proof. reflexivity. Qed.

Lemma distance2_nonneg (a b : Vector2D) : 0 <= distance2 a b.
Proof.
  unfold distance2.
  pose proof (Rle_0_sqr (x a - x b)) as Hx.
  pose proof (Rle_0_sqr (y a - y b)) as Hy.
  unfold Rsqr in Hx, Hy. lra.
Qed.


Lemma distanceTo_lt_iff (a b : Vector2D) (r : R) :
  Vec.distanceTo a b < r <-> 0 < r /\ distance2 a b < r * r.
Proof.
  rewrite distanceTo_distance2.
  pose proof (distance2_nonneg a b) as Hd.
  split.
  - intros H. pose proof (sqrt_pos (distance2 a b)) as Hs.
    split; [lra|].
    rewrite <- (sqrt_sqrt (distance2 a b)) at 1 by done. nra.
  - intros [Hr H]. rewrite <- (sqrt_square r) by lra.
    apply sqrt_lt_1; nra.
Qed.

Lemma distanceTo_le_iff (a b : Vector2D) (r : R) :
  Vec.distanceTo a b <= r <-> 0 <= r /\ distance2 a b <= r * r.
Proof.
  rewrite distanceTo_distance2.
  pose proof (distance2_nonneg a b) as Hd.
  split.
  - intros H. pose proof (sqrt_pos (distance2 a b)) as Hs.
    split; [lra|].
    rewrite <- (sqrt_sqrt (distance2 a b)) at 1 by done. nra.
  - intros [Hr H]. rewrite <- (sqrt_square r) by lra.
    apply sqrt_le_1; nra.
Qed.

Lemma distanceTo_sym (a b : Vector2D) : Vec.distanceTo a b = Vec.distanceTo b a.
Proof.
  rewrite !distanceTo_distance2. f_equal. unfold distance2. ring.
Qed.

Lemma Rltb_distanceTo (a b : Vector2D) (r : R) :
  Rltb (Vec.distanceTo a b) r = Rltb 0 r && Rltb (distance2 a b) (r * r).
Proof.
  apply eq_true_iff_eq.
  rewrite andb_true_iff, !Rltb_true_iff. apply distanceTo_lt_iff.
Qed.

Lemma Rleb_distanceTo (a b : Vector2D) (r : R) :
  Rleb (Vec.distanceTo a b) r = Rleb 0 r && Rleb (distance2 a b) (r * r).
Proof.
  apply eq_true_iff_eq.
  rewrite andb_true_iff, !Rleb_true_iff. apply distanceTo_le_iff.
Qed.
End Distances.

(** Evaluation of the comparisons of a closed example: a comparison of
    a distance is turned into the comparison of the squares, and a
    comparison of closed numbers is decided by [lra]. *)
Ltac decide_closed_comparisons :=
  repeat match goal with
  | |- context [Reqb ?a ?b] =>
      first [ rewrite (proj2 (Reqb_true_iff a b)) by lra
            | rewrite (proj2 (Reqb_false_iff a b)) by lra ]
  | |- context [Rltb ?a ?b] =>
      first [ rewrite (proj2 (Rltb_true_iff a b)) by lra
            | rewrite (proj2 (Rltb_false_iff a b)) by lra ]
  | |- context [Rleb ?a ?b] =>
      first [ rewrite (proj2 (Rleb_true_iff a b)) by lra
            | rewrite (proj2 (Rleb_false_iff a b)) by lra ]
  end.

Ltac decide_comparisons :=
  repeat (progress
            (rewrite ?Rltb_distanceTo, ?Rleb_distanceTo; unfold distance2;
             simpl; decide_closed_comparisons; simpl)).

(** ** Damage application (Unit.takeDamage, Tower.takeDamage) *)

Section TakeDamage.
Local Open Scope Z_scope.

Lemma entryOrKnight_Some {A : Type} (knight archer giant wizard entry : A)
    (type : string) :
  entryOrKnight knight archer giant wizard type = Some entry ->
  entry = knight \/ entry = archer \/ entry = giant \/ entry = wizard.
Proof.
  unfold entryOrKnight. repeat case_match; intros [= <-]; tauto.
Qed.

Lemma entryOrKnight_None {A : Type} (knight archer giant wizard : A)
    (type : string) :
  entryOrKnight knight archer giant wizard type = None
  <-> inheritedKey type = true.
Proof.
  unfold entryOrKnight.
  destruct (String.eqb_spec type "knight") as [->|_]; [done|].
  destruct (String.eqb_spec type "archer") as [->|_]; [done|].
  destruct (String.eqb_spec type "giant") as [->|_]; [done|].
  destruct (String.eqb_spec type "wizard") as [->|_]; [done|].
  by destruct (inheritedKey type).
Qed.

Lemma getUnitStats_health_pos (type : string) (stats : UnitStats) :
  getUnitStats type = Some stats -> 0 < st_health stats.
Proof.
  intros H. apply entryOrKnight_Some in H.
  destruct H as [-> | [-> | [-> | ->]]]; simpl; lia.
Qed.

Lemma Unit_new_Some (position : Vector2D) (type : string) (team : Team)
    (unit : Unit) :
  Unit_new position type team = Some unit
  <-> exists stats : UnitStats,
        getUnitStats type = Some stats
        /\ unit = Unit_of stats position type team.
Proof.
  unfold Unit_new. destruct (getUnitStats type) as [stats|].
  - split.
    + intros [= <-]. by exists stats.
    + by intros (stats' & [= <-] & ->).
  - split; [done|]. by intros (stats' & H & _).
Qed.

Lemma Unit_new_intact (position : Vector2D) (type : string) (team : Team)
    (unit : Unit) :
  Unit_new position type team = Some unit -> intact (IsUnit unit).
Proof.
  intros (stats & Hstats & ->)%Unit_new_Some. unfold intact; simpl.
  by eapply getUnitStats_health_pos.
Qed.

Lemma Tower_new_intact (position : Vector2D) (team : Team) :
  intact (IsTower (Tower_new position team)).
Proof. unfold intact; simpl. lia. Qed.

Lemma Unit_takeDamage_health (u : Unit) (amount : Z) :
  u_health (Unit_takeDamage u amount) = Z.max 0 (u_health u - amount).
Proof.
  unfold Unit_takeDamage.
  destruct (Z.leb_spec (u_health u - amount) 0); simpl; lia.
Qed.

Lemma Unit_takeDamage_alive (u : Unit) (amount : Z) :
  u_alive (Unit_takeDamage u amount)
  = u_alive u && negb (u_health u - amount <=? 0).
Proof.
  unfold Unit_takeDamage.
  destruct (u_health u - amount <=? 0); simpl;
    by rewrite ?andb_false_r, ?andb_true_r.
Qed.

Lemma Tower_takeDamage_health (t : Tower) (amount : Z) :
  t_health (Tower_takeDamage t amount) = Z.max 0 (t_health t - amount).
Proof.
  unfold Tower_takeDamage.
  destruct (Z.leb_spec (t_health t - amount) 0); simpl; lia.
Qed.

Lemma Tower_takeDamage_alive (t : Tower) (amount : Z) :
  t_alive (Tower_takeDamage t amount)
  = t_alive t && negb (t_health t - amount <=? 0).
Proof.
  unfold Tower_takeDamage.
  destruct (t_health t - amount <=? 0); simpl;
    by rewrite ?andb_false_r, ?andb_true_r.
Qed.

Lemma Combatant_takeDamage_health (c : Combatant) (amount : Z) :
  c_health (Combatant_takeDamage c amount) = Z.max 0 (c_health c - amount).
Proof.
  destruct c; simpl;
    auto using Unit_takeDamage_health, Tower_takeDamage_health.
Qed.

Lemma Combatant_takeDamage_alive (c : Combatant) (amount : Z) :
  c_alive (Combatant_takeDamage c amount)
  = c_alive c && negb (c_health c - amount <=? 0).
Proof.
  destruct c; simpl;
    auto using Unit_takeDamage_alive, Tower_takeDamage_alive.
Qed.

End TakeDamage.

(** ** Frames: what a phase of the tick leaves alone *)

(** A goal on a field that the code under it does not write: every
    branch of the code is taken in turn and ends by computation. *)
Ltac frame_cases :=
  repeat first [ reflexivity | progress simpl | case_match ].

Section Frames.
Context (Rel : Game -> Game -> Prop).
Hypothesis Rel_refl : forall g, Rel g g.
Hypothesis Rel_trans : forall g1 g2 g3, Rel g1 g2 -> Rel g2 g3 -> Rel g1 g3.

Lemma andThen_frame (c : completion) (k : Game -> completion) (g : Game) :
  Rel g (final c) -> (forall g', Rel g' (final (k g'))) ->
  Rel g (final (c >>> k)).
Proof.
  destruct c as [g1|g1]; simpl; intros H1 H2; [|done].
  by apply Rel_trans with g1.
Qed.

Lemma forIndices_frame (indices : list nat)
    (body : nat -> Game -> completion) :
  (forall i g, i ∈ indices -> Rel g (final (body i g))) ->
  forall g, Rel g (final (forIndices indices body g)).
Proof.
  induction indices as [|i rest IH]; intros Hbody g; simpl; [done|].
  destruct (body i g) as [g1|g1] eqn:E; simpl.
  - apply Rel_trans with g1.
    + specialize (Hbody i g). rewrite E in Hbody. apply Hbody. left.
    + apply IH. intros j g' Hj. apply Hbody. by right.
  - specialize (Hbody i g). rewrite E in Hbody. apply Hbody. left.
Qed.

Lemma foldl_frame {A : Type} (f : Game -> A -> Game) (l : list A) :
  (forall a g, a ∈ l -> Rel g (f g a)) ->
  forall g, Rel g (foldl f g l).
Proof.
  induction l as [|a rest IH]; intros Hf g; simpl; [done|].
  apply Rel_trans with (f g a).
  - apply Hf. left.
  - apply IH. intros b g' Hb. apply Hf. by right.
Qed.
End Frames.

(** ** The resource (Game.updateElixir, Game.tryPlaceUnit) *)

Lemma Game_spawnUnit_Some (type : string) (position : Vector2D) (team : Team)
    (g g' : Game) :
  Game_spawnUnit type position team g = Some g'
  <-> exists unit : Unit,
        Unit_new position type team = Some unit
        /\ g' = Game_with_units g (g_units g ++ [unit]).
Proof.
  unfold Game_spawnUnit. destruct (Unit_new position type team) as [unit|].
  - split.
    + intros [= <-]. by exists unit.
    + by intros (unit' & [= <-] & ->).
  - split; [done|]. by intros (unit' & H & _).
Qed.

(** A spawn that builds a unit appends it: the cases of a proof about a
    spawn. *)
Ltac spawn_cases :=
  repeat match goal with
  | H : Game_spawnUnit _ _ _ _ = Some _ |- _ =>
      apply Game_spawnUnit_Some in H as (? & ? & ->)
  end.

Section Economy.
Local Open Scope Z_scope.

Lemma same_economy_refl (g : Game) : same_economy g g.
Proof. done. Qed.

Lemma same_economy_trans (g1 g2 g3 : Game) :
  same_economy g1 g2 -> same_economy g2 g3 -> same_economy g1 g3.
Proof. unfold same_economy. congruence. Qed.

Lemma Unit_findTarget_economy (i : nat) (g : Game) :
  same_economy g (Unit_findTarget i g).
Proof. unfold same_economy, Unit_findTarget. frame_cases. Qed.

Lemma Unit_move_economy (deltaTime : R) (i : nat) (g : Game) :
  same_economy g (Unit_move deltaTime i g).
Proof. unfold same_economy, Unit_move. frame_cases. Qed.

Lemma Unit_attack_economy (i : nat) (r : TargetRef) (game : bool) (g : Game) :
  same_economy g (final (Unit_attack i r game g)).
Proof.
  unfold same_economy, Unit_attack, Unit_createProjectile, target_takeDamage.
  frame_cases.
Qed.

Lemma Unit_attemptAttack_economy (currentTime : Z) (i : nat) (g : Game) :
  same_economy g (final (Unit_attemptAttack currentTime i g)).
Proof.
  unfold Unit_attemptAttack.
  repeat case_match; try apply same_economy_refl.
  apply (andThen_frame same_economy same_economy_trans).
  - apply Unit_attack_economy.
  - intros g'. unfold same_economy, Unit_setLastAttack. frame_cases.
Qed.

Lemma Unit_update_economy (deltaTime : R) (currentTime : Z) (i : nat)
    (g : Game) :
  same_economy g (final (Unit_update deltaTime currentTime i g)).
Proof.
  unfold Unit_update.
  repeat case_match; try apply same_economy_refl.
  apply (andThen_frame same_economy same_economy_trans).
  - eapply same_economy_trans; [apply Unit_findTarget_economy|].
    eapply same_economy_trans; [apply Unit_move_economy|].
    apply Unit_attemptAttack_economy.
  - intros g'. unfold same_economy, Unit_addAnimationTime. frame_cases.
Qed.

Lemma Game_updateUnits_economy (deltaTime : R) (currentTime : nat -> Z)
    (g : Game) :
  same_economy g (final (Game_updateUnits deltaTime currentTime g)).
Proof.
  apply (forIndices_frame same_economy same_economy_refl same_economy_trans).
  intros i g' _. apply Unit_update_economy.
Qed.

Lemma Tower_update_economy (currentTime : Z) (k : nat) (g : Game) :
  same_economy g (Tower_update currentTime k g).
Proof.
  unfold same_economy, Tower_update, Tower_attemptAttack, Tower_findTarget,
    Tower_setLastAttack, Tower_attack.
  frame_cases.
Qed.

Lemma Game_updateTowers_economy (currentTime : nat -> Z) (g : Game) :
  same_economy g (Game_updateTowers currentTime g).
Proof.
  apply (foldl_frame same_economy same_economy_refl same_economy_trans).
  intros k g' _. apply Tower_update_economy.
Qed.

Lemma Game_clashPair_economy (i j : nat) (g : Game) :
  same_economy g (final (Game_clashPair i j g)).
Proof.
  unfold Game_clashPair.
  repeat case_match; try apply same_economy_refl;
    apply (andThen_frame same_economy same_economy_trans);
    try apply Unit_attack_economy; try apply same_economy_refl;
    intros g'; case_match;
    try apply Unit_attack_economy; apply same_economy_refl.
Qed.

Lemma Game_clashUnits_economy (g : Game) :
  same_economy g (final (Game_clashUnits g)).
Proof.
  apply (forIndices_frame same_economy same_economy_refl same_economy_trans).
  intros i g' _. unfold Game_clashRow.
  repeat case_match; try apply same_economy_refl.
  apply (forIndices_frame same_economy same_economy_refl same_economy_trans).
  intros j g'' _. apply Game_clashPair_economy.
Qed.

Lemma Game_strikeProjectiles_economy (g : Game) :
  same_economy g (Game_strikeProjectiles g).
Proof.
  unfold same_economy, Game_strikeProjectiles.
  by destruct (Game_strikeAll (g_projectiles g) (g_units g)).
Qed.

Lemma Game_checkCollisions_economy (g : Game) :
  same_economy g (final (Game_checkCollisions g)).
Proof.
  apply (andThen_frame same_economy same_economy_trans).
  - apply Game_clashUnits_economy.
  - intros g'. apply Game_strikeProjectiles_economy.
Qed.

Lemma Game_checkWinConditions_economy (g : Game) :
  same_economy g (final (Game_checkWinConditions g)).
Proof. unfold same_economy, Game_checkWinConditions. frame_cases. Qed.

(** The phases of a tick after the first leave the resource alone. *)
Lemma Game_update_economy (deltaTime : R) (unitTime towerTime : nat -> Z)
    (g : Game) :
  economy (final (Game_update deltaTime unitTime towerTime g))
  = economy (Game_updateElixir deltaTime g).
Proof.
  unfold Game_update.
  change (same_economy (Game_updateElixir deltaTime g)
            (final (Game_updateUnits deltaTime unitTime
                      (Game_updateElixir deltaTime g) >>>
                    (fun g0 =>
                       Game_checkCollisions
                         (Game_updateTowers towerTime
                            (Game_updateProjectiles deltaTime g0)) >>>
                       (fun g1 =>
                          Game_checkWinConditions
                            (Game_cleanupEntities g1)))))).
  apply (andThen_frame same_economy same_economy_trans).
  - apply Game_updateUnits_economy.
  - intros g0. apply (andThen_frame same_economy same_economy_trans).
    + eapply same_economy_trans; [|apply Game_checkCollisions_economy].
      eapply same_economy_trans; [|apply Game_updateTowers_economy].
      done.
    + intros g1.
      eapply same_economy_trans; [|apply Game_checkWinConditions_economy].
      done.
Qed.

Lemma Game_updateElixir_spec (deltaTime : R) (g : Game) :
  let g' := Game_updateElixir deltaTime g in
  ((1 <= g_lastElixirRegen g + deltaTime)%R ->
     g_playerElixir g'
     = Z.min (g_playerElixir g + g_elixirRegenRate g) (g_maxElixir g)
     /\ g_lastElixirRegen g' = 0%R)
  /\ ((g_lastElixirRegen g + deltaTime < 1)%R ->
        g_playerElixir g' = g_playerElixir g
        /\ g_lastElixirRegen g' = (g_lastElixirRegen g + deltaTime)%R)
  /\ g_maxElixir g' = g_maxElixir g
  /\ g_elixirRegenRate g' = g_elixirRegenRate g.
Proof.
  unfold Game_updateElixir. simpl.
  destruct (Rleb 1 (g_lastElixirRegen g + deltaTime)) eqn:E; simpl.
  - apply Rleb_true_iff in E. repeat split; intros; try done; lra.
  - apply Rleb_false_iff in E. repeat split; intros; try done; lra.
Qed.

Lemma Game_updateElixir_ok (deltaTime : R) (g : Game) :
  economy_ok g -> economy_ok (Game_updateElixir deltaTime g).
Proof.
  unfold economy_ok, Game_updateElixir. intros (Hmax & Hrate & Hb).
  case_match; simpl; repeat split; try done; lia.
Qed.

Lemma getUnitData_cost (type : string) (unitData : UnitData) :
  getUnitData type = Some unitData -> cost unitData = 3 \/ cost unitData = 5.
Proof.
  intros H. apply entryOrKnight_Some in H.
  destruct H as [-> | [-> | [-> | ->]]]; simpl; auto.
Qed.

(** The two tables have the same keys: a type has an entry in one of
    them exactly when it has one in the other. *)
Lemma getUnitData_getUnitStats_None (type : string) :
  getUnitData type = None <-> getUnitStats type = None.
Proof.
  unfold getUnitData, getUnitStats. by rewrite !entryOrKnight_None.
Qed.

(** A spawn for a type that has an entry in the table of the costs
    builds a unit. *)
Lemma Game_spawnUnit_priced (type : string) (position : Vector2D)
    (team : Team) (g : Game) (unitData : UnitData) :
  getUnitData type = Some unitData ->
  exists unit : Unit,
    Unit_new position type team = Some unit
    /\ Game_spawnUnit type position team g
       = Some (Game_with_units g (g_units g ++ [unit])).
Proof.
  intros Hdata. unfold Game_spawnUnit, Unit_new.
  destruct (getUnitStats type) as [stats|] eqn:Hstats.
  - by eexists.
  - apply getUnitData_getUnitStats_None in Hstats. congruence.
Qed.

Lemma Game_spawnUnit_economy (type : string) (position : Vector2D)
    (team : Team) (g g' : Game) :
  Game_spawnUnit type position team g = Some g' -> same_economy g g'.
Proof. by intros (unit & _ & ->)%Game_spawnUnit_Some. Qed.

Lemma Game_tryPlaceUnit_ok (g : Game) :
  economy_ok g -> economy_ok (Game_tryPlaceUnit g).
Proof.
  unfold economy_ok, Game_tryPlaceUnit. intros (Hmax & Hrate & Hb).
  repeat case_match; spawn_cases; simpl; repeat split; try done; try lia.
  all: match goal with
       | H : (cost ?d <=? _) = true, Hd : getUnitData _ = Some ?d |- _ =>
           apply Z.leb_le in H; destruct (getUnitData_cost _ _ Hd); lia
       end.
Qed.

Lemma Game_step_ok (s : Step) (g : Game) :
  economy_ok g -> economy_ok (Game_step s g).
Proof.
  intros Hg.
  destruct s as [dt ut tt|card|point|point|point| | |type position]; simpl;
    try done.
  - pose proof (Game_update_economy dt ut tt g) as E.
    pose proof (Game_updateElixir_ok dt g Hg) as Hok.
    unfold economy in E. unfold economy_ok in *.
    injection E as E1 E2 E3 E4 E5. rewrite E1, E2, E3. exact Hok.
  - unfold Game_handleMouseUp. case_match; [|done].
    by apply Game_tryPlaceUnit_ok.
  - unfold Game_handleTouchEnd. case_match; [|done].
    by apply Game_tryPlaceUnit_ok.
  - case_match eqn:Hspawn; [|done].
    apply Game_spawnUnit_economy in Hspawn.
    unfold same_economy, economy in Hspawn. unfold economy_ok in *.
    injection Hspawn as -> -> -> _ _. exact Hg.
Qed.

Lemma Game_run_ok (steps : list Step) (g : Game) :
  economy_ok g -> economy_ok (Game_run steps g).
Proof.
  unfold Game_run. revert g.
  induction steps as [|s steps IH]; intros g Hg; simpl; [done|].
  apply IH. by apply Game_step_ok.
Qed.

Lemma Game_step_playerZone (s : Step) (g : Game) :
  g_playerZone (Game_step s g) = g_playerZone g.
Proof.
  destruct s as [dt ut tt|card|point|point|point| | |type position]; simpl;
    try done.
  - pose proof (Game_update_economy dt ut tt g) as E.
    unfold economy in E. injection E as _ _ _ _ ->.
    unfold Game_updateElixir. by case_match.
  - unfold Game_handleMouseUp, Game_tryPlaceUnit.
    repeat case_match; spawn_cases; done.
  - unfold Game_handleTouchEnd, Game_tryPlaceUnit.
    repeat case_match; spawn_cases; done.
  - case_match; spawn_cases; done.
Qed.

Lemma Game_run_playerZone (steps : list Step) (g : Game) :
  g_playerZone (Game_run steps g) = g_playerZone g.
Proof.
  unfold Game_run. revert g.
  induction steps as [|s steps IH]; intros g; simpl; [done|].
  by rewrite IH, Game_step_playerZone.
Qed.

Lemma Game_new_ok (canvas0 : Canvas) (containerWidth : R) :
  economy_ok (Game_new canvas0 containerWidth).
Proof. unfold economy_ok; simpl. lia. Qed.
End Economy.

(** ** Placement (Game.tryPlaceUnit) *)

Lemma pointInRect_inRect (point : Vector2D) (rect : Rect) :
  Utils.pointInRect point rect = true <-> inRect point rect.
Proof.
  unfold Utils.pointInRect, inRect.
  rewrite !andb_true_iff, !Rleb_true_iff. tauto.
Qed.

Lemma app_singleton_neq {A : Type} (l : list A) (a : A) : l ++ [a] <> l.
Proof.
  intros E. apply (f_equal length) in E. rewrite length_app in E.
  simpl in E. lia.
Qed.

(** ** Projectiles against units (Game.checkCollisions, second loop) *)

Lemma projectileHits_alive_irrelevant (projectile : Projectile) (a : bool)
    (unit : Unit) :
  projectileHits (Projectile_with_alive projectile a) unit
  = projectileHits projectile unit.
Proof. reflexivity. Qed.

Lemma Projectile_with_alive_twice (projectile : Projectile) (a b : bool) :
  Projectile_with_alive (Projectile_with_alive projectile a) b
  = Projectile_with_alive projectile b.
Proof. reflexivity. Qed.

Lemma Projectile_with_alive_same (projectile : Projectile) :
  Projectile_with_alive projectile (p_alive projectile) = projectile.
Proof. by destruct projectile. Qed.

Lemma Game_strikeUnits_spec (projectile : Projectile) (units : list Unit) :
  Game_strikeUnits projectile units
  = (Projectile_with_alive projectile
       (p_alive projectile && negb (existsb (projectileHits projectile) units)),
     map (struckBy projectile) units).
Proof.
  revert projectile.
  induction units as [|unit rest IH]; intros projectile; simpl.
  - by rewrite andb_true_r, Projectile_with_alive_same.
  - unfold struckBy at 1.
    destruct (projectileHits projectile unit) eqn:Ehit; simpl.
    + rewrite IH. simpl. rewrite andb_false_r. f_equal.
    + rewrite IH. done.
Qed.

Lemma projectileHits_inReach (projectile : Projectile) (unit : Unit) :
  projectileHits projectile unit = true <-> inReach projectile unit.
Proof.
  unfold projectileHits, inReach.
  rewrite !andb_true_iff, negb_true_iff, Rltb_true_iff.
  rewrite <- not_true_iff_false, Team_eqb_eq. tauto.
Qed.

(** ** The attack of a unit and of a tower (Unit.attack, Tower.attack) *)

Lemma isRanged_iff (type : string) :
  isRanged type = true <-> type = "archer"%string \/ type = "wizard"%string.
Proof.
  unfold isRanged. rewrite orb_true_iff, !String.eqb_eq. tauto.
Qed.

Lemma deref_target_takeDamage (g : Game) (r : TargetRef) (target : Combatant)
    (amount : Z) :
  deref g r = Some target ->
  deref (target_takeDamage g r amount) r
  = Some (Combatant_takeDamage target amount).
Proof.
  destruct r as [j|k]; simpl.
  - destruct (g_units g !! j) as [u|] eqn:E; simpl; [|done].
    intros [= <-]. rewrite list_lookup_insert_eq; [done|].
    by eapply lookup_lt_Some.
  - destruct (g_towers g !! k) as [t|] eqn:E; simpl; [|done].
    intros [= <-]. rewrite list_lookup_insert_eq; [done|].
    by eapply lookup_lt_Some.
Qed.

Lemma target_takeDamage_projectiles (g : Game) (r : TargetRef) (amount : Z) :
  g_projectiles (target_takeDamage g r amount) = g_projectiles g.
Proof. destruct r; simpl; by case_match. Qed.

(** ** The cooldown-gated attack (Unit.attemptAttack, Tower.attemptAttack) *)

Lemma target_takeDamage_length (g : Game) (r : TargetRef) (amount : Z) :
  length (g_units (target_takeDamage g r amount)) = length (g_units g)
  /\ length (g_towers (target_takeDamage g r amount)) = length (g_towers g).
Proof.
  destruct r; simpl; case_match; simpl; by rewrite ?length_insert.
Qed.

Lemma Unit_attack_with_game (i : nat) (r : TargetRef) (g : Game) :
  exists g1 : Game,
    Unit_attack i r true g = Normal g1
    /\ length (g_units g1) = length (g_units g)
    /\ length (g_towers g1) = length (g_towers g).
Proof.
  unfold Unit_attack, Unit_createProjectile.
  repeat case_match; eexists; (split; [reflexivity|]); try done;
    apply target_takeDamage_length.
Qed.

Lemma Unit_setLastAttack_lastAttack (i : nat) (time : Z) (g : Game) :
  i < length (g_units g) ->
  u_lastAttack <$> g_units (Unit_setLastAttack i time g) !! i = Some time.
Proof.
  intros Hi. unfold Unit_setLastAttack.
  destruct (lookup_lt_is_Some_2 _ _ Hi) as [this Hthis].
  rewrite Hthis. simpl. by rewrite list_lookup_insert_eq.
Qed.

Lemma Tower_setLastAttack_lastAttack (k : nat) (time : Z) (g : Game) :
  k < length (g_towers g) ->
  t_lastAttack <$> g_towers (Tower_setLastAttack k time g) !! k = Some time.
Proof.
  intros Hk. unfold Tower_setLastAttack.
  destruct (lookup_lt_is_Some_2 _ _ Hk) as [this Hthis].
  rewrite Hthis. simpl. by rewrite list_lookup_insert_eq.
Qed.

Lemma Tower_attack_towers (k j : nat) (g : Game) :
  g_towers (Tower_attack k j g) = g_towers g.
Proof. unfold Tower_attack. by repeat case_match. Qed.

(** ** The flight of a projectile (the [update] closures) *)

Section Flight.
Local Open Scope R_scope.

Lemma sum_squares_pos (a b : R) : a <> 0 \/ b <> 0 -> 0 < a * a + b * b.
Proof.
  intros H.
  pose proof (Rle_0_sqr a) as Ha. pose proof (Rle_0_sqr b) as Hb.
  unfold Rsqr in *.
  destruct H as [H|H].
  - pose proof (Rsqr_pos_lt a H) as H'. unfold Rsqr in H'. lra.
  - pose proof (Rsqr_pos_lt b H) as H'. unfold Rsqr in H'. lra.
Qed.

Lemma magnitude_pos (v : Vector2D) :
  x v <> 0 \/ y v <> 0 -> 0 < Vec.magnitude v.
Proof. intros H. apply sqrt_lt_R0. by apply sum_squares_pos. Qed.

Lemma magnitude_square (v : Vector2D) :
  Vec.magnitude v * Vec.magnitude v = x v * x v + y v * y v.
Proof.
  apply sqrt_sqrt.
  pose proof (Rle_0_sqr (x v)). pose proof (Rle_0_sqr (y v)).
  unfold Rsqr in *. lra.
Qed.

Lemma normalize_nonzero (v : Vector2D) :
  x v <> 0 \/ y v <> 0 ->
  Vec.normalize v
  = mkVector2D (x v / Vec.magnitude v) (y v / Vec.magnitude v).
Proof.
  intros H. unfold Vec.normalize.
  by rewrite (proj2 (Rltb_true_iff _ _) (magnitude_pos v H)).
Qed.

Lemma normalize_unit (v : Vector2D) :
  x v <> 0 \/ y v <> 0 -> Vec.magnitude (Vec.normalize v) = 1.
Proof.
  intros H. rewrite normalize_nonzero by done.
  pose proof (magnitude_pos v H) as Hm.
  pose proof (magnitude_square v) as Hs.
  unfold Vec.magnitude at 1. simpl.
  replace (x v / Vec.magnitude v * (x v / Vec.magnitude v)
           + y v / Vec.magnitude v * (y v / Vec.magnitude v))
    with ((x v * x v + y v * y v) / (Vec.magnitude v * Vec.magnitude v))
    by (field; lra).
  rewrite <- Hs. replace (_ / _) with 1 by (field; lra).
  apply sqrt_1.
Qed.

Lemma Vector2D_eta (v : Vector2D) : v = mkVector2D (x v) (y v).
Proof. by destruct v. Qed.


Lemma Vector2D_neq (a b : Vector2D) :
  a <> b -> x b - x a <> 0 \/ y b - y a <> 0.
Proof.
  intros Hne. destruct a as [xa ya], b as [xb yb]. simpl.
  destruct (Req_dec xb xa) as [->|]; [|left; lra].
  destruct (Req_dec yb ya) as [->|]; [|right; lra].
  done.
Qed.

Lemma magnitude_difference (a b : Vector2D) :
  Vec.magnitude (mkVector2D (x b - x a) (y b - y a)) = Vec.distanceTo a b.
Proof.
  unfold Vec.magnitude, Vec.distanceTo. simpl. f_equal. ring.
Qed.

Lemma directionTo_apart (a b : Vector2D) :
  a <> b ->
  0 < Vec.distanceTo a b
  /\ Vec.directionTo a b
     = mkVector2D ((x b - x a) / Vec.distanceTo a b)
         ((y b - y a) / Vec.distanceTo a b)
  /\ Vec.magnitude (Vec.directionTo a b) = 1.
Proof.
  intros Hne. apply Vector2D_neq in Hne.
  unfold Vec.directionTo. rewrite <- magnitude_difference.
  split; [by apply magnitude_pos|].
  split; [by rewrite normalize_nonzero|by apply normalize_unit].
Qed.

Lemma directionTo_same (a : Vector2D) :
  Vec.directionTo a a = mkVector2D 0 0.
Proof.
  unfold Vec.directionTo, Vec.normalize, Vec.magnitude. simpl.
  replace ((x a - x a) * (x a - x a) + (y a - y a) * (y a - y a)) with 0
    by ring.
  rewrite sqrt_0. rewrite (proj2 (Rltb_false_iff 0 0)) by lra.
  f_equal; ring.
Qed.

End Flight.

Lemma Projectile_update_alive (this : Projectile) (deltaTime : R) :
  let position := p_position (Projectile_update this deltaTime) in
  p_alive (Projectile_update this deltaTime)
  = p_alive this
    && negb (Rltb (Vec.distanceTo position (p_target this))
               (impactRadius (p_update this)))
    && negb (Rltb (x position) 0 || Rltb 800 (x position)
             || Rltb (y position) 0 || Rltb 600 (y position)).
Proof.
  unfold Projectile_update. simpl.
  repeat case_match; simpl; try done;
    by rewrite ?andb_true_r, ?andb_false_r.
Qed.

(** ** Arrival of a projectile *)

Section Arrival.
Local Open Scope R_scope.

Lemma Projectile_update_constants (this : Projectile) (deltaTime : R) :
  p_target (Projectile_update this deltaTime) = p_target this
  /\ p_speed (Projectile_update this deltaTime) = p_speed this
  /\ p_update (Projectile_update this deltaTime) = p_update this.
Proof. done. Qed.

Lemma Projectile_flight_dead (deltaTime : R) (n : nat) (p : Projectile) :
  p_alive p = false -> p_alive (Projectile_flight deltaTime n p) = false.
Proof.
  revert p. induction n as [|n IH]; intros p Hdead; simpl; [done|].
  apply IH. by rewrite Projectile_update_alive, Hdead.
Qed.




End Arrival.

(** ** Target acquisition (Unit.findTarget, Tower.findTarget) *)

Section Acquisition.
Local Open Scope R_scope.

Lemma Unit_scanUnits_shape (this : Unit) (units : list Unit) (k : nat)
    (closestTarget : option nat) (closestDistance : option R) :
  Unit_scanUnits this units k closestTarget closestDistance
  = scanClosest
      (fun unit => negb (Team_eqb (u_team unit) (u_team this)) && u_alive unit)
      (u_position this) units k closestTarget closestDistance.
Proof.
  revert k closestTarget closestDistance.
  induction units as [|unit rest IH]; intros k ct cd; simpl; [done|].
  destruct (negb (Team_eqb (u_team unit) (u_team this)) && u_alive unit);
    simpl; [|apply IH].
  destruct (closer _ cd); apply IH.
Qed.

Lemma Tower_scanUnits_shape (this : Tower) (units : list Unit) (k : nat)
    (closestTarget : option nat) (closestDistance : option R) :
  Tower_scanUnits this units k closestTarget closestDistance
  = scanClosest
      (fun unit =>
         negb (Team_eqb (u_team unit) (t_team this)) && u_alive unit
         && Rleb (Vec.distanceTo (t_position this) (u_position unit))
              (t_attackRange this))
      (t_position this) units k closestTarget closestDistance.
Proof.
  revert k closestTarget closestDistance.
  induction units as [|unit rest IH]; intros k ct cd; simpl; [done|].
  destruct (negb (Team_eqb (u_team unit) (t_team this)) && u_alive unit);
    simpl; [|apply IH].
  destruct (Rleb _ _); simpl; [|apply IH].
  destruct (closer _ cd); apply IH.
Qed.

(** The scan from a consistent state of its two variables: the distance
    kept is a lower bound of the distance before and of the distances of
    all candidates scanned, and the target kept is the one before or a
    candidate at the distance kept. *)
Lemma scanClosest_spec (candidate : Unit -> bool) (origin : Vector2D)
    (units : list Unit) :
  forall (k : nat) (ct : option nat) (cd : option R),
    (ct = None <-> cd = None) ->
    let res := scanClosest candidate origin units k ct cd in
    (fst res = None <-> snd res = None)
    /\ (fst res = None ->
        ct = None
        /\ forall (m : nat) (u : Unit),
             units !! m = Some u -> candidate u = false)
    /\ (forall d : R, snd res = Some d ->
        (forall c : R, cd = Some c -> d <= c)
        /\ forall (m : nat) (u : Unit),
             units !! m = Some u -> candidate u = true ->
             d <= Vec.distanceTo origin (u_position u))
    /\ (forall j : nat, fst res = Some j ->
        (ct = Some j /\ snd res = cd)
        \/ exists u : Unit,
             (k <= j)%nat /\ units !! (j - k)%nat = Some u
             /\ candidate u = true
             /\ snd res = Some (Vec.distanceTo origin (u_position u))).
Proof.
  induction units as [|unit rest IH]; intros k ct cd Hcons; simpl.
  - split; [done|]. split; [|split].
    + intros ->. split; [done|]. intros m u Hm. done.
    + intros d ->. split; [intros c [= ->]; lra|]. intros m u Hm. done.
    + intros j ->. by left.
  - set (distance := Vec.distanceTo origin (u_position unit)).
    destruct (candidate unit) eqn:Ecand; simpl.
    + destruct (closer distance cd) eqn:Ecloser.
      * specialize (IH (S k) (Some k) (Some distance)).
        destruct IH as (IH1 & IH2 & IH3 & IH4); [done|].
        split; [done|]. split; [|split].
        -- intros Hnone. by destruct (IH2 Hnone) as [? _].
        -- intros d Hd. destruct (IH3 d Hd) as [Hle Hall].
           specialize (Hle distance eq_refl).
           split.
           ++ intros c ->. simpl in Ecloser.
              apply Rltb_true_iff in Ecloser. lra.
           ++ intros [|m] u Hm Hu; simpl in Hm.
              ** injection Hm as <-. done.
              ** by apply (Hall m).
        -- intros j Hj. right. destruct (IH4 j Hj) as [[[= <-] Hsnd]|Hex].
           ++ exists unit. replace (k - k)%nat with 0%nat by lia.
              split; [lia|]. by split.
           ++ destruct Hex as (u & Hkj & Hu & Hcu & Hsnd).
              exists u. split; [lia|].
              replace (j - k)%nat with (S (j - S k)) by lia.
              by split.
      * specialize (IH (S k) ct cd Hcons).
        destruct IH as (IH1 & IH2 & IH3 & IH4).
        destruct cd as [c|]; [|done]. simpl in Ecloser.
        apply Rltb_false_iff in Ecloser.
        split; [done|]. split; [|split].
        -- intros Hnone. destruct (IH2 Hnone) as [-> _].
           by destruct Hcons as [Hcons _]; specialize (Hcons eq_refl).
        -- intros d Hd. destruct (IH3 d Hd) as [Hle Hall].
           split; [done|].
           intros [|m] u Hm Hu; simpl in Hm.
           ++ injection Hm as <-. specialize (Hle c eq_refl).
              fold distance. lra.
           ++ by apply (Hall m).
        -- intros j Hj. destruct (IH4 j Hj) as [?|Hex]; [by left|right].
           destruct Hex as (u & Hkj & Hu & Hcu & Hsnd).
           exists u. split; [lia|].
           replace (j - k)%nat with (S (j - S k)) by lia.
           by split.
    + specialize (IH (S k) ct cd Hcons).
      destruct IH as (IH1 & IH2 & IH3 & IH4).
      split; [done|]. split; [|split].
      * intros Hnone. destruct (IH2 Hnone) as [-> Hall].
        split; [done|]. intros [|m] u Hm; simpl in Hm.
        -- by injection Hm as <-.
        -- by apply (Hall m).
      * intros d Hd. destruct (IH3 d Hd) as [Hle Hall].
        split; [done|].
        intros [|m] u Hm Hu; simpl in Hm.
        -- injection Hm as <-. congruence.
        -- by apply (Hall m).
      * intros j Hj. destruct (IH4 j Hj) as [?|Hex]; [by left|right].
        destruct Hex as (u & Hkj & Hu & Hcu & Hsnd).
        exists u. split; [lia|].
        replace (j - k)%nat with (S (j - S k)) by lia.
        by split.
Qed.

(** The scan from the initial state of its variables. *)
Lemma scanClosest_initial (candidate : Unit -> bool) (origin : Vector2D)
    (units : list Unit) :
  let chosen := fst (scanClosest candidate origin units 0 None None) in
  (chosen = None ->
   forall (m : nat) (u : Unit), units !! m = Some u -> candidate u = false)
  /\ (forall j : nat, chosen = Some j ->
      exists u : Unit,
        units !! j = Some u /\ candidate u = true
        /\ forall (m : nat) (u' : Unit),
             units !! m = Some u' -> candidate u' = true ->
             Vec.distanceTo origin (u_position u)
             <= Vec.distanceTo origin (u_position u')).
Proof.
  intros chosen. subst chosen.
  destruct (scanClosest_spec candidate origin units 0 None None)
    as (_ & Hnone & Hmin & Hsome); [done|].
  split.
  - intros H. by destruct (Hnone H).
  - intros j Hj. destruct (Hsome j Hj) as [[? _]|Hex]; [done|].
    destruct Hex as (u & _ & Hu & Hcu & Hsnd).
    rewrite Nat.sub_0_r in Hu.
    exists u. split; [done|]. split; [done|].
    by destruct (Hmin _ Hsnd) as [_ Hall].
Qed.
End Acquisition.

Lemma Game_strikeAll_units (projectiles : list Projectile)
    (units : list Unit) :
  snd (Game_strikeAll projectiles units)
  = foldl (fun us p => snd (Game_strikeUnits p us)) units projectiles.
Proof.
  revert units.
  induction projectiles as [|p rest IH]; intros units; simpl; [done|].
  destruct (Game_strikeUnits p units) as [p' units']. simpl.
  rewrite <- IH. by destruct (Game_strikeAll rest units').
Qed.

Lemma Game_strikeProjectiles_units (g : Game) :
  g_units (Game_strikeProjectiles g)
  = foldl (fun us p => snd (Game_strikeUnits p us))
      (g_units g) (g_projectiles g).
Proof.
  unfold Game_strikeProjectiles. rewrite <- Game_strikeAll_units.
  by destruct (Game_strikeAll (g_projectiles g) (g_units g)).
Qed.

(** ** Frames on the towers *)

Lemma Unit_findTarget_towers (i : nat) (g : Game) :
  g_towers (Unit_findTarget i g) = g_towers g.
Proof. unfold Unit_findTarget. frame_cases. Qed.

Lemma Unit_move_towers (deltaTime : R) (i : nat) (g : Game) :
  g_towers (Unit_move deltaTime i g) = g_towers g.
Proof. unfold Unit_move. frame_cases. Qed.

Lemma Unit_setLastAttack_towers (i : nat) (time : Z) (g : Game) :
  g_towers (Unit_setLastAttack i time g) = g_towers g.
Proof. unfold Unit_setLastAttack. frame_cases. Qed.

Lemma Unit_addAnimationTime_towers (i : nat) (deltaTime : R) (g : Game) :
  g_towers (Unit_addAnimationTime i deltaTime g) = g_towers g.
Proof. unfold Unit_addAnimationTime. frame_cases. Qed.

Lemma Unit_attack_on_unit_towers (i j : nat) (game : bool) (g : Game) :
  g_towers (final (Unit_attack i (UnitRef j) game g)) = g_towers g.
Proof. unfold Unit_attack, Unit_createProjectile. frame_cases. Qed.

Lemma Unit_attack_ranged_towers (i : nat) (this : Unit) (r : TargetRef)
    (game : bool) (g : Game) :
  g_units g !! i = Some this -> isRanged (u_type this) = true ->
  g_towers (final (Unit_attack i r game g)) = g_towers g.
Proof.
  intros Hthis Hranged. unfold Unit_attack, Unit_createProjectile.
  rewrite Hthis, Hranged. frame_cases.
Qed.

Section TowerFrames.
Context {A : Type} (f : Tower -> A).
Hypothesis f_target : forall t tg, f (Tower_with_target t tg) = f t.
Hypothesis f_lastAttack : forall t time, f (Tower_with_lastAttack t time) = f t.

Lemma sameTowersBy_refl (g : Game) : sameTowersBy f g g.
Proof. done. Qed.

Lemma sameTowersBy_trans (g1 g2 g3 : Game) :
  sameTowersBy f g1 g2 -> sameTowersBy f g2 g3 -> sameTowersBy f g1 g3.
Proof. unfold sameTowersBy. congruence. Qed.

Lemma sameTowersBy_eq (g g' : Game) :
  g_towers g' = g_towers g -> sameTowersBy f g g'.
Proof. unfold sameTowersBy. by intros ->. Qed.

Lemma setTower_sameTowersBy (g : Game) (k : nat) (t t' : Tower) :
  g_towers g !! k = Some t -> f t' = f t ->
  sameTowersBy f g (setTower g k t').
Proof.
  intros Ht Hf. unfold sameTowersBy. simpl.
  rewrite list_fmap_insert, Hf. apply list_insert_id.
  by rewrite list_lookup_fmap, Ht.
Qed.

Lemma Tower_update_sameTowersBy (currentTime : Z) (k : nat) (g : Game) :
  sameTowersBy f g (Tower_update currentTime k g).
Proof.
  unfold Tower_update.
  destruct (g_towers g !! k) as [this|] eqn:Hthis; [|done].
  destruct (t_alive this); simpl; [|done].
  assert (H1 : sameTowersBy f g (Tower_findTarget k g)).
  { unfold Tower_findTarget. rewrite Hthis.
    by apply setTower_sameTowersBy with this. }
  eapply sameTowersBy_trans; [exact H1|].
  generalize (Tower_findTarget k g). intros g1.
  unfold Tower_attemptAttack.
  repeat case_match; try apply sameTowersBy_refl.
  unfold Tower_setLastAttack.
  rewrite Tower_attack_towers.
  match goal with H : g_towers g1 !! k = Some ?t |- _ => rewrite H end.
  eapply sameTowersBy_trans.
  - apply sameTowersBy_eq. apply Tower_attack_towers.
  - eapply setTower_sameTowersBy.
    + by rewrite Tower_attack_towers.
    + done.
Qed.

Lemma Game_updateTowers_sameTowersBy (currentTime : nat -> Z) (g : Game) :
  sameTowersBy f g (Game_updateTowers currentTime g).
Proof.
  apply (foldl_frame (sameTowersBy f) sameTowersBy_refl sameTowersBy_trans).
  intros k g' _. apply Tower_update_sameTowersBy.
Qed.

End TowerFrames.

Lemma towers_kept_refl (g : Game) : towersKept g g.
Proof. done. Qed.

Lemma towers_kept_trans (g1 g2 g3 : Game) :
  towersKept g1 g2 -> towersKept g2 g3 -> towersKept g1 g3.
Proof. unfold towersKept. congruence. Qed.

Lemma Game_clashPair_towers (i j : nat) (g : Game) :
  towersKept g (final (Game_clashPair i j g)).
Proof.
  unfold Game_clashPair.
  destruct (g_units g !! i) as [unit1|]; [|done].
  destruct (g_units g !! j) as [unit2|]; [|done].
  destruct (negb (u_alive unit2) || Team_eqb (u_team unit1) (u_team unit2));
    [done|].
  apply (andThen_frame towersKept towers_kept_trans).
  - destruct (Rltb _ _); [|done]. apply Unit_attack_on_unit_towers.
  - intros g'. destruct (Rltb _ _); [|done].
    apply Unit_attack_on_unit_towers.
Qed.

Lemma Game_clashUnits_towers (g : Game) :
  towersKept g (final (Game_clashUnits g)).
Proof.
  apply (forIndices_frame towersKept towers_kept_refl towers_kept_trans).
  intros i g' _. unfold Game_clashRow.
  destruct (g_units g' !! i) as [unit1|]; [|done].
  destruct (negb (u_alive unit1)); [done|].
  apply (forIndices_frame towersKept towers_kept_refl towers_kept_trans).
  intros j g'' _. apply Game_clashPair_towers.
Qed.

Lemma Game_strikeProjectiles_towers (g : Game) :
  towersKept g (Game_strikeProjectiles g).
Proof.
  unfold towersKept, Game_strikeProjectiles.
  by destruct (Game_strikeAll (g_projectiles g) (g_units g)).
Qed.

Lemma Game_checkCollisions_towers (g : Game) :
  towersKept g (final (Game_checkCollisions g)).
Proof.
  apply (andThen_frame towersKept towers_kept_trans).
  - apply Game_clashUnits_towers.
  - intros g'. apply Game_strikeProjectiles_towers.
Qed.

Lemma Game_checkWinConditions_towers (g : Game) :
  towersKept g (final (Game_checkWinConditions g)).
Proof. unfold towersKept, Game_checkWinConditions. frame_cases. Qed.

(** ** Frames on the units *)

Section UnitFrames.
Context {A : Type} (f : Unit -> A).
Hypothesis f_position : forall u p, f (Unit_with_position u p) = f u.
Hypothesis f_velocity : forall u v, f (Unit_with_velocity u v) = f u.
Hypothesis f_facing : forall u z, f (Unit_with_facing u z) = f u.
Hypothesis f_target : forall u t, f (Unit_with_target u t) = f u.
Hypothesis f_lastAttack : forall u t, f (Unit_with_lastAttack u t) = f u.
Hypothesis f_animationTime :
  forall u t, f (Unit_with_animationTime u t) = f u.
Hypothesis f_health : forall u h a, f (Unit_with_health u h a) = f u.

Lemma sameUnitsBy_refl (g : Game) : sameUnitsBy f g g.
Proof. done. Qed.

Lemma sameUnitsBy_trans (g1 g2 g3 : Game) :
  sameUnitsBy f g1 g2 -> sameUnitsBy f g2 g3 -> sameUnitsBy f g1 g3.
Proof. unfold sameUnitsBy. congruence. Qed.

Lemma setUnit_sameUnitsBy (g : Game) (i : nat) (u u' : Unit) :
  g_units g !! i = Some u -> f u' = f u ->
  sameUnitsBy f g (setUnit g i u').
Proof.
  intros Hu Hf. unfold sameUnitsBy. simpl.
  rewrite list_fmap_insert, Hf. apply list_insert_id.
  by rewrite list_lookup_fmap, Hu.
Qed.

Lemma sameUnitsBy_lookup (g g' : Game) (i : nat) (u : Unit) :
  sameUnitsBy f g g' -> g_units g !! i = Some u ->
  exists u' : Unit, g_units g' !! i = Some u' /\ f u' = f u.
Proof.
  intros Hsame Hu.
  assert (H : (f <$> g_units g') !! i = Some (f u)).
  { rewrite Hsame, list_lookup_fmap, Hu. done. }
  rewrite list_lookup_fmap in H.
  destruct (g_units g' !! i) as [u'|]; [|done].
  exists u'. split; [done|]. by injection H.
Qed.

Lemma Unit_takeDamage_attribute (u : Unit) (amount : Z) :
  f (Unit_takeDamage u amount) = f u.
Proof. unfold Unit_takeDamage. by case_match. Qed.

Lemma target_takeDamage_sameUnitsBy (g : Game) (r : TargetRef) (amount : Z) :
  sameUnitsBy f g (target_takeDamage g r amount).
Proof.
  destruct r as [j|k]; simpl.
  - destruct (g_units g !! j) as [u|] eqn:Hu; [|done].
    apply setUnit_sameUnitsBy with u; [done|].
    apply Unit_takeDamage_attribute.
  - by destruct (g_towers g !! k).
Qed.

Lemma Unit_attack_sameUnitsBy (i : nat) (r : TargetRef) (game : bool)
    (g : Game) :
  sameUnitsBy f g (final (Unit_attack i r game g)).
Proof.
  unfold Unit_attack, Unit_createProjectile.
  repeat case_match; try done.
  apply target_takeDamage_sameUnitsBy.
Qed.

Lemma Unit_findTarget_sameUnitsBy (i : nat) (g : Game) :
  sameUnitsBy f g (Unit_findTarget i g).
Proof.
  unfold Unit_findTarget.
  destruct (g_units g !! i) as [this|] eqn:Hthis; [|done].
  by apply setUnit_sameUnitsBy with this.
Qed.

Lemma Unit_move_sameUnitsBy (deltaTime : R) (i : nat) (g : Game) :
  sameUnitsBy f g (Unit_move deltaTime i g).
Proof.
  unfold Unit_move.
  destruct (g_units g !! i) as [this|] eqn:Hthis; [|done].
  repeat case_match; try done;
    apply setUnit_sameUnitsBy with this; try done.
  all: by rewrite f_facing, f_position, f_velocity.
Qed.

Lemma Unit_setLastAttack_sameUnitsBy (i : nat) (time : Z) (g : Game) :
  sameUnitsBy f g (Unit_setLastAttack i time g).
Proof.
  unfold Unit_setLastAttack.
  destruct (g_units g !! i) as [this|] eqn:Hthis; [|done].
  by apply setUnit_sameUnitsBy with this.
Qed.

Lemma Unit_addAnimationTime_sameUnitsBy (i : nat) (deltaTime : R) (g : Game) :
  sameUnitsBy f g (Unit_addAnimationTime i deltaTime g).
Proof.
  unfold Unit_addAnimationTime.
  destruct (g_units g !! i) as [this|] eqn:Hthis; [|done].
  by apply setUnit_sameUnitsBy with this.
Qed.

Lemma Unit_attemptAttack_sameUnitsBy (currentTime : Z) (i : nat) (g : Game) :
  sameUnitsBy f g (final (Unit_attemptAttack currentTime i g)).
Proof.
  unfold Unit_attemptAttack.
  repeat case_match; try done.
  apply (andThen_frame (sameUnitsBy f) sameUnitsBy_trans).
  - apply Unit_attack_sameUnitsBy.
  - intros g'. apply Unit_setLastAttack_sameUnitsBy.
Qed.

Lemma Unit_update_sameUnitsBy (deltaTime : R) (currentTime : Z) (i : nat)
    (g : Game) :
  sameUnitsBy f g (final (Unit_update deltaTime currentTime i g)).
Proof.
  unfold Unit_update.
  repeat case_match; try done.
  apply (andThen_frame (sameUnitsBy f) sameUnitsBy_trans).
  - eapply sameUnitsBy_trans; [apply Unit_findTarget_sameUnitsBy|].
    eapply sameUnitsBy_trans; [apply Unit_move_sameUnitsBy|].
    apply Unit_attemptAttack_sameUnitsBy.
  - intros g'. apply Unit_addAnimationTime_sameUnitsBy.
Qed.

Lemma Game_clashPair_sameUnitsBy (i j : nat) (g : Game) :
  sameUnitsBy f g (final (Game_clashPair i j g)).
Proof.
  unfold Game_clashPair.
  destruct (g_units g !! i) as [unit1|]; [|done].
  destruct (g_units g !! j) as [unit2|]; [|done].
  destruct (negb (u_alive unit2) || Team_eqb (u_team unit1) (u_team unit2));
    [done|].
  apply (andThen_frame (sameUnitsBy f) sameUnitsBy_trans).
  - destruct (Rltb _ _); [|done]. apply Unit_attack_sameUnitsBy.
  - intros g'. destruct (Rltb _ _); [|done].
    apply Unit_attack_sameUnitsBy.
Qed.
End UnitFrames.

(** What the update of the units leaves of a tower attribute that
    [takeDamage] does not touch. *)
Section TowerAttributeFrames.
Context {A : Type} (f : Tower -> A).
Hypothesis f_target : forall t tg, f (Tower_with_target t tg) = f t.
Hypothesis f_lastAttack : forall t time, f (Tower_with_lastAttack t time) = f t.
Hypothesis f_health : forall t h a, f (Tower_with_health t h a) = f t.

Lemma Tower_takeDamage_attribute (t : Tower) (amount : Z) :
  f (Tower_takeDamage t amount) = f t.
Proof. unfold Tower_takeDamage. by case_match. Qed.

Lemma target_takeDamage_sameTowersBy (g : Game) (r : TargetRef) (amount : Z) :
  sameTowersBy f g (target_takeDamage g r amount).
Proof.
  destruct r as [j|k]; simpl.
  - by destruct (g_units g !! j).
  - destruct (g_towers g !! k) as [t|] eqn:Ht; [|done].
    apply setTower_sameTowersBy with t; [done|].
    apply Tower_takeDamage_attribute.
Qed.

Lemma Unit_attack_sameTowersBy (i : nat) (r : TargetRef) (game : bool)
    (g : Game) :
  sameTowersBy f g (final (Unit_attack i r game g)).
Proof.
  unfold Unit_attack, Unit_createProjectile.
  repeat case_match; try done.
  apply target_takeDamage_sameTowersBy.
Qed.

Lemma Unit_update_sameTowersBy (deltaTime : R) (currentTime : Z) (i : nat)
    (g : Game) :
  sameTowersBy f g (final (Unit_update deltaTime currentTime i g)).
Proof.
  unfold Unit_update.
  repeat case_match; try done.
  apply (andThen_frame (sameTowersBy f) (sameTowersBy_trans f)).
  - eapply sameTowersBy_trans;
      [apply sameTowersBy_eq, Unit_findTarget_towers|].
    eapply sameTowersBy_trans; [apply sameTowersBy_eq, Unit_move_towers|].
    unfold Unit_attemptAttack.
    repeat case_match; try done.
    apply (andThen_frame (sameTowersBy f) (sameTowersBy_trans f)).
    + apply Unit_attack_sameTowersBy.
    + intros g'. apply sameTowersBy_eq, Unit_setLastAttack_towers.
  - intros g'. apply sameTowersBy_eq, Unit_addAnimationTime_towers.
Qed.

(** A whole tick. *)
Lemma Game_update_sameTowersBy (deltaTime : R) (unitTime towerTime : nat -> Z)
    (g : Game) :
  sameTowersBy f g (final (Game_update deltaTime unitTime towerTime g)).
Proof.
  unfold Game_update.
  apply (andThen_frame (sameTowersBy f) (sameTowersBy_trans f)).
  - apply (sameTowersBy_trans f) with (Game_updateElixir deltaTime g).
    { unfold Game_updateElixir. by case_match. }
    apply (forIndices_frame (sameTowersBy f) (sameTowersBy_refl f)
             (sameTowersBy_trans f)).
    intros i g' _. apply Unit_update_sameTowersBy.
  - intros g0.
    apply (andThen_frame (sameTowersBy f) (sameTowersBy_trans f)).
    + eapply sameTowersBy_trans;
        [|apply sameTowersBy_eq, Game_checkCollisions_towers].
      apply (sameTowersBy_trans f) with (Game_updateProjectiles deltaTime g0);
        [done|].
      by apply Game_updateTowers_sameTowersBy.
    + intros g1.
      eapply sameTowersBy_trans;
        [|apply sameTowersBy_eq, Game_checkWinConditions_towers].
      done.
Qed.

Lemma Game_step_sameTowersBy (s : Step) (g : Game) :
  sameTowersBy f g (Game_step s g).
Proof.
  destruct s; simpl; try done.
  - apply Game_update_sameTowersBy.
  - unfold Game_handleMouseUp, Game_tryPlaceUnit.
    repeat case_match; spawn_cases; done.
  - unfold Game_handleTouchEnd, Game_tryPlaceUnit.
    repeat case_match; spawn_cases; done.
  - case_match; spawn_cases; done.
Qed.

Lemma Game_run_sameTowersBy (steps : list Step) (g : Game) :
  sameTowersBy f g (Game_run steps g).
Proof.
  apply (foldl_frame (sameTowersBy f) (sameTowersBy_refl f)
           (sameTowersBy_trans f)).
  intros s g' _. apply Game_step_sameTowersBy.
Qed.
End TowerAttributeFrames.

Lemma towersOnePerTeam_by_teams (g g' : Game) :
  sameTowersBy t_team g g' -> towersOnePerTeam g -> towersOnePerTeam g'.
Proof.
  unfold sameTowersBy, towersOnePerTeam. intros Hsame Hone k k' t t' Hk Hk' Ht.
  assert (H1 : (t_team <$> g_towers g) !! k = Some (t_team t)).
  { by rewrite <- Hsame, list_lookup_fmap, Hk. }
  assert (H2 : (t_team <$> g_towers g) !! k' = Some (t_team t')).
  { by rewrite <- Hsame, list_lookup_fmap, Hk'. }
  rewrite list_lookup_fmap in H1, H2.
  destruct (g_towers g !! k) as [t0|] eqn:E0; [|done].
  destruct (g_towers g !! k') as [t0'|] eqn:E0'; [|done].
  apply (Hone k k' t0 t0' E0 E0'). simpl in H1, H2. congruence.
Qed.

Lemma Game_new_towersOnePerTeam (canvas0 : Canvas) (containerWidth : R) :
  towersOnePerTeam (Game_new canvas0 containerWidth).
Proof.
  intros k k' t t'. simpl.
  destruct k as [|[|k]]; destruct k' as [|[|k']]; simpl; try done;
    intros [= <-] [= <-]; done.
Qed.

Lemma Game_run_towersOnePerTeam (canvas0 : Canvas) (containerWidth : R)
    (steps : list Step) :
  towersOnePerTeam (Game_run steps (Game_new canvas0 containerWidth)).
Proof.
  eapply towersOnePerTeam_by_teams; [|apply Game_new_towersOnePerTeam].
  by apply Game_run_sameTowersBy.
Qed.

Lemma findIndexFrom_spec {A : Type} (f : A -> bool) (l : list A) (k : nat) :
  match findIndexFrom f l k with
  | Some j =>
      exists a : A,
        k <= j /\ l !! (j - k) = Some a /\ f a = true
  | None => forall (m : nat) (a : A), l !! m = Some a -> f a = false
  end.
Proof.
  revert k. induction l as [|a rest IH]; intros k; simpl.
  - intros m a Hm. done.
  - destruct (f a) eqn:Ef.
    + exists a. rewrite Nat.sub_diag. by split.
    + specialize (IH (S k)).
      destruct (findIndexFrom f rest (S k)) as [j|].
      * destruct IH as (b & Hkj & Hb & Hfb). exists b.
        split; [lia|]. replace (j - k) with (S (j - S k)) by lia. by split.
      * intros [|m] b Hm; simpl in Hm.
        -- by injection Hm as <-.
        -- by apply (IH m).
Qed.

Lemma findIndex_spec {A : Type} (f : A -> bool) (l : list A) :
  match findIndex f l with
  | Some j => exists a : A, l !! j = Some a /\ f a = true
  | None => forall (m : nat) (a : A), l !! m = Some a -> f a = false
  end.
Proof.
  unfold findIndex. pose proof (findIndexFrom_spec f l 0) as H.
  destruct (findIndexFrom f l 0) as [j|]; [|done].
  destruct H as (a & _ & Ha & Hf). rewrite Nat.sub_0_r in Ha. by exists a.
Qed.

Lemma opposing_candidate (team : Team) (unit : Unit) :
  negb (Team_eqb (u_team unit) team) && u_alive unit = true
  <-> opposingLive team unit.
Proof.
  unfold opposingLive.
  rewrite andb_true_iff, negb_true_iff, <- not_true_iff_false, Team_eqb_eq.
  tauto.
Qed.

Lemma opposing_tower_candidate (team : Team) (tower : Tower) :
  negb (Team_eqb (t_team tower) team) && t_alive tower = true
  <-> opposingLiveTower team tower.
Proof.
  unfold opposingLiveTower.
  rewrite andb_true_iff, negb_true_iff, <- not_true_iff_false, Team_eqb_eq.
  tauto.
Qed.

(** Two towers that oppose one team are of one team. *)
Lemma opposing_towers_same_team (team : Team) (t t' : Tower) :
  t_team t <> team -> t_team t' <> team -> t_team t = t_team t'.
Proof. destruct team, (t_team t), (t_team t'); done. Qed.

(** What [Unit.findTarget] chooses. *)
Lemma Unit_chooseTarget_spec (this : Unit) (g : Game) :
  let chosen := Unit_chooseTarget this g in
  let distanceOf (p : Vector2D) := Vec.distanceTo (u_position this) p in
  (forall j : nat, chosen = Some (UnitRef j) ->
     exists u : Unit,
       g_units g !! j = Some u /\ opposingLive (u_team this) u
       /\ forall (m : nat) (u' : Unit),
            g_units g !! m = Some u' -> opposingLive (u_team this) u' ->
            (distanceOf (u_position u) <= distanceOf (u_position u'))%R)
  /\ ((exists (m : nat) (u : Unit),
         g_units g !! m = Some u /\ opposingLive (u_team this) u) ->
      exists j : nat, chosen = Some (UnitRef j))
  /\ (forall k : nat, chosen = Some (TowerRef k) ->
      (forall (m : nat) (u : Unit),
         g_units g !! m = Some u -> ~ opposingLive (u_team this) u)
      /\ exists t : Tower,
           g_towers g !! k = Some t /\ opposingLiveTower (u_team this) t
           /\ (towersOnePerTeam g ->
               forall (k' : nat) (t' : Tower),
                 g_towers g !! k' = Some t' ->
                 opposingLiveTower (u_team this) t' ->
                 (distanceOf (t_position t) <= distanceOf (t_position t'))%R))
  /\ ((forall (m : nat) (u : Unit),
         g_units g !! m = Some u -> ~ opposingLive (u_team this) u) ->
      (exists (k : nat) (t : Tower),
         g_towers g !! k = Some t /\ opposingLiveTower (u_team this) t) ->
      exists k : nat, chosen = Some (TowerRef k))
  /\ (chosen = None <->
      (forall (m : nat) (u : Unit),
         g_units g !! m = Some u -> ~ opposingLive (u_team this) u)
      /\ (forall (k : nat) (t : Tower),
            g_towers g !! k = Some t -> ~ opposingLiveTower (u_team this) t)).
Proof.
  intros chosen distanceOf. subst chosen distanceOf.
  unfold Unit_chooseTarget. rewrite Unit_scanUnits_shape.
  set (candidate := fun unit : Unit =>
         negb (Team_eqb (u_team unit) (u_team this)) && u_alive unit).
  set (towerCandidate := fun tower : Tower =>
         negb (Team_eqb (t_team tower) (u_team this)) && t_alive tower).
  destruct (scanClosest_initial candidate (u_position this) (g_units g))
    as [Hnone Hsome].
  pose proof (findIndex_spec towerCandidate (g_towers g)) as Htower.
  assert (Hcand : forall u,
            candidate u = true <-> opposingLive (u_team this) u).
  { intros u. apply opposing_candidate. }
  assert (Hcandf : forall u,
            candidate u = false <-> ~ opposingLive (u_team this) u).
  { intros u. rewrite <- Hcand. by destruct (candidate u). }
  assert (Htc : forall t, towerCandidate t = true
                          <-> opposingLiveTower (u_team this) t).
  { intros t. apply opposing_tower_candidate. }
  assert (Htcf : forall t, towerCandidate t = false
                           <-> ~ opposingLiveTower (u_team this) t).
  { intros t. rewrite <- Htc. by destruct (towerCandidate t). }
  destruct (fst (scanClosest candidate (u_position this) (g_units g) 0
                   None None)) as [j|] eqn:Escan.
  - destruct (Hsome j eq_refl) as (u & Hu & Hcu & Hmin).
    split; [|split; [|split; [|split]]].
    + intros j' [= <-]. exists u. split; [done|]. split; [by apply Hcand|].
      intros m u' Hm Hu'. apply (Hmin m); [done|]. by apply Hcand.
    + intros _. by exists j.
    + intros k [=].
    + intros Hno. exfalso. apply (Hno j u Hu). by apply Hcand.
    + split; [done|]. intros [Hno _]. exfalso.
      apply (Hno j u Hu). by apply Hcand.
  - specialize (Hnone eq_refl).
    assert (Hnounit : forall (m : nat) (u : Unit),
              g_units g !! m = Some u -> ~ opposingLive (u_team this) u).
    { intros m u Hm. apply Hcandf. by apply (Hnone m). }
    destruct (findIndex towerCandidate (g_towers g)) as [k|] eqn:Efind.
    + destruct Htower as (t & Ht & Hct). apply Htc in Hct.
      split; [|split; [|split; [|split]]].
      * intros j [=].
      * intros (m & u & Hm & Hu). by destruct (Hnounit m u Hm).
      * intros k' [= <-]. split; [done|]. exists t.
        split; [done|]. split; [done|].
        intros Hone k' t' Hk' Ht'.
        assert (k = k') as <-.
        { apply (Hone k k' t t' Ht Hk').
          destruct Hct as [Hct _], Ht' as [Ht' _].
          by apply opposing_towers_same_team with (u_team this). }
        rewrite Ht in Hk'. injection Hk' as <-. lra.
      * intros _ _. by exists k.
      * split; [done|]. intros [_ Hno]. by destruct (Hno k t Ht).
    + split; [|split; [|split; [|split]]].
      * intros j [=].
      * intros (m & u & Hm & Hu). by destruct (Hnounit m u Hm).
      * intros k [=].
      * intros _ (k & t & Hk & Ht). exfalso.
        apply Htc in Ht. by rewrite (Htower k t Hk) in Ht.
      * split; [|done]. intros _. split; [done|].
        intros k t Hk. apply Htcf. by apply (Htower k).
Qed.

(** What [Tower.findTarget] chooses. *)
Lemma Tower_chooseTarget_spec (this : Tower) (g : Game) :
  let chosen := Tower_chooseTarget this g in
  let distanceOf (u : Unit) :=
    Vec.distanceTo (t_position this) (u_position u) in
  (forall j : nat, chosen = Some j ->
     exists u : Unit,
       g_units g !! j = Some u /\ opposingLive (t_team this) u
       /\ (distanceOf u <= t_attackRange this)%R
       /\ forall (m : nat) (u' : Unit),
            g_units g !! m = Some u' -> opposingLive (t_team this) u' ->
            (distanceOf u' <= t_attackRange this)%R ->
            (distanceOf u <= distanceOf u')%R)
  /\ (chosen = None <->
      forall (m : nat) (u : Unit),
        g_units g !! m = Some u -> opposingLive (t_team this) u ->
        ~ (distanceOf u <= t_attackRange this)%R).
Proof.
  intros chosen distanceOf. subst chosen distanceOf.
  unfold Tower_chooseTarget. rewrite Tower_scanUnits_shape.
  set (candidate := fun unit : Unit =>
         negb (Team_eqb (u_team unit) (t_team this)) && u_alive unit
         && Rleb (Vec.distanceTo (t_position this) (u_position unit))
              (t_attackRange this)).
  destruct (scanClosest_initial candidate (t_position this) (g_units g))
    as [Hnone Hsome].
  assert (Hcand : forall u, candidate u = true <->
            opposingLive (t_team this) u
            /\ (Vec.distanceTo (t_position this) (u_position u)
                <= t_attackRange this)%R).
  { intros u. unfold candidate.
    rewrite andb_true_iff, Rleb_true_iff, opposing_candidate. done. }
  destruct (fst (scanClosest candidate (t_position this) (g_units g) 0
                   None None)) as [j|] eqn:Escan.
  - destruct (Hsome j eq_refl) as (u & Hu & Hcu & Hmin).
    apply Hcand in Hcu as [Hopp Hrange].
    split.
    + intros j' [= <-]. exists u. split; [done|]. split; [done|].
      split; [done|]. intros m u' Hm Hopp' Hrange'.
      apply (Hmin m); [done|]. by apply Hcand.
    + split; [done|]. intros Hno. by destruct (Hno j u Hu Hopp).
  - specialize (Hnone eq_refl). split; [done|].
    split; [|done]. intros _ m u Hm Hopp Hrange.
    assert (candidate u = true) as Hc by by apply Hcand.
    by rewrite (Hnone m u Hm) in Hc.
Qed.

Lemma Unit_findTarget_lookup (i : nat) (g : Game) (this : Unit) :
  g_units g !! i = Some this ->
  g_units (Unit_findTarget i g) !! i
  = Some (Unit_with_target this (Unit_chooseTarget this g)).
Proof.
  intros Hthis. unfold Unit_findTarget. rewrite Hthis. simpl.
  apply list_lookup_insert_eq. by eapply lookup_lt_Some.
Qed.

Lemma Tower_findTarget_lookup (k : nat) (g : Game) (this : Tower) :
  g_towers g !! k = Some this ->
  g_towers (Tower_findTarget k g) !! k
  = Some (Tower_with_target this (Tower_chooseTarget this g)).
Proof.
  intros Hthis. unfold Tower_findTarget. rewrite Hthis. simpl.
  apply list_lookup_insert_eq. by eapply lookup_lt_Some.
Qed.

(** ** Unit against unit (Game.checkCollisions, first loop) *)

Ltac run_collisions :=
  unfold Game_checkCollisions, Game_clashUnits; simpl;
  repeat (progress
            (unfold Game_clashRow, Game_clashPair, Unit_attack,
               Unit_createProjectile;
             simpl; decide_comparisons)).

Lemma Unit_takeDamage_constants (u : Unit) (amount : Z) :
  u_type (Unit_takeDamage u amount) = u_type u
  /\ u_team (Unit_takeDamage u amount) = u_team u
  /\ u_damage (Unit_takeDamage u amount) = u_damage u
  /\ u_position (Unit_takeDamage u amount) = u_position u
  /\ u_attackRange (Unit_takeDamage u amount) = u_attackRange u
  /\ u_lastAttack (Unit_takeDamage u amount) = u_lastAttack u.
Proof. unfold Unit_takeDamage. by case_match. Qed.

(** [attack(target)] without the game: a ranged unit builds its
    projectile and throws on [game.projectiles]; the others strike. *)
Lemma Unit_attack_without_game (i : nat) (r : TargetRef) (g : Game)
    (this : Unit) (target : Combatant) :
  g_units g !! i = Some this -> deref g r = Some target ->
  Unit_attack i r false g
  = if isRanged (u_type this) then TypeError g
    else Normal (target_takeDamage g r (u_damage this)).
Proof.
  intros Hthis Htarget. unfold Unit_attack, Unit_createProjectile.
  rewrite Hthis, Htarget. by destruct (isRanged (u_type this)).
Qed.

(** ** Towers and projectiles *)

Lemma Unit_attemptAttack_towers (currentTime : Z) (i : nat) (g : Game)
    (this : Unit) :
  g_units g !! i = Some this ->
  let towers' := g_towers (final (Unit_attemptAttack currentTime i g)) in
  towers' = g_towers g
  \/ (isRanged (u_type this) = false
      /\ exists (k : nat) (t : Tower),
           g_towers g !! k = Some t
           /\ towers'
              = <[k := Tower_takeDamage t (u_damage this)]> (g_towers g)).
Proof.
  intros Hthis towers'. subst towers'. unfold Unit_attemptAttack.
  rewrite Hthis.
  destruct (u_target this) as [r|]; [|by left].
  destruct (deref g r) as [target|]; [|by left].
  destruct (negb (c_alive target)); [by left|].
  destruct (_ <? _)%Z; [by left|].
  destruct (Rleb _ _); [|by left].
  unfold Unit_attack. rewrite Hthis.
  destruct (isRanged (u_type this)) eqn:Hranged.
  - left. unfold Unit_createProjectile. rewrite Hthis.
    destruct (deref g r); simpl; by rewrite Unit_setLastAttack_towers.
  - simpl. rewrite Unit_setLastAttack_towers.
    destruct r as [j|k]; simpl.
    + left. by destruct (g_units g !! j).
    + destruct (g_towers g !! k) as [t|] eqn:Ht; [|by left].
      right. split; [done|]. by exists k, t.
Qed.

Lemma Unit_update_towers (deltaTime : R) (currentTime : Z) (i : nat)
    (g : Game) (this : Unit) :
  g_units g !! i = Some this ->
  let towers' := g_towers (final (Unit_update deltaTime currentTime i g)) in
  towers' = g_towers g
  \/ (isRanged (u_type this) = false
      /\ exists (k : nat) (t : Tower),
           g_towers g !! k = Some t
           /\ towers'
              = <[k := Tower_takeDamage t (u_damage this)]> (g_towers g)).
Proof.
  intros Hthis towers'. subst towers'. unfold Unit_update. rewrite Hthis.
  destruct (negb (u_alive this)); [by left|].
  set (g2 := Unit_move deltaTime i (Unit_findTarget i g)).
  assert (Htowers : g_towers g2 = g_towers g).
  { subst g2. by rewrite Unit_move_towers, Unit_findTarget_towers. }
  assert (Hsame : sameUnitsBy (fun u => (u_type u, u_damage u)) g g2).
  { subst g2.
    eapply sameUnitsBy_trans; [by apply Unit_findTarget_sameUnitsBy|].
    by apply Unit_move_sameUnitsBy. }
  destruct (sameUnitsBy_lookup _ g g2 i this Hsame Hthis)
    as (this2 & Hthis2 & [= Htype Hdamage]).
  pose proof (Unit_attemptAttack_towers currentTime i g2 this2 Hthis2) as H.
  simpl in H. rewrite Htype, Hdamage, Htowers in H.
  destruct (Unit_attemptAttack currentTime i g2) as [g3|g3]; simpl in *.
  - by rewrite Unit_addAnimationTime_towers.
  - done.
Qed.


Lemma towerVitals_kept (g g' : Game) :
  towersKept g g' -> sameTowersBy towerVitals g g'.
Proof. unfold towersKept, sameTowersBy. by intros ->. Qed.






(** ** Well-formed games *)

Section WellFormed.
Local Open Scope Z_scope.

Lemma Combatant_takeDamage_intact (c : Combatant) (amount : Z) :
  intact c -> 0 <= amount -> intact (Combatant_takeDamage c amount).
Proof.
  unfold intact.
  rewrite Combatant_takeDamage_alive, Combatant_takeDamage_health.
  intros Hc Hamount.
  destruct (c_alive c); simpl;
    destruct (Z.leb_spec (c_health c - amount) 0); simpl; lia.
Qed.

Lemma keepsWellFormed_refl (g : Game) : keepsWellFormed g g.
Proof. by intros H. Qed.

Lemma keepsWellFormed_trans (g1 g2 g3 : Game) :
  keepsWellFormed g1 g2 -> keepsWellFormed g2 g3 -> keepsWellFormed g1 g3.
Proof. unfold keepsWellFormed. auto. Qed.

Lemma Unit_takeDamage_ok (u : Unit) (amount : Z) :
  Unit_ok u -> 0 <= amount -> Unit_ok (Unit_takeDamage u amount).
Proof.
  intros (Hintact & Hdamage & Hcool) Hamount. split.
  - by apply (Combatant_takeDamage_intact (IsUnit u)).
  - unfold Unit_takeDamage. by case_match.
Qed.

Lemma Tower_takeDamage_ok (t : Tower) (amount : Z) :
  Tower_ok t -> 0 <= amount -> Tower_ok (Tower_takeDamage t amount).
Proof.
  intros (Hintact & Hdamage & Hcool & Hrange) Hamount. split.
  - by apply (Combatant_takeDamage_intact (IsTower t)).
  - unfold Tower_takeDamage. by case_match.
Qed.

Lemma getUnitStats_damage_nonneg (type : string) (stats : UnitStats) :
  getUnitStats type = Some stats -> 0 <= st_damage stats.
Proof.
  intros H. apply entryOrKnight_Some in H.
  destruct H as [-> | [-> | [-> | ->]]]; simpl; lia.
Qed.

Lemma Unit_new_ok (position : Vector2D) (type : string) (team : Team)
    (unit : Unit) :
  Unit_new position type team = Some unit -> Unit_ok unit.
Proof.
  intros Hunit. split; [by eapply Unit_new_intact|].
  apply Unit_new_Some in Hunit as (stats & Hstats & ->).
  split; [|done]. simpl. by eapply getUnitStats_damage_nonneg.
Qed.

Lemma Tower_new_ok (position : Vector2D) (team : Team) :
  Tower_ok (Tower_new position team).
Proof. split; [apply Tower_new_intact|]. simpl. by repeat split. Qed.

Lemma setUnit_ok (g : Game) (i : nat) (u : Unit) :
  Unit_ok u -> keepsWellFormed g (setUnit g i u).
Proof.
  intros Hu (Hunits & Htowers & Hprojectiles).
  split; [|done]. simpl. by apply Forall_insert.
Qed.

Lemma setTower_ok (g : Game) (k : nat) (t : Tower) :
  Tower_ok t -> keepsWellFormed g (setTower g k t).
Proof.
  intros Ht (Hunits & Htowers & Hprojectiles).
  split; [done|]. split; [|done]. simpl. by apply Forall_insert.
Qed.

Lemma push_projectile_ok (g : Game) (p : Projectile) :
  0 <= p_damage p ->
  keepsWellFormed g (Game_with_projectiles g (g_projectiles g ++ [p])).
Proof.
  intros Hp (Hunits & Htowers & Hprojectiles).
  split; [done|]. split; [done|]. simpl.
  apply Forall_app. split; [done|]. by apply Forall_singleton.
Qed.

Lemma wellFormed_unit (g : Game) (i : nat) (u : Unit) :
  wellFormed g -> g_units g !! i = Some u -> Unit_ok u.
Proof. intros (Hunits & _) Hu. by eapply Forall_lookup_1. Qed.

Lemma wellFormed_tower (g : Game) (k : nat) (t : Tower) :
  wellFormed g -> g_towers g !! k = Some t -> Tower_ok t.
Proof. intros (_ & Htowers & _) Ht. by eapply Forall_lookup_1. Qed.

Lemma Unit_findTarget_ok (i : nat) (g : Game) :
  keepsWellFormed g (Unit_findTarget i g).
Proof.
  intros Hg. unfold Unit_findTarget.
  destruct (g_units g !! i) as [this|] eqn:Hthis; [|done].
  apply setUnit_ok; [|done]. exact (wellFormed_unit g i this Hg Hthis).
Qed.

Lemma Unit_move_ok (deltaTime : R) (i : nat) (g : Game) :
  keepsWellFormed g (Unit_move deltaTime i g).
Proof.
  intros Hg. unfold Unit_move.
  destruct (g_units g !! i) as [this|] eqn:Hthis; [|done].
  pose proof (wellFormed_unit g i this Hg Hthis) as Hok.
  repeat case_match; try done; by apply setUnit_ok.
Qed.

Lemma Unit_setLastAttack_ok (i : nat) (time : Z) (g : Game) :
  keepsWellFormed g (Unit_setLastAttack i time g).
Proof.
  intros Hg. unfold Unit_setLastAttack.
  destruct (g_units g !! i) as [this|] eqn:Hthis; [|done].
  apply setUnit_ok; [|done]. exact (wellFormed_unit g i this Hg Hthis).
Qed.

Lemma Unit_addAnimationTime_ok (i : nat) (deltaTime : R) (g : Game) :
  keepsWellFormed g (Unit_addAnimationTime i deltaTime g).
Proof.
  intros Hg. unfold Unit_addAnimationTime.
  destruct (g_units g !! i) as [this|] eqn:Hthis; [|done].
  apply setUnit_ok; [|done]. exact (wellFormed_unit g i this Hg Hthis).
Qed.

Lemma target_takeDamage_ok (g : Game) (r : TargetRef) (amount : Z) :
  0 <= amount -> keepsWellFormed g (target_takeDamage g r amount).
Proof.
  intros Hamount Hg. destruct r as [j|k]; simpl.
  - destruct (g_units g !! j) as [u|] eqn:Hu; [|done].
    apply setUnit_ok; [|done].
    apply Unit_takeDamage_ok; [|done]. exact (wellFormed_unit g j u Hg Hu).
  - destruct (g_towers g !! k) as [t|] eqn:Ht; [|done].
    apply setTower_ok; [|done].
    apply Tower_takeDamage_ok; [|done]. exact (wellFormed_tower g k t Hg Ht).
Qed.

Lemma Unit_attack_ok (i : nat) (r : TargetRef) (game : bool) (g : Game) :
  keepsWellFormed g (final (Unit_attack i r game g)).
Proof.
  intros Hg. unfold Unit_attack.
  destruct (g_units g !! i) as [this|] eqn:Hthis; [|done].
  destruct (wellFormed_unit g i this Hg Hthis) as (_ & Hdamage & _).
  destruct (isRanged (u_type this)).
  - unfold Unit_createProjectile. rewrite Hthis.
    destruct (deref g r); [|done]. destruct game; [|done].
    by apply push_projectile_ok.
  - by apply target_takeDamage_ok.
Qed.

Lemma Unit_attemptAttack_ok (currentTime : Z) (i : nat) (g : Game) :
  keepsWellFormed g (final (Unit_attemptAttack currentTime i g)).
Proof.
  unfold Unit_attemptAttack.
  repeat case_match; try apply keepsWellFormed_refl.
  apply (andThen_frame keepsWellFormed keepsWellFormed_trans).
  - apply Unit_attack_ok.
  - intros g'. apply Unit_setLastAttack_ok.
Qed.

Lemma Unit_update_ok (deltaTime : R) (currentTime : Z) (i : nat) (g : Game) :
  keepsWellFormed g (final (Unit_update deltaTime currentTime i g)).
Proof.
  unfold Unit_update.
  repeat case_match; try apply keepsWellFormed_refl.
  apply (andThen_frame keepsWellFormed keepsWellFormed_trans).
  - eapply keepsWellFormed_trans; [apply Unit_findTarget_ok|].
    eapply keepsWellFormed_trans; [apply Unit_move_ok|].
    apply Unit_attemptAttack_ok.
  - intros g'. apply Unit_addAnimationTime_ok.
Qed.

Lemma Tower_update_ok (currentTime : Z) (k : nat) (g : Game) :
  keepsWellFormed g (Tower_update currentTime k g).
Proof.
  unfold Tower_update.
  destruct (g_towers g !! k) as [this|] eqn:Hthis;
    [|apply keepsWellFormed_refl].
  destruct (negb (t_alive this)); [apply keepsWellFormed_refl|].
  apply keepsWellFormed_trans with (Tower_findTarget k g).
  { intros Hg. unfold Tower_findTarget. rewrite Hthis.
    apply setTower_ok; [|done]. exact (wellFormed_tower g k this Hg Hthis). }
  generalize (Tower_findTarget k g). clear g this Hthis. intros g Hg.
  unfold Tower_attemptAttack.
  destruct (g_towers g !! k) as [this|] eqn:Hthis; [|done].
  repeat case_match; try done.
  pose proof (wellFormed_tower g k this Hg Hthis) as Hok.
  assert (Hattack : wellFormed (Tower_attack k n g)).
  { unfold Tower_attack. rewrite Hthis.
    destruct (g_units g !! n); [|done].
    apply push_projectile_ok; [|done]. simpl. by destruct Hok as (_ & ? & _). }
  unfold Tower_setLastAttack. rewrite Tower_attack_towers, Hthis.
  by apply setTower_ok.
Qed.

Lemma Game_clashPair_ok (i j : nat) (g : Game) :
  keepsWellFormed g (final (Game_clashPair i j g)).
Proof.
  unfold Game_clashPair.
  destruct (g_units g !! i) as [unit1|]; [|apply keepsWellFormed_refl].
  destruct (g_units g !! j) as [unit2|]; [|apply keepsWellFormed_refl].
  destruct (negb (u_alive unit2) || Team_eqb (u_team unit1) (u_team unit2));
    [apply keepsWellFormed_refl|].
  apply (andThen_frame keepsWellFormed keepsWellFormed_trans).
  - destruct (Rltb _ _); [|apply keepsWellFormed_refl].
    apply Unit_attack_ok.
  - intros g'. destruct (Rltb _ _); [|apply keepsWellFormed_refl].
    apply Unit_attack_ok.
Qed.

Lemma Game_clashUnits_ok (g : Game) :
  keepsWellFormed g (final (Game_clashUnits g)).
Proof.
  apply (forIndices_frame keepsWellFormed keepsWellFormed_refl
           keepsWellFormed_trans).
  intros i g' _. unfold Game_clashRow.
  destruct (g_units g' !! i) as [unit1|]; [|apply keepsWellFormed_refl].
  destruct (negb (u_alive unit1)); [apply keepsWellFormed_refl|].
  apply (forIndices_frame keepsWellFormed keepsWellFormed_refl
           keepsWellFormed_trans).
  intros j g'' _. apply Game_clashPair_ok.
Qed.

Lemma struckBy_ok (projectile : Projectile) (unit : Unit) :
  0 <= p_damage projectile -> Unit_ok unit ->
  Unit_ok (struckBy projectile unit).
Proof.
  intros Hp Hu. unfold struckBy. case_match; [|done].
  by apply Unit_takeDamage_ok.
Qed.

Lemma Game_strikeAll_ok (projectiles : list Projectile) (units : list Unit) :
  Forall (fun p => 0 <= p_damage p) projectiles -> Forall Unit_ok units ->
  Forall (fun p => 0 <= p_damage p) (fst (Game_strikeAll projectiles units))
  /\ Forall Unit_ok (snd (Game_strikeAll projectiles units)).
Proof.
  revert units.
  induction projectiles as [|p rest IH]; intros units Hps Hus; simpl;
    [done|].
  apply Forall_cons in Hps as [Hp Hrest].
  rewrite Game_strikeUnits_spec.
  assert (Hstruck : Forall Unit_ok (struckBy p <$> units)).
  { apply Forall_fmap. eapply Forall_impl; [exact Hus|].
    intros u Hu. by apply struckBy_ok. }
  specialize (IH (map (struckBy p) units) Hrest Hstruck).
  destruct (Game_strikeAll rest (map (struckBy p) units)) as [rest' units'].
  simpl in *. destruct IH as [IH1 IH2].
  split; [|done]. apply Forall_cons. by split.
Qed.

Lemma Game_checkCollisions_ok (g : Game) :
  keepsWellFormed g (final (Game_checkCollisions g)).
Proof.
  apply (andThen_frame keepsWellFormed keepsWellFormed_trans).
  - apply Game_clashUnits_ok.
  - intros g' (Hunits & Htowers & Hprojectiles). simpl.
    unfold Game_strikeProjectiles.
    destruct (Game_strikeAll_ok _ _ Hprojectiles Hunits) as [H1 H2].
    destruct (Game_strikeAll (g_projectiles g') (g_units g')).
    by repeat split.
Qed.

Lemma Forall_filter_keeps {A : Type} (P : A -> Prop) (Q : A -> Prop)
    `{!forall a, Decision (Q a)} (l : list A) :
  Forall P l -> Forall P (filter Q l).
Proof.
  rewrite !Forall_forall. intros Hall a Ha.
  apply list_elem_of_filter in Ha as [_ Ha]. by apply Hall.
Qed.

Lemma Game_update_ok (deltaTime : R) (unitTime towerTime : nat -> Z)
    (g : Game) :
  keepsWellFormed g (final (Game_update deltaTime unitTime towerTime g)).
Proof.
  unfold Game_update.
  apply (andThen_frame keepsWellFormed keepsWellFormed_trans).
  - apply keepsWellFormed_trans with (Game_updateElixir deltaTime g).
    { unfold keepsWellFormed, wellFormed, Game_updateElixir. by case_match. }
    apply (forIndices_frame keepsWellFormed keepsWellFormed_refl
             keepsWellFormed_trans).
    intros i g' _. apply Unit_update_ok.
  - intros g0.
    apply (andThen_frame keepsWellFormed keepsWellFormed_trans).
    + eapply keepsWellFormed_trans; [|apply Game_checkCollisions_ok].
      apply keepsWellFormed_trans with (Game_updateProjectiles deltaTime g0).
      { intros (Hunits & Htowers & Hprojectiles).
        split; [done|]. split; [done|]. simpl.
        apply Forall_fmap. eapply Forall_impl; [exact Hprojectiles|].
        by intros p Hp. }
      apply (foldl_frame keepsWellFormed keepsWellFormed_refl
               keepsWellFormed_trans).
      intros k g' _. apply Tower_update_ok.
    + intros g1.
      apply keepsWellFormed_trans with (Game_cleanupEntities g1).
      { intros (Hunits & Htowers & Hprojectiles).
        split; [|split; [done|]]; simpl; by apply Forall_filter_keeps. }
      intros Hg. unfold Game_checkWinConditions.
      repeat case_match; done.
Qed.

Lemma Game_spawnUnit_ok (type : string) (position : Vector2D) (team : Team)
    (g g' : Game) :
  Game_spawnUnit type position team g = Some g' -> keepsWellFormed g g'.
Proof.
  intros (unit & Hunit & ->)%Game_spawnUnit_Some
    (Hunits & Htowers & Hprojectiles).
  split; [|done]. simpl. apply Forall_app. split; [done|].
  apply Forall_singleton. by eapply Unit_new_ok.
Qed.

Lemma Game_tryPlaceUnit_wellFormed (g : Game) :
  keepsWellFormed g (Game_tryPlaceUnit g).
Proof.
  intros Hg. unfold Game_tryPlaceUnit.
  repeat case_match; try done.
  match goal with H : Game_spawnUnit _ _ _ _ = Some _ |- _ =>
    apply Game_spawnUnit_ok in H; by apply H in Hg end.
Qed.

Lemma Game_step_wellFormed (s : Step) (g : Game) :
  keepsWellFormed g (Game_step s g).
Proof.
  destruct s as [dt ut tt|card|point|point|point| | |type position]; simpl.
  - apply Game_update_ok.
  - by intros Hg.
  - by intros Hg.
  - by intros Hg.
  - intros Hg. unfold Game_handleMouseUp. case_match; [|done].
    by apply Game_tryPlaceUnit_wellFormed.
  - intros Hg. unfold Game_handleTouchEnd. case_match; [|done].
    by apply Game_tryPlaceUnit_wellFormed.
  - by intros Hg.
  - case_match eqn:Hspawn; [|by intros Hg].
    by eapply Game_spawnUnit_ok.
Qed.

Lemma Game_new_wellFormed (canvas0 : Canvas) (containerWidth : R) :
  wellFormed (Game_new canvas0 containerWidth).
Proof.
  split; [done|]. split; [|done]. simpl.
  apply Forall_cons_2; [apply Tower_new_ok|].
  apply Forall_cons_2; [apply Tower_new_ok|]. done.
Qed.

Lemma Game_run_wellFormed (canvas0 : Canvas) (containerWidth : R)
    (steps : list Step) :
  wellFormed (Game_run steps (Game_new canvas0 containerWidth)).
Proof.
  apply (foldl_frame keepsWellFormed keepsWellFormed_refl
           keepsWellFormed_trans); [|apply Game_new_wellFormed].
  intros s g _. apply Game_step_wellFormed.
Qed.
End WellFormed.

(* ================================================================== *)
(** * The units that the constructor builds *)
(* ================================================================== *)

Section Construction.
Local Open Scope string_scope.

(** The units of the examples are those of the constructor. *)
Lemma Unit_new_examples (position : Vector2D) (team : Team) :
  Unit_new position "knight" team = Some (newKnight position team)
  /\ Unit_new position "archer" team = Some (newArcher position team)
  /\ Unit_new position "giant" team = Some (newGiant position team).
Proof. done. Qed.

(** What the constructor leaves in the fields of a unit: the arguments,
    the constants, and the entry of the type, which agrees with the
    entry of the same type in the table of the costs. *)
Lemma Unit_new_spec (position : Vector2D) (type : string) (team : Team)
    (unit : Unit) :
  Unit_new position type team = Some unit ->
  (u_position unit = position /\ u_type unit = type /\ u_team unit = team
   /\ u_alive unit = true /\ u_health unit = u_maxHealth unit
   /\ u_velocity unit = mkVector2D 0 0 /\ u_target unit = None
   /\ u_lastAttack unit = 0%Z /\ u_attackCooldown unit = 1000%Z
   /\ u_animationTime unit = 0%R
   /\ u_facing unit = if Team_eqb team player then (-1)%Z else 1%Z)
  /\ exists unitData : UnitData,
       getUnitData type = Some unitData
       /\ u_maxHealth unit = d_health unitData
       /\ u_damage unit = d_damage unitData
       /\ u_speed unit = d_speed unitData
       /\ u_attackRange unit = d_range unitData.
Proof.
  intros (stats & Hstats & ->)%Unit_new_Some.
  split; [by repeat split|].
  unfold getUnitStats, getUnitData, entryOrKnight in *.
  repeat case_match; try done; injection Hstats as <-;
    by eexists.
Qed.

(** The costs of the table. *)
Lemma getUnitData_costs (type : string) (unitData : UnitData) :
  getUnitData type = Some unitData ->
  cost unitData
  = if String.eqb type "giant" || String.eqb type "wizard" then 5%Z
    else 3%Z.
Proof.
  unfold getUnitData, entryOrKnight.
  destruct (String.eqb_spec type "knight") as [->|_]; [by intros [= <-]|].
  destruct (String.eqb_spec type "archer") as [->|_]; [by intros [= <-]|].
  destruct (String.eqb_spec type "giant") as [->|_]; [by intros [= <-]|].
  destruct (String.eqb_spec type "wizard") as [->|_]; [by intros [= <-]|].
  destruct (inheritedKey type); [done|]. by intros [= <-].
Qed.
End Construction.

(* ================================================================== *)
(** * Where a projectile dies *)
(* ================================================================== *)

Section WhereItDies.
Local Open Scope R_scope.



(** The position of a projectile after an update, away from the target
    point. *)
Lemma Projectile_update_position (this : Projectile) (deltaTime : R) :
  p_position this <> p_target this ->
  let D := Vec.distanceTo (p_position this) (p_target this) in
  let step := p_speed this * deltaTime in
  p_position (Projectile_update this deltaTime)
  = mkVector2D
      (x (p_position this)
       + (x (p_target this) - x (p_position this)) / D * step)
      (y (p_position this)
       + (y (p_target this) - y (p_position this)) / D * step).
Proof.
  intros Hne D step.
  destruct (directionTo_apart _ _ Hne) as (_ & Hdir & _).
  unfold Projectile_update. simpl. by rewrite Hdir.
Qed.



(** Why an update marks a live projectile dead. *)
Lemma Projectile_update_dies (this : Projectile) (deltaTime : R) :
  p_alive this = true ->
  let this' := Projectile_update this deltaTime in
  p_alive this' = false
  <-> Vec.distanceTo (p_position this') (p_target this)
      < impactRadius (p_update this)
      \/ offScreen (p_position this').
Proof.
  intros Halive this'. subst this'.
  rewrite Projectile_update_alive, Halive. simpl.
  rewrite andb_false_iff, !negb_false_iff, !orb_true_iff, !Rltb_true_iff.
  unfold offScreen. tauto.
Qed.






(** ** Flight along a vertical line *)

Lemma distanceTo_vertical (a b : Vector2D) :
  x a = x b -> Vec.distanceTo a b = Rabs (y a - y b).
Proof.
  intros Hx. unfold Vec.distanceTo. rewrite Hx.
  replace ((x b - x b) * (x b - x b) + (y a - y b) * (y a - y b))
    with (Rsqr (y a - y b)) by (unfold Rsqr; ring).
  apply sqrt_Rsqr_abs.
Qed.

(** A projectile straight below its target point moves down (towards
    larger y) by its step, one straight above moves up. *)
Lemma Projectile_update_vertical (this : Projectile) (deltaTime : R) :
  x (p_position this) = x (p_target this) ->
  let step := p_speed this * deltaTime in
  (y (p_target this) < y (p_position this) ->
   p_position (Projectile_update this deltaTime)
   = mkVector2D (x (p_position this)) (y (p_position this) - step))
  /\ (y (p_position this) < y (p_target this) ->
      p_position (Projectile_update this deltaTime)
      = mkVector2D (x (p_position this)) (y (p_position this) + step)).
Proof.
  intros Hx step.
  pose proof (distanceTo_vertical _ _ Hx) as HD.
  split; intros Hy.
  - assert (Hne : p_position this <> p_target this).
    { intros E. rewrite E in Hy. lra. }
    rewrite Projectile_update_position by done.
    rewrite HD, Hx, Rabs_right by lra. fold step. f_equal; field; lra.
  - assert (Hne : p_position this <> p_target this).
    { intros E. rewrite E in Hy. lra. }
    rewrite Projectile_update_position by done.
    rewrite HD, Hx, Rabs_left by lra. fold step. f_equal; field; lra.
Qed.

End WhereItDies.

(* ================================================================== *)
(** * The claims *)
(* ================================================================== *)

(** C1, as amended.  In the projectile loop of a collision pass, a
    projectile (whether or not it is still marked alive) is run against
    all units in list order: every unit that is in reach of it (of the
    other team, alive when it is scanned, the projectile within the
    radius of the unit) takes the damage of the projectile, not only the
    first one; a unit that is not in reach is unchanged; the projectile
    is marked dead when at least one unit was in reach, and nothing else
    of the projectile changes.  The loop does this for the projectiles
    of the game in list order, each against the units as the
    projectiles before it left them. *)
Theorem projectile_strikes_every_unit_in_reach (projectile : Projectile)
    (units : list Unit) :
  let projectile' := fst (Game_strikeUnits projectile units) in
  let units' := snd (Game_strikeUnits projectile units) in
  (forall (i : nat) (unit : Unit),
     units !! i = Some unit -> inReach projectile unit ->
     units' !! i = Some (Unit_takeDamage unit (p_damage projectile)))
  /\ (forall (i : nat) (unit : Unit),
        units !! i = Some unit -> ~ inReach projectile unit ->
        units' !! i = Some unit)
  /\ length units' = length units
  /\ (p_alive projectile' = false <->
      p_alive projectile = false
      \/ exists (i : nat) (unit : Unit),
           units !! i = Some unit /\ inReach projectile unit)
  /\ projectile' = Projectile_with_alive projectile (p_alive projectile')
  /\ (forall g : Game,
        g_units (Game_strikeProjectiles g)
        = foldl (fun us p => snd (Game_strikeUnits p us))
            (g_units g) (g_projectiles g)).
Proof.
  intros projectile' units'. subst projectile' units'.
  rewrite Game_strikeUnits_spec. simpl.
  split; [|split; [|split; [|split; [|split]]]].
  6:{ intros g. apply Game_strikeProjectiles_units. }
  - intros i unit Hi Hreach. rewrite list_lookup_fmap, Hi. simpl.
    unfold struckBy. apply projectileHits_inReach in Hreach.
    by rewrite Hreach.
  - intros i unit Hi Hreach. rewrite list_lookup_fmap, Hi. simpl.
    unfold struckBy. rewrite <- projectileHits_inReach in Hreach.
    by destruct (projectileHits projectile unit).
  - apply length_map.
  - rewrite andb_false_iff, negb_false_iff, existsb_exists.
    split; (intros [H|H]; [by left|right]).
    + destruct H as (unit & Hin & Hhit).
      apply list_elem_of_In, list_elem_of_lookup in Hin as [i Hi].
      exists i, unit. split; [done|]. by apply projectileHits_inReach.
    + destruct H as (i & unit & Hi & Hreach). exists unit. split.
      * apply list_elem_of_In. by eapply list_elem_of_lookup_2.
      * by apply projectileHits_inReach.
  - reflexivity.
Qed.

Lemma projectile_strikes_every_unit_in_reach_witness :
  let projectile :=
    {| p_position := mkVector2D 100 100; p_target := mkVector2D 100 100;
       p_speed := 200; p_damage := 100; p_team := player; p_alive := true;
       p_type := "archer"; p_update := UnitFired |} in
  let first := newKnight (mkVector2D 100 100) enemy in
  let second := newKnight (mkVector2D 105 100) enemy in
  snd (Game_strikeUnits projectile [first; second]) !! 1%nat
  = Some (Unit_takeDamage second 100).
Proof.
  intros projectile first second.
  destruct (projectile_strikes_every_unit_in_reach projectile [first; second])
    as [Hstruck _].
  apply (Hstruck 1%nat second).
  - reflexivity.
  - unfold inReach. split; [done|]. split; [done|].
    apply distanceTo_lt_iff. unfold distance2. simpl.
    decide_comparisons. lra.
Defined.

(** The claim as stated fails: with two enemy knights in reach of one
    projectile, the collision pass takes the 100 points of damage from
    both, not from the first only. *)
Lemma projectile_strikes_only_first_counterexample :
  exists g' : Game,
    Game_checkCollisions twoInReach = Normal g'
    /\ u_health <$> g_units twoInReach = [1200; 1200]%Z
    /\ u_health <$> g_units g' = [1100; 1100]%Z
    /\ p_alive <$> g_projectiles g' = [false].
Proof.
  eexists. split; [|split; [reflexivity|]].
  - unfold Game_checkCollisions, Game_clashUnits. simpl.
    unfold Game_strikeProjectiles. simpl.
    unfold projectileHits. simpl. decide_comparisons. reflexivity.
  - simpl. split; reflexivity.
Qed.

(** C2.  In the unit-against-unit loop of the collision pass the pairs
    of indices [i < j] are visited row by row; the row of a unit that is
    dead when the row starts is skipped, and a pair whose second unit is
    dead when the pair is visited, or whose units are of one team, is
    left alone.  In every other pair each unit that has the other
    within its attack range (strictly) attacks it, the first unit
    first, with no test of a cooldown and no change of a time of last
    attack.  The attack of a unit that is neither an archer nor a
    wizard applies its damage to the other unit at once, so two knights
    with 1200 points of health placed 20 apart each lose exactly 150 in
    the pass.  The loop calls [attack] without the game, unlike
    [attemptAttack]: the attack of an archer or a wizard throws, before
    the second unit of the pair has struck when it is the first, and the
    pass ends there.  With an archer and an enemy knight 30 apart, each
    within the range of the other, the pass throws and both keep their
    health. *)
Theorem melee_clash_pair :
  (forall (g : Game) (i j : nat) (unit1 unit2 : Unit),
     g_units g !! i = Some unit1 -> g_units g !! j = Some unit2 ->
     i <> j -> u_alive unit2 = true -> u_team unit1 <> u_team unit2 ->
     let distance := Vec.distanceTo (u_position unit1) (u_position unit2) in
     let shoots (u : Unit) :=
       Rltb distance (u_attackRange u) && isRanged (u_type u) in
     let unit2' :=
       if Rltb distance (u_attackRange unit1)
       then Unit_takeDamage unit2 (u_damage unit1) else unit2 in
     let unit1' :=
       if Rltb distance (u_attackRange unit2)
       then Unit_takeDamage unit1 (u_damage unit2) else unit1 in
     Game_clashPair i j g
     = (if shoots unit1 then TypeError g
        else if shoots unit2
        then TypeError (Game_with_units g (<[j := unit2']> (g_units g)))
        else Normal (Game_with_units g
                       (<[i := unit1']> (<[j := unit2']> (g_units g)))))
     /\ u_lastAttack unit1' = u_lastAttack unit1
     /\ u_lastAttack unit2' = u_lastAttack unit2)
  /\ (forall (g : Game) (i j : nat) (unit1 unit2 : Unit),
        g_units g !! i = Some unit1 -> g_units g !! j = Some unit2 ->
        u_alive unit2 = false \/ u_team unit1 = u_team unit2 ->
        Game_clashPair i j g = Normal g)
  /\ (forall (g : Game) (n i : nat) (unit1 : Unit),
        g_units g !! i = Some unit1 ->
        (u_alive unit1 = false -> Game_clashRow n i g = Normal g)
        /\ (u_alive unit1 = true ->
            Game_clashRow n i g
            = forIndices (seq (S i) (n - S i)) (Game_clashPair i) g))
  /\ (exists g' : Game,
        Game_checkCollisions twoKnights = Normal g'
        /\ u_health <$> g_units twoKnights = [1200; 1200]%Z
        /\ u_health <$> g_units g' = [1050; 1050]%Z
        /\ u_lastAttack <$> g_units g' = u_lastAttack <$> g_units twoKnights)
  /\ (exists g' : Game,
        Game_checkCollisions threeKnights = Normal g'
        /\ u_alive <$> g_units threeKnights = [true; true; true]
        /\ u_health <$> g_units threeKnights = [1200; 100; 1200]%Z
        /\ u_health <$> g_units g' = [1050; 0; 1200]%Z)
  /\ (Game_checkCollisions archerAndKnight = TypeError archerAndKnight
      /\ u_type <$> g_units archerAndKnight = ["archer"; "knight"]%string
      /\ u_alive <$> g_units archerAndKnight = [true; true]
      /\ u_health <$> g_units archerAndKnight = [400; 1200]%Z
      /\ u_attackRange <$> g_units archerAndKnight = [100; 40]%R
      /\ Vec.distanceTo (mkVector2D 400 300) (mkVector2D 430 300) = 30%R).
Proof.
  split; [|split; [|split; [|split; [|split]]]].
  - intros g i j unit1 unit2 H1 H2 Hij Halive Hteam distance shoots
      unit2' unit1'.
    assert (Hlast : u_lastAttack unit1' = u_lastAttack unit1
                    /\ u_lastAttack unit2' = u_lastAttack unit2).
    { subst unit1' unit2'. split; case_match; try done;
        apply Unit_takeDamage_constants. }
    split; [|exact Hlast].
    unfold Game_clashPair. rewrite H1, H2, Halive. simpl.
    destruct (Team_eqb (u_team unit1) (u_team unit2)) eqn:Eteam.
    { by apply Team_eqb_eq in Eteam. }
    fold distance. subst shoots. cbv beta.
    assert (Hfirst :
      (if Rltb distance (u_attackRange unit1)
       then Unit_attack i (UnitRef j) false g else Normal g)
      = if Rltb distance (u_attackRange unit1) && isRanged (u_type unit1)
        then TypeError g
        else Normal (Game_with_units g (<[j := unit2']> (g_units g)))).
    { subst unit2'. destruct (Rltb distance (u_attackRange unit1)) eqn:E1.
      - rewrite (Unit_attack_without_game i (UnitRef j) g unit1
                   (IsUnit unit2)); [|done|by unfold deref; rewrite H2].
        cbn [andb]. destruct (isRanged (u_type unit1)); [done|].
        unfold target_takeDamage. by rewrite H2.
      - simpl. rewrite list_insert_id by done. by destruct g. }
    rewrite Hfirst.
    destruct (Rltb distance (u_attackRange unit1) && isRanged (u_type unit1));
      [done|].
    cbn [andThen].
    set (g1 := Game_with_units g (<[j := unit2']> (g_units g))).
    assert (H1' : g_units g1 !! i = Some unit1).
    { simpl. by rewrite list_lookup_insert_ne by done. }
    assert (H2' : g_units g1 !! j = Some unit2').
    { simpl. apply list_lookup_insert_eq. by eapply lookup_lt_Some. }
    assert (Hsame : u_type unit2' = u_type unit2
                    /\ u_damage unit2' = u_damage unit2).
    { subst unit2'. case_match; [|done].
      pose proof (Unit_takeDamage_constants unit2 (u_damage unit1)).
      tauto. }
    destruct Hsame as [Htype Hdamage].
    subst unit1'. destruct (Rltb distance (u_attackRange unit2)) eqn:E2.
    + rewrite (Unit_attack_without_game j (UnitRef i) g1 unit2'
                 (IsUnit unit1)); [|done|by unfold deref; rewrite H1'].
      rewrite Htype, Hdamage. cbn [andb].
      destruct (isRanged (u_type unit2)); [done|].
      unfold target_takeDamage. by rewrite H1'.
    + simpl. rewrite list_insert_id by done. done.
  - intros g i j unit1 unit2 H1 H2 Hskip.
    unfold Game_clashPair. rewrite H1, H2.
    destruct Hskip as [-> | ->]; [done|].
    by rewrite Team_eqb_refl, orb_true_r.
  - intros g n i unit1 H1. unfold Game_clashRow. rewrite H1.
    split; by intros ->.
  - eexists. split.
    + run_collisions. unfold Game_strikeProjectiles. simpl. reflexivity.
    + repeat split.
  - eexists. split.
    + run_collisions. unfold Game_strikeProjectiles. simpl. reflexivity.
    + repeat split.
  - split; [run_collisions; reflexivity|].
    repeat (split; [reflexivity|]).
    unfold Vec.distanceTo. simpl.
    replace ((400 - 430) * (400 - 430) + (300 - 300) * (300 - 300))%R
      with (30 * 30)%R by ring.
    apply sqrt_square. lra.
Qed.

Lemma melee_clash_pair_witness :
  let unit1 := newKnight (mkVector2D 400 300) player in
  let unit2 := newKnight (mkVector2D 420 300) enemy in
  Game_clashPair 0 1 twoKnights
  = Normal
      (Game_with_units twoKnights
         [Unit_takeDamage unit1 150; Unit_takeDamage unit2 150]).
Proof.
  intros unit1 unit2.
  destruct melee_clash_pair as [Hpair _].
  destruct (Hpair twoKnights 0%nat 1%nat unit1 unit2) as [Hclash _].
  - reflexivity.
  - reflexivity.
  - discriminate.
  - reflexivity.
  - discriminate.
  - rewrite Hclash. simpl.
    assert (Hin : Rltb (Vec.distanceTo (mkVector2D 400 300)
                          (mkVector2D 420 300)) 40 = true).
    { apply Rltb_true_iff, distanceTo_lt_iff. unfold distance2. simpl. lra. }
    rewrite Hin. reflexivity.
Defined.

Ltac close_with H := split; [done|split; [done|exact H]].

(** C3.  [tryPlaceUnit], with the placement point in [mousePos]: when a
    card is pending, the point lies in the zone of the human side and
    the resource covers the cost of the card's type, one unit is
    appended and exactly the cost is deducted.  The unit is the one the
    constructor builds: of the human side, of the card's type, at the
    point, alive and without a target, with the health, damage, speed
    and range of the type's entry.  In every other case the unit list
    and the resource are unchanged; so a unit is spawned if and only if
    the three conditions hold; and in all cases the pending selection is
    cleared.  The cost is 5 for a giant or a wizard and 3 for a knight,
    an archer and every other type that the table gives an entry; a
    type that names a member inherited from [Object.prototype] has no
    cost that the resource could cover, so nothing is spawned or spent
    for it.  The zone of the human side is, in every game reached from
    the constructor, the lower half of the canvas as the constructor
    found it. *)
Theorem tryPlaceUnit_spawns_iff_legal (g : Game) :
  let g' := Game_tryPlaceUnit g in
  (forall (card : string) (unitData : UnitData),
     truthyCard (g_selectedCard g) = Some card ->
     inRect (g_mousePos g) (g_playerZone g) ->
     getUnitData card = Some unitData ->
     (cost unitData <= g_playerElixir g)%Z ->
     exists unit : Unit,
       g_units g' = g_units g ++ [unit]
       /\ g_playerElixir g' = (g_playerElixir g - cost unitData)%Z
       /\ Unit_new (g_mousePos g) card player = Some unit
       /\ u_team unit = player /\ u_type unit = card
       /\ u_position unit = g_mousePos g
       /\ u_alive unit = true /\ u_target unit = None
       /\ u_health unit = d_health unitData
       /\ u_maxHealth unit = d_health unitData
       /\ u_damage unit = d_damage unitData
       /\ u_speed unit = d_speed unitData
       /\ u_attackRange unit = d_range unitData
       /\ u_lastAttack unit = 0%Z /\ u_attackCooldown unit = 1000%Z)
  /\ (~ placementLegal g ->
      g_units g' = g_units g /\ g_playerElixir g' = g_playerElixir g)
  /\ (g_units g' <> g_units g <-> placementLegal g)
  /\ g_selectedCard g' = None
  /\ g_draggingCard g' = false
  /\ (forall (card : string) (unitData : UnitData),
        getUnitData card = Some unitData ->
        cost unitData
        = if String.eqb card "giant" || String.eqb card "wizard"
          then 5%Z else 3%Z)
  /\ (forall card : string,
        getUnitData card = None <-> inheritedKey card = true)
  /\ (forall (canvas0 : Canvas) (containerWidth : R) (steps : list Step),
        g_playerZone (Game_run steps (Game_new canvas0 containerWidth))
        = mkRect 0 (height canvas0 / 2) (width canvas0)
            (height canvas0 / 2)).
Proof.
  intros g'. subst g'.
  assert (Hzone :
    forall (canvas0 : Canvas) (containerWidth : R) (steps : list Step),
      g_playerZone (Game_run steps (Game_new canvas0 containerWidth))
      = mkRect 0 (height canvas0 / 2) (width canvas0) (height canvas0 / 2)).
  { intros canvas0 containerWidth steps. by rewrite Game_run_playerZone. }
  assert (Hfixed :
    (forall (card : string) (unitData : UnitData),
       getUnitData card = Some unitData ->
       cost unitData
       = if String.eqb card "giant" || String.eqb card "wizard"
         then 5%Z else 3%Z)
    /\ (forall card : string,
          getUnitData card = None <-> inheritedKey card = true)
    /\ (forall (canvas0 : Canvas) (containerWidth : R) (steps : list Step),
          g_playerZone (Game_run steps (Game_new canvas0 containerWidth))
          = mkRect 0 (height canvas0 / 2) (width canvas0)
              (height canvas0 / 2))).
  { split; [apply getUnitData_costs|]. split; [|exact Hzone].
    intros card. apply entryOrKnight_None. }
  unfold Game_tryPlaceUnit, placementLegal.
  destruct (truthyCard (g_selectedCard g)) as [card|] eqn:Ecard.
  2:{ simpl. split; [done|]. split; [done|].
      split; [|close_with Hfixed].
      split; [done|]. intros (c & d & H & _). done. }
  destruct (Utils.pointInRect (g_mousePos g) (g_playerZone g)) eqn:Ezone;
    simpl.
  2:{ assert (Hout : ~ inRect (g_mousePos g) (g_playerZone g)).
      { rewrite <- pointInRect_inRect. congruence. }
      split; [done|]. split; [done|]. split; [|close_with Hfixed].
      split; [done|]. intros (c & d & _ & H & _). done. }
  apply pointInRect_inRect in Ezone.
  destruct (getUnitData card) as [unitData|] eqn:Edata.
  2:{ simpl. split; [intros c d [= <-] _ H; congruence|].
      split; [done|]. split; [|close_with Hfixed].
      split; [done|]. intros (c & d & [= <-] & _ & H & _). congruence. }
  destruct (Z.leb_spec (cost unitData) (g_playerElixir g)) as [Hcost|Hcost].
  - destruct (Game_spawnUnit_priced card (g_mousePos g) player g unitData
                Edata) as (unit & Hunit & ->).
    simpl.
    split.
    { intros c d [= <-] _ Hd _. rewrite Edata in Hd. injection Hd as <-.
      exists unit.
      split; [done|]. split; [done|]. split; [done|].
      destruct (Unit_new_spec _ _ _ _ Hunit)
        as ((Hp & Hty & Hte & Ha & Hh & _ & Htg & Hl & Hc & _)
            & d' & Hd' & Hm & Hdm & Hs & Hr).
      rewrite Edata in Hd'. injection Hd' as <-.
      repeat split; congruence. }
    split; [intros H; contradict H; by exists card, unitData|].
    split; [|close_with Hfixed].
    split; [by exists card, unitData|]. intros _. apply app_singleton_neq.
  - simpl.
    split.
    { intros c d [= <-] _ Hd H. rewrite Edata in Hd. injection Hd as <-.
      lia. }
    split; [done|]. split; [|close_with Hfixed].
    split; [done|]. intros (c & d & [= <-] & _ & Hd & H).
    rewrite Edata in Hd. injection Hd as <-. lia.
Qed.

Lemma tryPlaceUnit_spawns_iff_legal_witness :
  let g :=
    Game_handlePointerMove (mkVector2D 400 450)
      (Game_selectCard (Some "giant"%string) freshGame) in
  let g' := Game_tryPlaceUnit g in
  let named :=
    Game_tryPlaceUnit
      (Game_handlePointerMove (mkVector2D 400 450)
         (Game_selectCard (Some "toString"%string) freshGame)) in
  (g_units g' = [newGiant (mkVector2D 400 450) player]
   /\ g_playerElixir g' = 5%Z
   /\ g_selectedCard g' = None)
  /\ (g_units named = [] /\ g_playerElixir named = 10%Z
      /\ g_selectedCard named = None).
Proof.
  intros g g' named. split.
  - destruct (tryPlaceUnit_spawns_iff_legal g)
      as (Hspawn & _ & _ & Hsel & _).
    destruct (Hspawn "giant"%string giantData)
      as (unit & Hunits & Helixir & Hunit & _).
    + reflexivity.
    + unfold inRect; simpl; lra.
    + reflexivity.
    + simpl; lia.
    + injection Hunit as <-.
      repeat split; [exact Hunits|exact Helixir|exact Hsel].
  - destruct (tryPlaceUnit_spawns_iff_legal
                (Game_handlePointerMove (mkVector2D 400 450)
                   (Game_selectCard (Some "toString"%string) freshGame)))
      as (_ & Hkeep & _ & Hsel & _).
    destruct Hkeep as [Hunits Helixir].
    + intros (card & unitData & [= <-] & _ & Hdata & _). discriminate Hdata.
    + repeat split; [exact Hunits|exact Helixir|exact Hsel].
Defined.

(** C4.  For a game whose resource constants are those of the
    constructor (cap 10, rate 1) and whose amount is within 0..10:
    (1) the regen phase adds the time step to the accumulator; when the
    sum reaches 1 it adds 1 to the resource, caps it at 10 and sets the
    accumulator to 0, and otherwise it leaves the resource as it is;
    (2) a whole tick changes the resource as its regen phase alone does,
    so by at most one increment; (3) from an accumulator of 0, a tick of
    0.5 s leaves the resource and a following tick of 0.6 s adds exactly
    one capped increment and resets the accumulator; (4) after any
    sequence of ticks, selections, placements, cancellations and enemy
    spawns the amount is within 0..10 again. *)
Theorem elixir_regen_once_and_bounded :
  (forall (g : Game) (deltaTime : R), economy_ok g ->
     let g' := Game_updateElixir deltaTime g in
     ((1 <= g_lastElixirRegen g + deltaTime)%R ->
        g_playerElixir g' = Z.min (g_playerElixir g + 1) 10
        /\ g_lastElixirRegen g' = 0%R)
     /\ ((g_lastElixirRegen g + deltaTime < 1)%R ->
           g_playerElixir g' = g_playerElixir g
           /\ g_lastElixirRegen g' = (g_lastElixirRegen g + deltaTime)%R))
  /\ (forall (g : Game) (deltaTime : R) (unitTime towerTime : nat -> Z),
        economy_ok g ->
        let g' := final (Game_update deltaTime unitTime towerTime g) in
        economy g' = economy (Game_updateElixir deltaTime g)
        /\ (g_playerElixir g <= g_playerElixir g' <= g_playerElixir g + 1)%Z)
  /\ (forall (g : Game) (unitTime towerTime unitTime' towerTime' : nat -> Z),
        economy_ok g -> g_lastElixirRegen g = 0%R ->
        let g1 := final (Game_update 0.5 unitTime towerTime g) in
        let g2 := final (Game_update 0.6 unitTime' towerTime' g1) in
        g_playerElixir g1 = g_playerElixir g
        /\ g_playerElixir g2 = Z.min (g_playerElixir g + 1) 10
        /\ g_lastElixirRegen g2 = 0%R)
  /\ (forall (g : Game) (steps : list Step), economy_ok g ->
        economy_ok (Game_run steps g)).
Proof.
  assert (Hregen : forall (g : Game) (deltaTime : R), economy_ok g ->
     let g' := Game_updateElixir deltaTime g in
     ((1 <= g_lastElixirRegen g + deltaTime)%R ->
        g_playerElixir g' = Z.min (g_playerElixir g + 1) 10
        /\ g_lastElixirRegen g' = 0%R)
     /\ ((g_lastElixirRegen g + deltaTime < 1)%R ->
           g_playerElixir g' = g_playerElixir g
           /\ g_lastElixirRegen g' = (g_lastElixirRegen g + deltaTime)%R)).
  { intros g dt (Hmax & Hrate & Hb) g'.
    destruct (Game_updateElixir_spec dt g) as (H1 & H2 & _).
    rewrite Hmax, Hrate in H1. by split. }
  assert (Htick : forall g dt ut tt,
     economy (final (Game_update dt ut tt g))
     = economy (Game_updateElixir dt g) ->
     g_playerElixir (final (Game_update dt ut tt g))
     = g_playerElixir (Game_updateElixir dt g)
     /\ g_lastElixirRegen (final (Game_update dt ut tt g))
        = g_lastElixirRegen (Game_updateElixir dt g)).
  { intros g dt ut tt E. unfold economy in E.
    by injection E as -> _ _ -> _. }
  split; [exact Hregen|]. split; [|split].
  - intros g dt ut tt Hg g'. subst g'.
    split; [apply Game_update_economy|].
    destruct (Htick _ _ _ _ (Game_update_economy dt ut tt g)) as [-> _].
    destruct Hg as (Hmax & Hrate & Hb).
    unfold Game_updateElixir. case_match; simpl; lia.
  - intros g ut tt ut' tt' Hg Hzero g1 g2.
    destruct (Htick _ _ _ _ (Game_update_economy 0.5 ut tt g)) as [He Hl].
    fold g1 in He, Hl.
    destruct (Hregen g 0.5%R Hg) as [_ Hlow].
    destruct Hlow as [He' Hl']; [rewrite Hzero; lra|].
    assert (Hok1 : economy_ok g1).
    { apply (Game_step_ok (Advance 0.5 ut tt) g Hg). }
    destruct (Htick _ _ _ _ (Game_update_economy 0.6 ut' tt' g1)) as [He2 Hl2].
    fold g2 in He2, Hl2.
    destruct (Hregen g1 0.6%R Hok1) as [Hhigh _].
    destruct Hhigh as [He2' Hl2']; [rewrite Hl, Hl', Hzero; lra|].
    split; [congruence|]. split; [|congruence].
    rewrite He2, He2', He, He'. done.
  - intros g steps Hg. by apply Game_run_ok.
Qed.

Lemma elixir_regen_once_and_bounded_witness :
  economy_ok freshGame
  /\ g_playerElixir
       (final (Game_update 0.6 (stillClock 2000) (stillClock 2000)
                 (final (Game_update 0.5 (stillClock 1000) (stillClock 1000)
                           freshGame)))) = 10%Z
  /\ economy_ok
       (Game_run [Advance 0.5 (stillClock 1000) (stillClock 1000);
                  Select (Some "knight"%string);
                  MouseUp (mkVector2D 400 400)] freshGame).
Proof.
  destruct elixir_regen_once_and_bounded as (_ & _ & Hexample & Hrun).
  pose proof (Game_new_ok (mkCanvas 800 600) 800) as Hok.
  split; [exact Hok|]. split.
  - destruct (Hexample freshGame (stillClock 1000) (stillClock 1000)
                (stillClock 2000) (stillClock 2000) Hok eq_refl)
      as (_ & H & _).
    exact H.
  - apply Hrun, Hok.
Defined.

(** C5.  For a unit or a tower whose health and liveness agree (alive
    with positive health, or dead with health 0), and an amount of
    damage that is not negative, [takeDamage] does not increase the
    health, leaves it at 0 or above, leaves the combatant dead exactly
    when the health is 0, never makes a dead combatant alive, and leaves
    the health of a dead combatant at 0; health and liveness agree again
    after the call.  In every game reached from the constructor, health
    and liveness of every unit and every tower agree, and no damage that
    a unit, a tower or a projectile carries is negative. *)
Theorem takeDamage_health_alive :
  (forall (c : Combatant) (amount : Z),
     intact c -> (0 <= amount)%Z ->
     let c' := Combatant_takeDamage c amount in
     (c_health c' <= c_health c)%Z
     /\ (0 <= c_health c')%Z
     /\ (c_alive c' = false <-> c_health c' = 0%Z)
     /\ (c_alive c = false -> c_alive c' = false /\ c_health c' = 0%Z)
     /\ intact c')
  /\ (forall (canvas0 : Canvas) (containerWidth : R) (steps : list Step),
        let g := Game_run steps (Game_new canvas0 containerWidth) in
        (forall (i : nat) (u : Unit),
           g_units g !! i = Some u ->
           intact (IsUnit u) /\ (0 <= u_damage u)%Z)
        /\ (forall (k : nat) (t : Tower),
              g_towers g !! k = Some t ->
              intact (IsTower t) /\ (0 <= t_damage t)%Z)
        /\ (forall (n : nat) (p : Projectile),
              g_projectiles g !! n = Some p -> (0 <= p_damage p)%Z)).
Proof.
  split.
  - intros c amount Hc Hamount c'. subst c'. unfold intact in *.
    rewrite Combatant_takeDamage_alive, Combatant_takeDamage_health.
    destruct (c_alive c); simpl;
      destruct (Z.leb_spec (c_health c - amount) 0); simpl;
      repeat split; intros; try done; try lia.
  - intros canvas0 containerWidth steps g.
    destruct (Game_run_wellFormed canvas0 containerWidth steps)
      as (Hunits & Htowers & Hprojectiles).
    fold g in Hunits, Htowers, Hprojectiles.
    split; [|split].
    + intros i u Hu.
      destruct (Forall_lookup_1 _ _ _ _ Hunits Hu) as (? & ? & _). done.
    + intros k t Ht.
      destruct (Forall_lookup_1 _ _ _ _ Htowers Ht) as (? & ? & _). done.
    + intros n p Hp. exact (Forall_lookup_1 _ _ _ _ Hprojectiles Hp).
Qed.

Lemma takeDamage_health_alive_witness :
  let c := IsUnit (newKnight (mkVector2D 0 0) player) in
  let c' := Combatant_takeDamage c 150 in
  (c_health c' <= c_health c)%Z
  /\ (0 <= c_health c')%Z
  /\ (c_alive c' = false <-> c_health c' = 0%Z)
  /\ (c_alive c = false -> c_alive c' = false /\ c_health c' = 0%Z)
  /\ intact c'.
Proof.
  intros c. destruct takeDamage_health_alive as [Hcall _].
  apply (Hcall c 150%Z).
  - by apply (Unit_new_intact (mkVector2D 0 0) "knight" player).
  - lia.
Defined.

(** C6.  [attemptAttack] of a unit or of a tower has an effect only
    when the attacker has a target, the target is alive, its distance is
    at most the attack range and the time since the last attack is at
    least the cooldown: then it runs [attack] on the target and after it
    sets the time of the last attack to the current time, whatever the
    kind of the attack; in every other case it leaves the game as it is.
    In every game reached from the constructor the cooldown is 1000 ms
    for every unit and 800 ms for every tower. *)
Theorem attemptAttack_gated :
  (forall (g : Game) (i : nat) (this : Unit) (currentTime : Z),
     g_units g !! i = Some this ->
     (forall (r : TargetRef) (target : Combatant),
        Unit_fires currentTime this r target g ->
        exists g1 : Game,
          Unit_attack i r true g = Normal g1
          /\ Unit_attemptAttack currentTime i g
             = Normal (Unit_setLastAttack i currentTime g1)
          /\ u_lastAttack
             <$> g_units (Unit_setLastAttack i currentTime g1) !! i
             = Some currentTime)
     /\ ((~ exists (r : TargetRef) (target : Combatant),
            Unit_fires currentTime this r target g) ->
         Unit_attemptAttack currentTime i g = Normal g))
  /\ (forall (g : Game) (k : nat) (this : Tower) (currentTime : Z),
        g_towers g !! k = Some this ->
        (forall (j : nat) (target : Unit),
           Tower_fires currentTime this j target g ->
           Tower_attemptAttack currentTime k g
           = Tower_setLastAttack k currentTime (Tower_attack k j g)
           /\ t_lastAttack
              <$> g_towers (Tower_attemptAttack currentTime k g) !! k
              = Some currentTime)
        /\ ((~ exists (j : nat) (target : Unit),
               Tower_fires currentTime this j target g) ->
            Tower_attemptAttack currentTime k g = g))
  /\ (forall (canvas0 : Canvas) (containerWidth : R) (steps : list Step),
        let g := Game_run steps (Game_new canvas0 containerWidth) in
        (forall (i : nat) (u : Unit),
           g_units g !! i = Some u -> u_attackCooldown u = 1000%Z)
        /\ (forall (k : nat) (t : Tower),
              g_towers g !! k = Some t -> t_attackCooldown t = 800%Z)).
Proof.
  split; [|split].
  3:{ intros canvas0 containerWidth steps g.
      destruct (Game_run_wellFormed canvas0 containerWidth steps)
        as (Hunits & Htowers & _).
      fold g in Hunits, Htowers. split.
      - intros i u Hu.
        by destruct (Forall_lookup_1 _ _ _ _ Hunits Hu) as (_ & _ & ?).
      - intros k t Ht.
        by destruct (Forall_lookup_1 _ _ _ _ Htowers Ht) as (_ & _ & ? & _). }
  - intros g i this currentTime Hthis. split.
    + intros r target (Htarget & Hderef & Halive & Hrange & Hcool).
      destruct (Unit_attack_with_game i r g) as (g1 & Hattack & Hlen & _).
      exists g1. split; [done|].
      unfold Unit_attemptAttack.
      rewrite Hthis, Htarget, Hderef, Halive. simpl.
      rewrite (proj2 (Z.ltb_ge _ _) Hcool).
      rewrite (proj2 (Rleb_true_iff _ _) Hrange).
      rewrite Hattack. simpl. split; [done|].
      apply Unit_setLastAttack_lastAttack. rewrite Hlen.
      by eapply lookup_lt_Some.
    + intros Hno. unfold Unit_attemptAttack. rewrite Hthis.
      destruct (u_target this) as [r|] eqn:Htarget; [|done].
      destruct (deref g r) as [target|] eqn:Hderef; [|done].
      destruct (c_alive target) eqn:Halive; [|done]. simpl.
      destruct (Z.ltb_spec (currentTime - u_lastAttack this)
                  (u_attackCooldown this)) as [|Hcool]; [done|].
      destruct (Rleb _ _) eqn:Hrange; [|done].
      apply Rleb_true_iff in Hrange.
      contradict Hno. by exists r, target.
  - intros g k this currentTime Hthis. split.
    + intros j target (Htarget & Hunit & Halive & Hrange & Hcool).
      assert (E : Tower_attemptAttack currentTime k g
                  = Tower_setLastAttack k currentTime (Tower_attack k j g)).
      { unfold Tower_attemptAttack.
        rewrite Hthis, Htarget, Hunit, Halive. simpl.
        rewrite (proj2 (Z.ltb_ge _ _) Hcool).
        by rewrite (proj2 (Rleb_true_iff _ _) Hrange). }
      split; [done|]. rewrite E.
      apply Tower_setLastAttack_lastAttack.
      rewrite Tower_attack_towers. by eapply lookup_lt_Some.
    + intros Hno. unfold Tower_attemptAttack. rewrite Hthis.
      destruct (t_target this) as [j|] eqn:Htarget; [|done].
      destruct (g_units g !! j) as [target|] eqn:Hunit; [|done].
      destruct (u_alive target) eqn:Halive; [|done]. simpl.
      destruct (Z.ltb_spec (currentTime - t_lastAttack this)
                  (t_attackCooldown this)) as [|Hcool]; [done|].
      destruct (Rleb _ _) eqn:Hrange; [|done].
      apply Rleb_true_iff in Hrange.
      contradict Hno. by exists j, target.
Qed.

Lemma attemptAttack_gated_witness :
  exists g1 : Game,
    Unit_attack 0 (UnitRef 1) true twoKnightsEngaged = Normal g1
    /\ Unit_attemptAttack 1000 0 twoKnightsEngaged
       = Normal (Unit_setLastAttack 0 1000 g1)
    /\ u_lastAttack <$> g_units (Unit_setLastAttack 0 1000 g1) !! 0%nat
       = Some 1000%Z.
Proof.
  destruct attemptAttack_gated as (Hunit & _).
  destruct (Hunit twoKnightsEngaged 0%nat _ 1000%Z eq_refl) as [Hfire _].
  apply (Hfire (UnitRef 1)
           (IsUnit (newKnight (mkVector2D 420 300) enemy))).
  unfold Unit_fires. simpl.
  split; [done|]. split; [done|]. split; [done|]. split; [|lia].
  apply distanceTo_le_iff. unfold distance2. simpl. lra.
Defined.

(** C7.  [findTarget] of a unit stores in [target] the live unit of the
    other team at the least distance, whatever that distance is; when
    there is no live unit of the other team it stores the live tower of
    the other team (the nearest one, the tower list holding one tower
    per team), and nothing when there is none either.  [findTarget] of a
    tower stores the live unit of the other team that is closest among
    those at a distance of at most its attack range (150), and nothing
    when there is none.  Both run at the start of every [update] of a
    live unit or tower; in every game reached from the constructor the
    tower list holds one tower per team and the attack range of every
    tower is 150. *)
Theorem findTarget_closest :
  (forall (g : Game) (i : nat) (this : Unit),
     g_units g !! i = Some this ->
     let chosen := Unit_chooseTarget this g in
     let distanceOf (p : Vector2D) := Vec.distanceTo (u_position this) p in
     let noUnit :=
       forall (m : nat) (u : Unit),
         g_units g !! m = Some u -> ~ opposingLive (u_team this) u in
     g_units (Unit_findTarget i g) !! i = Some (Unit_with_target this chosen)
     /\ (forall j : nat, chosen = Some (UnitRef j) ->
         exists u : Unit,
           g_units g !! j = Some u /\ opposingLive (u_team this) u
           /\ forall (m : nat) (u' : Unit),
                g_units g !! m = Some u' -> opposingLive (u_team this) u' ->
                (distanceOf (u_position u) <= distanceOf (u_position u'))%R)
     /\ ((exists (m : nat) (u : Unit),
            g_units g !! m = Some u /\ opposingLive (u_team this) u) ->
         exists j : nat, chosen = Some (UnitRef j))
     /\ (forall k : nat, chosen = Some (TowerRef k) ->
         noUnit
         /\ exists t : Tower,
              g_towers g !! k = Some t /\ opposingLiveTower (u_team this) t
              /\ (towersOnePerTeam g ->
                  forall (k' : nat) (t' : Tower),
                    g_towers g !! k' = Some t' ->
                    opposingLiveTower (u_team this) t' ->
                    (distanceOf (t_position t)
                     <= distanceOf (t_position t'))%R))
     /\ (noUnit ->
         (exists (k : nat) (t : Tower),
            g_towers g !! k = Some t /\ opposingLiveTower (u_team this) t) ->
         exists k : nat, chosen = Some (TowerRef k))
     /\ (chosen = None <->
         noUnit
         /\ forall (k : nat) (t : Tower),
              g_towers g !! k = Some t ->
              ~ opposingLiveTower (u_team this) t))
  /\ (forall (g : Game) (k : nat) (this : Tower),
        g_towers g !! k = Some this ->
        let chosen := Tower_chooseTarget this g in
        let distanceOf (u : Unit) :=
          Vec.distanceTo (t_position this) (u_position u) in
        g_towers (Tower_findTarget k g) !! k
        = Some (Tower_with_target this chosen)
        /\ (forall j : nat, chosen = Some j ->
            exists u : Unit,
              g_units g !! j = Some u /\ opposingLive (t_team this) u
              /\ (distanceOf u <= t_attackRange this)%R
              /\ forall (m : nat) (u' : Unit),
                   g_units g !! m = Some u' ->
                   opposingLive (t_team this) u' ->
                   (distanceOf u' <= t_attackRange this)%R ->
                   (distanceOf u <= distanceOf u')%R)
        /\ (chosen = None <->
            forall (m : nat) (u : Unit),
              g_units g !! m = Some u -> opposingLive (t_team this) u ->
              ~ (distanceOf u <= t_attackRange this)%R))
  /\ (forall (canvas0 : Canvas) (containerWidth : R) (steps : list Step),
        let g := Game_run steps (Game_new canvas0 containerWidth) in
        towersOnePerTeam g
        /\ forall (k : nat) (t : Tower),
             g_towers g !! k = Some t -> t_attackRange t = 150%R)
  /\ (forall (deltaTime : R) (currentTime : Z) (i : nat) (g : Game)
             (this : Unit),
        g_units g !! i = Some this -> u_alive this = true ->
        Unit_update deltaTime currentTime i g
        = Unit_attemptAttack currentTime i
            (Unit_move deltaTime i (Unit_findTarget i g)) >>>
          (fun g' => Normal (Unit_addAnimationTime i deltaTime g')))
  /\ (forall (currentTime : Z) (k : nat) (g : Game) (this : Tower),
        g_towers g !! k = Some this -> t_alive this = true ->
        Tower_update currentTime k g
        = Tower_attemptAttack currentTime k (Tower_findTarget k g)).
Proof.
  split; [|split; [|split; [|split]]].
  - intros g i this Hthis chosen distanceOf noUnit.
    split; [by apply Unit_findTarget_lookup|].
    apply Unit_chooseTarget_spec.
  - intros g k this Hthis chosen distanceOf.
    split; [by apply Tower_findTarget_lookup|].
    apply Tower_chooseTarget_spec.
  - intros canvas0 containerWidth steps g.
    split; [apply Game_run_towersOnePerTeam|].
    intros k t Ht.
    destruct (Game_run_wellFormed canvas0 containerWidth steps)
      as (_ & Htowers & _).
    by destruct (Forall_lookup_1 _ _ _ _ Htowers Ht) as (_ & _ & _ & ?).
  - intros deltaTime currentTime i g this Hthis Halive.
    unfold Unit_update. by rewrite Hthis, Halive.
  - intros currentTime k g this Hthis Halive.
    unfold Tower_update. by rewrite Hthis, Halive.
Qed.

Lemma findTarget_closest_witness :
  let this := newKnight (mkVector2D 400 300) player in
  exists (j : nat) (u : Unit),
    Unit_chooseTarget this twoKnights = Some (UnitRef j)
    /\ g_units twoKnights !! j = Some u
    /\ opposingLive player u.
Proof.
  intros this.
  destruct findTarget_closest as (Hunit & _).
  destruct (Hunit twoKnights 0%nat this eq_refl)
    as (_ & Hnearest & Hsome & _).
  destruct Hsome as [j Hj].
  { exists 1%nat, (newKnight (mkVector2D 420 300) enemy).
    split; [reflexivity|]. split; [discriminate|reflexivity]. }
  destruct (Hnearest j Hj) as (u & Hu & Hopp & _).
  exists j, u. split; [exact Hj|]. split; [exact Hu|exact Hopp].
Defined.

(** C8, as amended.  A unit whose type is neither archer nor wizard (a
    knight, a giant) applies its damage to the target at once, by
    [takeDamage], and creates no projectile.  An archer or a wizard, and
    every tower, instead appends one projectile that carries the damage
    of the attacker, its team, its position and a copy of the position
    of the target, and leaves the target as it is.  A tower never
    applies damage directly. *)
Theorem attack_direct_or_projectile :
  (forall (g : Game) (i : nat) (this : Unit) (r : TargetRef)
          (target : Combatant) (game : bool),
     g_units g !! i = Some this -> deref g r = Some target ->
     isRanged (u_type this) = false ->
     let g' := target_takeDamage g r (u_damage this) in
     Unit_attack i r game g = Normal g'
     /\ deref g' r = Some (Combatant_takeDamage target (u_damage this))
     /\ g_projectiles g' = g_projectiles g)
  /\ (forall (g : Game) (i : nat) (this : Unit) (r : TargetRef)
             (target : Combatant),
        g_units g !! i = Some this -> deref g r = Some target ->
        isRanged (u_type this) = true ->
        let g' :=
          Game_with_projectiles g
            (g_projectiles g ++ [Unit_projectile this target]) in
        Unit_attack i r true g = Normal g'
        /\ deref g' r = Some target
        /\ g_units g' = g_units g /\ g_towers g' = g_towers g)
  /\ (forall (g : Game) (k j : nat) (this : Tower) (target : Unit),
        g_towers g !! k = Some this -> g_units g !! j = Some target ->
        let g' :=
          Game_with_projectiles g
            (g_projectiles g ++ [Tower_projectile this target]) in
        Tower_attack k j g = g'
        /\ g_units g' !! j = Some target
        /\ g_units g' = g_units g /\ g_towers g' = g_towers g)
  /\ (forall (this : Unit) (target : Combatant),
        let p := Unit_projectile this target in
        p_damage p = u_damage this /\ p_team p = u_team this
        /\ p_position p = u_position this /\ p_target p = c_position target
        /\ p_alive p = true)
  /\ (forall (this : Tower) (target : Unit),
        let p := Tower_projectile this target in
        p_damage p = t_damage this /\ p_team p = t_team this
        /\ p_position p = t_position this /\ p_target p = u_position target
        /\ p_alive p = true)
  /\ isRanged "knight" = false /\ isRanged "giant" = false
  /\ isRanged "archer" = true /\ isRanged "wizard" = true.
Proof.
  split; [|split; [|split]].
  - intros g i this r target game Hthis Htarget Hmelee g'. subst g'.
    unfold Unit_attack. rewrite Hthis, Hmelee.
    split; [done|]. split.
    + by apply deref_target_takeDamage.
    + apply target_takeDamage_projectiles.
  - intros g i this r target Hthis Htarget Hranged g'. subst g'.
    unfold Unit_attack, Unit_createProjectile.
    rewrite Hthis, Hranged, Htarget.
    split; [done|]. split; [|done].
    by destruct r.
  - intros g k j this target Hthis Htarget g'. subst g'.
    unfold Tower_attack. rewrite Hthis, Htarget. done.
  - repeat split.
Qed.

Lemma attack_direct_or_projectile_witness :
  let g := knightAtTower in
  exists (this : Tower) (target : Unit),
    g_towers g !! 0%nat = Some this /\ g_units g !! 0%nat = Some target
    /\ Tower_attack 0 0 g
       = Game_with_projectiles g [Tower_projectile this target]
    /\ g_units (Tower_attack 0 0 g) !! 0%nat = Some target.
Proof.
  intros g.
  destruct attack_direct_or_projectile as (_ & _ & Htower & _).
  eexists _, _.
  split; [reflexivity|]. split; [reflexivity|].
  destruct (Htower g 0%nat 0%nat _ _ eq_refl eq_refl) as (Hattack & Hunit & _).
  split; [exact Hattack|].
  rewrite Hattack. exact Hunit.
Defined.

(** The claim as stated fails for a tower: when the tower of the human
    side fires at an enemy knight in range, through the cooldown-gated
    path, the knight keeps its 1200 points of health (the claim has the
    tower apply its 200 points of damage at once) and a projectile is
    appended. *)
Lemma tower_attack_direct_counterexample :
  let g' := Tower_update 1000 0 knightAtTower in
  u_health <$> g_units knightAtTower = [1200]%Z
  /\ u_health <$> g_units g' = [1200]%Z
  /\ t_lastAttack <$> g_towers g' !! 0%nat = Some 1000%Z
  /\ p_damage <$> g_projectiles g' = [200]%Z.
Proof.
  assert (E : Tower_update 1000 0 knightAtTower
              = Tower_setLastAttack 0 1000
                  (Tower_attack 0 0 (Tower_findTarget 0 knightAtTower))).
  { unfold Tower_update, Tower_attemptAttack, Tower_findTarget,
      Tower_chooseTarget. simpl.
    decide_comparisons. reflexivity. }
  simpl. rewrite E. clear E.
  unfold Tower_findTarget, Tower_chooseTarget. simpl.
  decide_comparisons. repeat split.
Qed.

(** C9.  One [update] of a projectile, of either closure: (1) the
    captured target point is left as it is (and the collision loop
    leaves it too); (2) away from the target point, the projectile moves
    by [speed * deltaTime] times the direction to the target point, the
    difference of the two points divided by their distance, and at the
    target point it stays where it is; (3) a live projectile is marked
    dead exactly when its new position is at a distance below the impact
    radius of its closure from the target point, or outside the
    rectangle 0..800 by 0..600 that the closure checks, and a dead one
    stays dead; (4) the impact radius is 10 for the closure of a
    projectile fired by a unit and 15 for the one fired by a tower.
    (5) The rectangle of (3) is not the playfield, the canvas, which is
    as wide as its container and 500 high.  On a canvas 2000 wide the
    shot of the tower at (1000, 450) at a unit at (1000, 400) is marked
    dead by its first update, which takes it 4.8 up: there it is inside
    the canvas and more than 45 away from its target point.  An arrow
    at (400, 520) that flies down is alive after its update, which takes
    it 3.2 down, below a canvas 500 high. *)
Theorem projectile_update_flight :
  (forall (this : Projectile) (deltaTime : R),
     let this' := Projectile_update this deltaTime in
     let step := (p_speed this * deltaTime)%R in
     let distance := Vec.distanceTo (p_position this) (p_target this) in
     p_target this' = p_target this
     /\ (p_position this <> p_target this ->
         (0 < distance)%R
         /\ x (p_position this')
            = (x (p_position this)
               + (x (p_target this) - x (p_position this)) / distance * step)%R
         /\ y (p_position this')
            = (y (p_position this)
               + (y (p_target this) - y (p_position this)) / distance * step)%R)
     /\ (p_position this = p_target this ->
         p_position this' = p_position this)
     /\ (p_alive this = true ->
         (p_alive this' = false <->
          (Vec.distanceTo (p_position this') (p_target this')
           < impactRadius (p_update this))%R
          \/ offScreen (p_position this')))
     /\ (p_alive this = false -> p_alive this' = false))
  /\ (forall (projectile : Projectile) (units : list Unit),
        p_target (fst (Game_strikeUnits projectile units))
        = p_target projectile)
  /\ (forall (this : Unit) (target : Combatant),
        impactRadius (p_update (Unit_projectile this target)) = 10%R
        /\ p_target (Unit_projectile this target) = c_position target)
  /\ (forall (this : Tower) (target : Unit),
        impactRadius (p_update (Tower_projectile this target)) = 15%R
        /\ p_target (Tower_projectile this target) = u_position target)
  /\ (exists tower : Tower,
        g_towers wideGame !! 0%nat = Some tower
        /\ g_canvas wideGame = mkCanvas 2000 500
        /\ let shot :=
             Tower_projectile tower (newKnight (mkVector2D 1000 400) enemy) in
           let shot' := Projectile_update shot 0.016 in
           p_alive shot = true
           /\ p_position shot = mkVector2D (2000 / 2) (500 - 50)
           /\ p_target shot = mkVector2D 1000 400
           /\ x (p_position shot') = 1000%R
           /\ (445 < y (p_position shot') < 446)%R
           /\ inCanvas (p_position shot') (g_canvas wideGame)
           /\ (45 < Vec.distanceTo (p_position shot') (p_target shot'))%R
           /\ p_alive shot' = false)
  /\ (let arrow' := Projectile_update lowArrow 0.016 in
      g_canvas freshGame = mkCanvas 800 500
      /\ x (p_position arrow') = 400%R
      /\ (523 < y (p_position arrow') < 524)%R
      /\ ~ inCanvas (p_position arrow') (g_canvas freshGame)
      /\ p_alive arrow' = true).
Proof.
  split; [|split; [|split; [by split|split; [by split|split]]]].
  2:{ intros projectile units. by rewrite Game_strikeUnits_spec. }
  - intros this deltaTime this' step distance.
    split; [done|]. split; [|split; [|split]].
    + intros Hne.
      destruct (directionTo_apart _ _ Hne) as (Hpos & Hdir & Hunit).
      split; [done|].
      subst this' distance. unfold Projectile_update. simpl.
      split; by rewrite Hdir.
    + intros Heq. subst this'. unfold Projectile_update. simpl.
      rewrite Heq, directionTo_same.
      destruct (p_target this) as [tx ty].
      unfold Vec.add, Vec.multiply. simpl. f_equal; ring.
    + intros Halive. subst this'.
      rewrite Projectile_update_alive, Halive. simpl.
      rewrite andb_false_iff, !negb_false_iff, !orb_true_iff,
        !Rltb_true_iff.
      unfold offScreen. tauto.
    + intros Hdead. subst this'.
      by rewrite Projectile_update_alive, Hdead.
  - eexists. split; [reflexivity|]. split; [reflexivity|].
    set (shot := Tower_projectile _ _).
    destruct (Projectile_update_vertical shot 0.016) as [Hup _];
      [simpl; lra|].
    assert (Hposition : p_position (Projectile_update shot 0.016)
                        = mkVector2D 1000 445.2).
    { rewrite Hup by (simpl; lra). simpl. f_equal; lra. }
    assert (Hdistance :
      Vec.distanceTo (p_position (Projectile_update shot 0.016))
        (p_target shot) = 45.2%R).
    { rewrite Hposition, distanceTo_vertical by reflexivity. simpl.
      rewrite Rabs_right by lra. lra. }
    cbv zeta.
    split; [reflexivity|]. split; [reflexivity|]. split; [reflexivity|].
    split; [by rewrite Hposition|].
    split; [rewrite Hposition; simpl; lra|].
    split; [rewrite Hposition; unfold inCanvas; simpl; lra|].
    split; [change (p_target (Projectile_update shot 0.016))
              with (p_target shot); rewrite Hdistance; lra|].
    apply Projectile_update_dies; [reflexivity|].
    right. rewrite Hposition. unfold offScreen. simpl. lra.
  - destruct (Projectile_update_vertical lowArrow 0.016) as [_ Hdown];
      [reflexivity|].
    assert (Hposition : p_position (Projectile_update lowArrow 0.016)
                        = mkVector2D 400 523.2).
    { rewrite Hdown by (simpl; lra). simpl. f_equal; lra. }
    cbv zeta. split; [reflexivity|]. split; [by rewrite Hposition|].
    split; [rewrite Hposition; simpl; lra|].
    split; [rewrite Hposition; unfold inCanvas; simpl; lra|].
    destruct (p_alive (Projectile_update lowArrow 0.016)) eqn:E; [done|].
    apply Projectile_update_dies in E; [|reflexivity].
    rewrite Hposition in E.
    rewrite distanceTo_vertical in E by reflexivity.
    unfold offScreen in E. simpl in E.
    rewrite Rabs_left in E by lra. lra.
Qed.

Lemma projectile_update_flight_witness :
  let arrow' := Projectile_update arrow 0.1 in
  p_position arrow' = mkVector2D 120 100
  /\ (p_alive arrow' = false <->
      (Vec.distanceTo (p_position arrow') (p_target arrow') < 10)%R
      \/ offScreen (p_position arrow')).
Proof.
  intros arrow'.
  destruct projectile_update_flight as (Hupdate & _).
  destruct (Hupdate arrow 0.1%R) as (_ & Hmove & _ & Halive & _).
  assert (Hne : p_position arrow <> p_target arrow).
  { simpl. intros [= H]. lra. }
  destruct (Hmove Hne) as (_ & Hx & Hy).
  split; [|exact (Halive eq_refl)].
  assert (Hd : Vec.distanceTo (p_position arrow) (p_target arrow) = 100%R).
  { unfold Vec.distanceTo. simpl.
    replace ((100 - 200) * (100 - 200) + (100 - 100) * (100 - 100))%R
      with (100 * 100)%R by ring.
    apply sqrt_square. lra. }
  rewrite (Vector2D_eta (p_position arrow')).
  unfold arrow'. rewrite Hx, Hy, Hd. simpl. f_equal; lra.
Defined.




(* ================================================================== *)
(** * Further properties of the code *)
(* ================================================================== *)

(** ** Utils.js *)

Section UtilsProperties.
Local Open Scope R_scope.

(** X1.  [Utils.clamp] with bounds in order returns a value within the
    bounds: the value itself when it lies within them, the lower bound
    below them, the upper bound above them; clamping twice is clamping
    once.  With the bounds out of order it returns the upper bound,
    whatever the value. *)
Theorem clamp_within_bounds (value minimum maximum : R) :
  (minimum <= maximum ->
   minimum <= Utils.clamp value minimum maximum <= maximum
   /\ (minimum <= value <= maximum ->
       Utils.clamp value minimum maximum = value)
   /\ (value <= minimum -> Utils.clamp value minimum maximum = minimum)
   /\ (maximum <= value -> Utils.clamp value minimum maximum = maximum)
   /\ Utils.clamp (Utils.clamp value minimum maximum) minimum maximum
      = Utils.clamp value minimum maximum)
  /\ (maximum < minimum -> Utils.clamp value minimum maximum = maximum).
Proof.
  unfold Utils.clamp. split.
  - intros Hle. repeat split;
      try (intros; unfold Rmin, Rmax;
           repeat (destruct (Rle_dec _ _)); lra).
  - intros Hlt. unfold Rmin, Rmax; repeat (destruct (Rle_dec _ _)); lra.
Qed.

Lemma clamp_within_bounds_witness :
  15 <= Utils.clamp 3 15 785 <= 785
  /\ Utils.clamp 400 15 785 = 400
  /\ Utils.clamp 3 25 5 = 5.
Proof.
  destruct (clamp_within_bounds 3 15 785) as [Hin _].
  destruct (clamp_within_bounds 400 15 785) as [Hmid _].
  destruct (clamp_within_bounds 3 25 5) as [_ Hout].
  split; [apply Hin; lra|].
  split; [apply Hmid; lra|apply Hout; lra].
Defined.

(** X3.  [Utils.circleCollision] does not depend on the order of the
    two circles; it holds exactly when the distance of the centres is
    strictly less than the sum of the radii, so two circles that touch
    do not collide, and a circle collides with itself exactly when its
    radius is positive. *)
Theorem circleCollision_symmetric_strict (pos1 pos2 : Vector2D)
    (radius1 radius2 : R) :
  Utils_circleCollision pos1 radius1 pos2 radius2
  = Utils_circleCollision pos2 radius2 pos1 radius1
  /\ (Utils_circleCollision pos1 radius1 pos2 radius2 = true <->
      0 < radius1 + radius2
      /\ distance2 pos1 pos2 < (radius1 + radius2) * (radius1 + radius2))
  /\ (Vec.distanceTo pos1 pos2 = radius1 + radius2 ->
      Utils_circleCollision pos1 radius1 pos2 radius2 = false)
  /\ (Utils_circleCollision pos1 radius1 pos1 radius1 = true <->
      0 < radius1).
Proof.
  unfold Utils_circleCollision. cbv zeta.
  split; [rewrite (distanceTo_sym pos1 pos2), (Rplus_comm radius1); done|].
  split; [rewrite Rltb_true_iff; apply distanceTo_lt_iff|].
  split; [intros Heq; apply Rltb_false_iff; lra|].
  rewrite Rltb_true_iff, distanceTo_lt_iff. unfold distance2.
  split; [intros [H _]; lra|]. intros H. split; [lra|nra].
Qed.

Lemma circleCollision_symmetric_strict_witness :
  Utils_circleCollision (mkVector2D 0 0) 15 (mkVector2D 30 0) 15 = false.
Proof.
  destruct (circleCollision_symmetric_strict
              (mkVector2D 0 0) (mkVector2D 30 0) 15 15) as (_ & _ & H & _).
  apply H. rewrite distanceTo_distance2. unfold distance2; simpl.
  replace ((0 - 30) * (0 - 30) + (0 - 0) * (0 - 0)) with (30 * 30) by ring.
  rewrite sqrt_square; lra.
Defined.

Lemma Utils_random_range (rnd minimum maximum : R) :
  0 <= rnd < 1 -> minimum <= maximum ->
  minimum <= Utils_random rnd minimum maximum <= maximum
  /\ (minimum < maximum -> Utils_random rnd minimum maximum < maximum).
Proof.
  intros [H0 H1] Hle. unfold Utils_random.
  split; [split; nra|]. intros Hlt. nra.
Qed.

Lemma Utils_randomInt_range (rnd : R) (minimum maximum : Z) :
  0 <= rnd < 1 -> (minimum <= maximum)%Z ->
  (minimum <= Utils_randomInt rnd minimum maximum <= maximum)%Z.
Proof.
  intros [H0 H1] Hle. unfold Utils_randomInt.
  set (n := (maximum - minimum + 1)%Z).
  assert (Hn : 1 <= IZR n) by (apply IZR_le; unfold n; lia).
  assert (Hlow : (0 <= Zfloor (rnd * IZR n))%Z).
  { apply Zfloor_lub. simpl. nra. }
  assert (Hhigh : (Zfloor (rnd * IZR n) < n)%Z).
  { apply lt_IZR. destruct (Zfloor_bound (rnd * IZR n)) as [Hb _]. nra. }
  unfold n in *. lia.
Qed.

(** X4.  For a number [rnd] that [Math.random()] can return (0 included,
    1 excluded) and bounds in order, [Utils.random] returns a number
    from the lower bound (included) to the upper bound (excluded when
    the bounds differ), and [Utils.randomInt] returns an integer from
    the lower to the upper bound, both included; every integer in that
    range is the result for some [rnd]. *)
Theorem random_within_bounds (rnd : R) :
  0 <= rnd < 1 ->
  (forall minimum maximum : R, minimum <= maximum ->
     minimum <= Utils_random rnd minimum maximum <= maximum
     /\ (minimum < maximum -> Utils_random rnd minimum maximum < maximum))
  /\ (forall minimum maximum : Z, (minimum <= maximum)%Z ->
        (minimum <= Utils_randomInt rnd minimum maximum <= maximum)%Z)
  /\ (forall minimum maximum k : Z, (minimum <= k <= maximum)%Z ->
        exists rnd' : R,
          0 <= rnd' < 1 /\ Utils_randomInt rnd' minimum maximum = k).
Proof.
  intros Hrnd. split; [|split].
  - intros minimum maximum Hle. by apply Utils_random_range.
  - intros minimum maximum Hle. by apply Utils_randomInt_range.
  - intros minimum maximum k Hk.
    set (n := (maximum - minimum + 1)%Z).
    assert (Hn : 1 <= IZR n) by (apply IZR_le; unfold n; lia).
    exists (IZR (k - minimum) / IZR n).
    assert (Hk0 : 0 <= IZR (k - minimum)) by (apply IZR_le; lia).
    assert (Hk1 : IZR (k - minimum) < IZR n) by (apply IZR_lt; unfold n; lia).
    split.
    + split.
      * apply Rmult_le_pos; [lra|]. left. apply Rinv_0_lt_compat. lra.
      * apply Rmult_lt_reg_r with (IZR n); [lra|]. field_simplify; lra.
    + unfold Utils_randomInt. fold n.
      replace (IZR (k - minimum) / IZR n * IZR n) with (IZR (k - minimum))
        by (field; lra).
      rewrite (Zfloor_eq (k - minimum)); [lia|]. lra.
Qed.

Lemma random_within_bounds_witness :
  100 <= Utils_random (1 / 2) 100 700 <= 700
  /\ (0 <= Utils_randomInt (1 / 2) 0 3 <= 3)%Z.
Proof.
  destruct (random_within_bounds (1 / 2)) as (Hr & Hi & _); [lra|].
  split; [apply Hr; lra|apply Hi; lia].
Defined.

End UtilsProperties.

(** ** Unit.js *)

Section UnitProperties.
Local Open Scope R_scope.

Lemma distanceTo_same (a : Vector2D) : Vec.distanceTo a a = 0.
Proof.
  rewrite distanceTo_distance2. unfold distance2.
  replace ((x a - x a) * (x a - x a) + (y a - y a) * (y a - y a))
    with 0 by ring.
  apply sqrt_0.
Qed.

Lemma clamp_in_bounds (value minimum maximum : R) :
  minimum <= maximum -> minimum <= Utils.clamp value minimum maximum <= maximum.
Proof.
  intros Hle. unfold Utils.clamp, Rmin, Rmax.
  repeat (destruct (Rle_dec _ _)); lra.
Qed.

(** X7.  The table of [Game.getUnitData], which prices the cards, and
    the table of [Unit.getUnitStats], which builds the units, have the
    same keys and agree on health, damage, speed and range.  A type
    reads an entry in one of them exactly when it reads one in the
    other: when it names no member that an object inherits from
    [Object.prototype].  A type that is none of the four and names no
    inherited member reads the knight entry in both.  For the types
    that read an entry the constructor builds a unit that is alive, at
    full health, with the values of the entry, without a target, and
    facing up for the human side and down for the enemy; for the others
    it builds no unit with a health, a damage, a speed or a range.  The
    entries are those of the source, and the inherited members are the
    twelve of [Object.prototype]. *)
Theorem getUnitData_matches_getUnitStats (type : string) :
  (getUnitData type = None <-> inheritedKey type = true)
  /\ (getUnitStats type = None <-> inheritedKey type = true)
  /\ (inheritedKey type = true <->
      type = "constructor"%string \/ type = "hasOwnProperty"%string
      \/ type = "isPrototypeOf"%string
      \/ type = "propertyIsEnumerable"%string
      \/ type = "toLocaleString"%string \/ type = "toString"%string
      \/ type = "valueOf"%string \/ type = "__proto__"%string
      \/ type = "__defineGetter__"%string
      \/ type = "__defineSetter__"%string
      \/ type = "__lookupGetter__"%string
      \/ type = "__lookupSetter__"%string)
  /\ (getUnitStats "knight" = Some (mkUnitStats 1200 150 30 40 15)
      /\ getUnitStats "archer" = Some (mkUnitStats 400 100 40 100 12)
      /\ getUnitStats "giant" = Some (mkUnitStats 3000 200 20 50 25)
      /\ getUnitStats "wizard" = Some (mkUnitStats 600 250 35 120 12))
  /\ (getUnitData "knight" = Some (mkUnitData 3 1200 150 30 40)
      /\ getUnitData "archer" = Some (mkUnitData 3 400 100 40 100)
      /\ getUnitData "giant" = Some (mkUnitData 5 3000 200 20 50)
      /\ getUnitData "wizard" = Some (mkUnitData 5 600 250 35 120))
  /\ (knownType type -> inheritedKey type = false)
  /\ (~ knownType type -> inheritedKey type = false ->
      getUnitData type = Some knightData
      /\ getUnitStats type = Some knightStats)
  /\ (forall (unitData : UnitData) (stats : UnitStats),
        getUnitData type = Some unitData -> getUnitStats type = Some stats ->
        d_health unitData = st_health stats
        /\ d_damage unitData = st_damage stats
        /\ d_speed unitData = st_speed stats
        /\ d_range unitData = st_range stats)
  /\ forall (position : Vector2D) (team : Team),
       (inheritedKey type = true -> Unit_new position type team = None)
       /\ (inheritedKey type = false ->
           exists (unit : Unit) (unitData : UnitData) (stats : UnitStats),
             Unit_new position type team = Some unit
             /\ getUnitData type = Some unitData
             /\ getUnitStats type = Some stats
             /\ u_position unit = position /\ u_type unit = type
             /\ u_team unit = team /\ u_alive unit = true
             /\ u_health unit = d_health unitData
             /\ u_maxHealth unit = d_health unitData
             /\ u_damage unit = d_damage unitData
             /\ u_speed unit = d_speed unitData
             /\ u_attackRange unit = d_range unitData
             /\ u_radius unit = st_radius stats
             /\ u_target unit = None
             /\ u_velocity unit = mkVector2D 0 0
             /\ u_lastAttack unit = 0%Z /\ u_attackCooldown unit = 1000%Z
             /\ u_animationTime unit = 0
             /\ u_facing unit = (if Team_eqb team player then -1 else 1)%Z).
Proof.
  assert (Hradius : forall r : R, 0 < r -> (if Reqb r 0 then 15 else r) = r).
  { intros r Hr. by rewrite (proj2 (Reqb_false_iff r 0)) by lra. }
  assert (Hdata : getUnitData type = None <-> inheritedKey type = true)
    by apply entryOrKnight_None.
  assert (Hstats : getUnitStats type = None <-> inheritedKey type = true)
    by apply entryOrKnight_None.
  split; [exact Hdata|]. split; [exact Hstats|].
  split.
  { unfold inheritedKey. cbn [existsb].
    by rewrite orb_false_r, !orb_true_iff, !String.eqb_eq. }
  split; [by repeat split|]. split; [by repeat split|].
  split; [by intros [-> | [-> | [-> | ->]]]|].
  split.
  { intros Hunknown Hown. unfold knownType in Hunknown.
    unfold getUnitData, getUnitStats, entryOrKnight. rewrite Hown.
    destruct (String.eqb_spec type "knight"); [tauto|].
    destruct (String.eqb_spec type "archer"); [tauto|].
    destruct (String.eqb_spec type "giant"); [tauto|].
    destruct (String.eqb_spec type "wizard"); [tauto|]. done. }
  assert (Hagree : forall (unitData : UnitData) (stats : UnitStats),
    getUnitData type = Some unitData -> getUnitStats type = Some stats ->
    d_health unitData = st_health stats
    /\ d_damage unitData = st_damage stats
    /\ d_speed unitData = st_speed stats
    /\ d_range unitData = st_range stats).
  { unfold getUnitData, getUnitStats, entryOrKnight.
    intros unitData stats.
    repeat case_match; try done; by intros [= <-] [= <-]. }
  split; [exact Hagree|].
  intros position team. split.
  { intros Hinherited. unfold Unit_new.
    by rewrite (proj2 Hstats Hinherited). }
  intros Hown.
  destruct (getUnitData type) as [unitData|] eqn:Ed;
    [|rewrite (proj1 Hdata eq_refl) in Hown; done].
  destruct (getUnitStats type) as [stats|] eqn:Es;
    [|rewrite (proj1 Hstats eq_refl) in Hown; done].
  destruct (Hagree unitData stats eq_refl eq_refl) as (Hh & Hd & Hs & Hr).
  exists (Unit_of stats position type team), unitData, stats.
  unfold Unit_new. rewrite Es. simpl. rewrite Hh, Hd, Hs, Hr.
  assert (Hpos : 0 < st_radius stats).
  { apply entryOrKnight_Some in Es.
    destruct Es as [-> | [-> | [-> | ->]]]; simpl; lra. }
  rewrite Hradius by done. by repeat split.
Qed.

Lemma getUnitData_matches_getUnitStats_witness :
  (getUnitData "dragon" = Some knightData
   /\ getUnitStats "dragon" = Some knightStats)
  /\ Unit_new (mkVector2D 0 0) "toString" player = None.
Proof.
  split.
  - destruct (getUnitData_matches_getUnitStats "dragon")
      as (_ & _ & _ & _ & _ & _ & H & _).
    apply H; [|reflexivity].
    unfold knownType. intros [H1|[H1|[H1|H1]]]; discriminate H1.
  - destruct (getUnitData_matches_getUnitStats "toString")
      as (_ & _ & _ & _ & _ & _ & _ & _ & H).
    destruct (H (mkVector2D 0 0) player) as [Hnone _].
    apply Hnone. reflexivity.
Defined.

(** X8.  [Unit.move] changes nothing but the position, the velocity and
    the facing of the unit itself, and nothing at all without a target.
    Within the attack range of the target the unit stands still with a
    velocity of zero.  Out of range its velocity becomes its speed times
    the direction to the target; it faces up when the target is above it
    and down when it is below, and keeps its facing when the target is
    level; it moves by the velocity times the time step, clamped on each
    axis to the canvas inset by its radius, so it ends within the canvas
    inset by its radius (on an axis where the canvas is at least two
    radii wide). *)
Theorem Unit_move_kinematics (deltaTime : R) (g : Game) (i : nat)
    (this : Unit) :
  g_units g !! i = Some this ->
  let g' := Unit_move deltaTime i g in
  g_towers g' = g_towers g
  /\ g_projectiles g' = g_projectiles g
  /\ (u_target this = None -> g' = g)
  /\ forall (r : TargetRef) (target : Combatant),
       u_target this = Some r -> deref g r = Some target ->
       let distance := Vec.distanceTo (u_position this) (c_position target) in
       exists this' : Unit,
         g_units g' = <[i := this']> (g_units g)
         /\ unitConstants this' = unitConstants this
         /\ (u_health this', u_alive this', u_target this',
             u_lastAttack this', u_animationTime this')
            = (u_health this, u_alive this, u_target this,
               u_lastAttack this, u_animationTime this)
         /\ (distance <= u_attackRange this ->
             u_position this' = u_position this
             /\ u_velocity this' = mkVector2D 0 0
             /\ u_facing this' = u_facing this)
         /\ (u_attackRange this < distance -> 0 <= u_attackRange this ->
             u_velocity this'
             = Vec.multiply
                 (Vec.directionTo (u_position this) (c_position target))
                 (u_speed this)
             /\ (0 < u_speed this ->
                 y (c_position target) < y (u_position this) ->
                 u_facing this' = (-1)%Z)
             /\ (0 < u_speed this ->
                 y (u_position this) < y (c_position target) ->
                 u_facing this' = 1%Z)
             /\ (y (c_position target) = y (u_position this) ->
                 u_facing this' = u_facing this)
             /\ x (u_position this')
                = Utils.clamp
                    (x (u_position this) + x (u_velocity this') * deltaTime)
                    (u_radius this) (width (g_canvas g) - u_radius this)
             /\ y (u_position this')
                = Utils.clamp
                    (y (u_position this) + y (u_velocity this') * deltaTime)
                    (u_radius this) (height (g_canvas g) - u_radius this)
             /\ (2 * u_radius this <= width (g_canvas g) ->
                 u_radius this <= x (u_position this')
                 <= width (g_canvas g) - u_radius this)
             /\ (2 * u_radius this <= height (g_canvas g) ->
                 u_radius this <= y (u_position this')
                 <= height (g_canvas g) - u_radius this)).
Proof.
  intros Hthis g'.
  split; [apply Unit_move_towers|].
  split; [unfold g', Unit_move; repeat case_match; done|].
  split; [intros Hnone; unfold g', Unit_move; by rewrite Hthis, Hnone|].
  intros r target Hr Htarget distance.
  unfold g', Unit_move. rewrite Hthis, Hr, Htarget. fold distance.
  destruct (Rleb distance (u_attackRange this)) eqn:Hreach.
  - apply Rleb_true_iff in Hreach.
    eexists. split; [reflexivity|]. split; [reflexivity|].
    split; [simpl; by rewrite Hr|].
    split; [by intros _; repeat split|]. intros Hout. lra.
  - apply Rleb_false_iff in Hreach.
    eexists. split; [reflexivity|]. split; [reflexivity|].
    split; [simpl; by rewrite Hr|].
    split; [intros Hin; lra|]. intros _ Hrange.
    assert (Hapart : u_position this <> c_position target).
    { intros Heq. unfold distance in Hreach.
      rewrite Heq, distanceTo_same in Hreach. lra. }
    destruct (directionTo_apart _ _ Hapart) as (Hpos & Hdir & Hone).
    fold distance in Hpos, Hdir.
    assert (Hy : y (Vec.directionTo (u_position this) (c_position target))
                 = (y (c_position target) - y (u_position this)) / distance).
    { by rewrite Hdir. }
    assert (Hinv : 0 < / distance) by by apply Rinv_0_lt_compat.
    split; [reflexivity|].
    simpl. rewrite Hy.
    split.
    { intros Hspeed Habove.
      rewrite (proj2 (Rltb_true_iff _ 0)); [done|].
      unfold Rdiv.
      assert (H1 : (y (c_position target) - y (u_position this))
                   * / distance < 0) by nra.
      nra. }
    split.
    { intros Hspeed Hbelow.
      assert (H1 : 0 < (y (c_position target) - y (u_position this))
                       * / distance) by nra.
      rewrite (proj2 (Rltb_false_iff _ 0)) by (unfold Rdiv; nra).
      rewrite (proj2 (Rltb_true_iff 0 _)); [done|]. unfold Rdiv; nra. }
    split.
    { intros Hlevel. rewrite Hlevel.
      replace ((y (u_position this) - y (u_position this)) / distance
               * u_speed this) with 0 by (unfold Rdiv; ring).
      by rewrite (proj2 (Rltb_false_iff 0 0)) by lra. }
    split; [reflexivity|]. split; [reflexivity|].
    split; intros Hwide; apply clamp_in_bounds; lra.
Qed.

Lemma Unit_move_kinematics_witness :
  exists this' : Unit,
    g_units (Unit_move (1 / 10) 0 knightBelowTower) = [this']
    /\ u_facing (newKnight (mkVector2D 400 499) enemy) = 1%Z
    /\ u_facing this' = (-1)%Z
    /\ 15 <= y (u_position this') <= 485
    /\ u_animationTime this' = 0.
Proof.
  pose (this := Unit_with_target (newKnight (mkVector2D 400 499) enemy)
                  (Some (TowerRef 0))).
  pose (tower := Tower_new (mkVector2D (800 / 2) (500 - 50)) player).
  destruct (Unit_move_kinematics (1 / 10) knightBelowTower 0 this)
    as (_ & _ & _ & Hmove); [reflexivity|].
  destruct (Hmove (TowerRef 0) (IsTower tower))
    as (this' & Hunits & _ & Hframe & _ & Hout); [reflexivity|reflexivity|].
  assert (Hfar : u_attackRange this
                 < Vec.distanceTo (u_position this)
                     (c_position (IsTower tower))).
  { rewrite distanceTo_vertical by (simpl; lra). simpl.
    rewrite Rabs_right by lra. lra. }
  destruct (Hout Hfar) as (_ & Hup & _ & _ & _ & _ & _ & Hy);
    [simpl; lra|].
  exists this'. split; [exact Hunits|]. split; [reflexivity|].
  split; [apply Hup; simpl; lra|].
  split.
  { assert (Hradius : u_radius this = 15).
    { simpl. by destruct (Reqb 15 0). }
    rewrite Hradius in Hy. simpl in Hy. lra. }
  simpl in Hframe. congruence.
Defined.
End UnitProperties.

Section UnitUpdate.

Lemma onlyUnit_refl (i : nat) (g : Game) : onlyUnit i g g.
Proof. by split. Qed.

Lemma onlyUnit_trans (i : nat) (g1 g2 g3 : Game) :
  onlyUnit i g1 g2 -> onlyUnit i g2 g3 -> onlyUnit i g1 g3.
Proof.
  intros [H12 P12] [H23 P23]. split; [|congruence].
  intros j Hj. by rewrite H23, H12.
Qed.

Lemma setUnit_onlyUnit (g : Game) (i : nat) (u : Unit) :
  onlyUnit i g (setUnit g i u).
Proof.
  split; [|done]. intros j Hj. simpl. apply list_lookup_insert_ne. congruence.
Qed.

Lemma Unit_findTarget_onlyUnit (i : nat) (g : Game) :
  onlyUnit i g (Unit_findTarget i g).
Proof.
  unfold Unit_findTarget.
  case_match; [apply setUnit_onlyUnit|apply onlyUnit_refl].
Qed.

Lemma Unit_move_onlyUnit (deltaTime : R) (i : nat) (g : Game) :
  onlyUnit i g (Unit_move deltaTime i g).
Proof.
  unfold Unit_move.
  repeat case_match; try apply onlyUnit_refl; apply setUnit_onlyUnit.
Qed.

Lemma Unit_setLastAttack_onlyUnit (i : nat) (time : Z) (g : Game) :
  onlyUnit i g (Unit_setLastAttack i time g).
Proof.
  unfold Unit_setLastAttack.
  case_match; [apply setUnit_onlyUnit|apply onlyUnit_refl].
Qed.

Lemma Unit_addAnimationTime_onlyUnit (i : nat) (deltaTime : R) (g : Game) :
  onlyUnit i g (Unit_addAnimationTime i deltaTime g).
Proof.
  unfold Unit_addAnimationTime.
  case_match; [apply setUnit_onlyUnit|apply onlyUnit_refl].
Qed.

Lemma Unit_move_lookup (deltaTime : R) (i : nat) (g : Game) (this : Unit) :
  g_units g !! i = Some this ->
  exists this' : Unit,
    g_units (Unit_move deltaTime i g) !! i = Some this'
    /\ u_target this' = u_target this
    /\ u_type this' = u_type this
    /\ u_damage this' = u_damage this
    /\ u_team this' = u_team this.
Proof.
  intros Hthis. pose proof (lookup_lt_Some _ _ _ Hthis) as Hlt.
  unfold Unit_move. rewrite Hthis.
  repeat case_match; try (by exists this);
    (eexists; split; [simpl; by apply list_lookup_insert_eq|done]).
Qed.

(** The outcomes of [attemptAttack]. *)
Lemma Unit_attemptAttack_cases (currentTime : Z) (i : nat) (g : Game)
    (this : Unit) :
  g_units g !! i = Some this ->
  Unit_attemptAttack currentTime i g = Normal g
  \/ exists (r : TargetRef) (target : Combatant),
       u_target this = Some r /\ deref g r = Some target
       /\ ((isRanged (u_type this) = true
            /\ Unit_attemptAttack currentTime i g
               = Normal
                   (Unit_setLastAttack i currentTime
                      (Game_with_projectiles g
                         (g_projectiles g ++ [Unit_projectile this target]))))
           \/ (isRanged (u_type this) = false
               /\ Unit_attemptAttack currentTime i g
                  = Normal
                      (Unit_setLastAttack i currentTime
                         (target_takeDamage g r (u_damage this))))).
Proof.
  intros Hthis. unfold Unit_attemptAttack. rewrite Hthis.
  destruct (u_target this) as [r|]; [|by left].
  destruct (deref g r) as [target|] eqn:Htarget; [|by left].
  destruct (negb (c_alive target)); [by left|].
  destruct (currentTime - u_lastAttack this <? u_attackCooldown this)%Z;
    [by left|].
  destruct (Rleb _ _); [|by left].
  right. exists r, target. split; [done|]. split; [done|].
  unfold Unit_attack, Unit_createProjectile. rewrite Hthis, Htarget.
  destruct (isRanged (u_type this)); [left|right]; done.
Qed.

(** X9.  The update of a unit never throws, and it writes nothing but
    the unit itself, its target, and the projectile list: every unit
    keeps its type, team, maximal health, damage, speed, range, radius
    and cooldown; a unit other than the updated one is unchanged, or it
    is the target that the updated unit has just chosen, the updated
    unit is not ranged, and it has taken the damage of the updated unit
    once; the projectile list is unchanged, or the updated unit is
    ranged and one live projectile with its damage, team and type has
    been appended.  The update of a dead unit does nothing. *)
Theorem Unit_update_touches_self_and_target (deltaTime : R)
    (currentTime : Z) (g : Game) (i : nat) (this : Unit) :
  g_units g !! i = Some this ->
  let g' := final (Unit_update deltaTime currentTime i g) in
  let chosen := Unit_chooseTarget this g in
  Unit_update deltaTime currentTime i g = Normal g'
  /\ unitConstants <$> g_units g' = unitConstants <$> g_units g
  /\ (forall (j : nat) (u : Unit),
        j <> i -> g_units g !! j = Some u ->
        g_units g' !! j = Some u
        \/ (chosen = Some (UnitRef j) /\ isRanged (u_type this) = false
            /\ g_units g' !! j = Some (Unit_takeDamage u (u_damage this))))
  /\ (g_projectiles g' = g_projectiles g
      \/ (isRanged (u_type this) = true
          /\ exists p : Projectile,
               g_projectiles g' = g_projectiles g ++ [p]
               /\ p_damage p = u_damage this /\ p_team p = u_team this
               /\ p_type p = u_type this /\ p_alive p = true))
  /\ (u_alive this = false -> g' = g).
Proof.
  intros Hthis g' chosen.
  assert (Hconstants : unitConstants <$> g_units g'
                       = unitConstants <$> g_units g).
  { apply (Unit_update_sameUnitsBy unitConstants); done. }
  split; [|split; [exact Hconstants|]].
  { unfold g', Unit_update. rewrite Hthis.
    destruct (negb (u_alive this)); [done|].
    destruct (Unit_attemptAttack _ _ _) eqn:Hattempt; [done|].
    exfalso. revert Hattempt.
    set (g2 := Unit_move deltaTime i (Unit_findTarget i g)).
    unfold Unit_attemptAttack. repeat case_match; try done.
    destruct (Unit_attack_with_game i t g2) as (g3 & -> & _). done. }
  unfold g', Unit_update. rewrite Hthis.
  destruct (u_alive this) eqn:Halive; simpl;
    [|split; [by left|split; [by left|done]]].
  set (g1 := Unit_findTarget i g).
  set (g2 := Unit_move deltaTime i g1).
  assert (H1 : g_units g1 !! i = Some (Unit_with_target this chosen))
    by by apply Unit_findTarget_lookup.
  destruct (Unit_move_lookup deltaTime i g1 _ H1)
    as (this2 & H2 & Htarget2 & Htype2 & Hdamage2 & Hteam2).
  simpl in Htarget2, Htype2, Hdamage2, Hteam2.
  assert (H12 : onlyUnit i g g2).
  { eapply onlyUnit_trans;
      [apply Unit_findTarget_onlyUnit|apply Unit_move_onlyUnit]. }
  destruct H12 as [Hothers Hprojectiles].
  destruct (Unit_attemptAttack_cases currentTime i g2 this2 H2)
    as [->|(r & target & Hr & Hderef & [[Hranged ->]|[Hmelee ->]])]; simpl.
  - destruct (Unit_addAnimationTime_onlyUnit i deltaTime g2) as [Ho Hp].
    split; [|split; [left; congruence|done]].
    intros j u Hj Hu. left. by rewrite Ho, Hothers.
  - set (g3 := Unit_setLastAttack i currentTime _).
    assert (H23 : onlyUnit i (Game_with_projectiles g2
                                (g_projectiles g2
                                 ++ [Unit_projectile this2 target])) g3)
      by apply Unit_setLastAttack_onlyUnit.
    destruct H23 as [Ho3 Hp3].
    destruct (Unit_addAnimationTime_onlyUnit i deltaTime g3) as [Ho Hp].
    split; [|split; [|done]].
    + intros j u Hj Hu. left. by rewrite Ho, Ho3, <- Hu, <- Hothers.
    + right. split; [congruence|]. exists (Unit_projectile this2 target).
      rewrite Hp, Hp3. simpl. rewrite Hprojectiles. by repeat split.
  - set (g3 := Unit_setLastAttack i currentTime _).
    assert (H23 : onlyUnit i (target_takeDamage g2 r (u_damage this2)) g3)
      by apply Unit_setLastAttack_onlyUnit.
    destruct H23 as [Ho3 Hp3].
    destruct (Unit_addAnimationTime_onlyUnit i deltaTime g3) as [Ho Hp].
    split; [|split; [|done]].
    + intros j u Hj Hu. rewrite Ho, Ho3 by done.
      rewrite Htarget2 in Hr.
      destruct r as [j0|k]; simpl.
      * destruct (g_units g2 !! j0) as [u0|] eqn:Hu0;
          [|left; by rewrite Hothers].
        simpl. destruct (decide (j0 = j)) as [->|Hne].
        { right. pose proof (lookup_lt_Some _ _ _ Hu0) as Hlt.
          rewrite Hothers, Hu in Hu0 by done. injection Hu0 as <-.
          split; [done|]. split; [congruence|].
          rewrite list_lookup_insert_eq by done.
          by rewrite Hdamage2. }
        left. rewrite list_lookup_insert_ne by done. by rewrite Hothers.
      * left. destruct (g_towers g2 !! k); simpl; by rewrite Hothers.
    + left. rewrite Hp, Hp3, target_takeDamage_projectiles. done.
Qed.

Lemma Unit_update_touches_self_and_target_witness :
  g_units (final (Unit_update 0.016 1000 0 twoKnights)) !! 1%nat
  = Some (Unit_takeDamage (newKnight (mkVector2D 420 300) enemy) 150).
Proof.
  destruct (Unit_update_touches_self_and_target 0.016 1000 twoKnights 0
              (newKnight (mkVector2D 400 300) player))
    as (_ & _ & Hothers & _); [reflexivity|].
  destruct (Hothers 1%nat (newKnight (mkVector2D 420 300) enemy))
    as [Hsame|(_ & _ & Hhit)]; [done|reflexivity| |exact Hhit].
  exfalso. revert Hsame.
  unfold Unit_update, Unit_findTarget, Unit_chooseTarget, Unit_move,
    Unit_attemptAttack, Unit_attack; simpl.
  decide_comparisons. discriminate.
Defined.
End UnitUpdate.

(** ** Target acquisition and the towers *)

Section Acquisition2.
Local Open Scope R_scope.

(** The scan keeps the earliest of the closest candidates: the unit it
    returns is strictly closer than every candidate before it. *)
Lemma scanClosest_earliest (candidate : Unit -> bool) (origin : Vector2D)
    (units : list Unit) :
  forall (k : nat) (ct : option nat) (cd : option R) (j : nat),
    fst (scanClosest candidate origin units k ct cd) = Some j ->
    ct = Some j
    \/ exists u : Unit,
         (k <= j)%nat /\ units !! (j - k)%nat = Some u
         /\ closer (Vec.distanceTo origin (u_position u)) cd = true
         /\ forall (m : nat) (u' : Unit),
              (m < j - k)%nat -> units !! m = Some u' ->
              candidate u' = true ->
              Vec.distanceTo origin (u_position u)
              < Vec.distanceTo origin (u_position u').
Proof.
  induction units as [|unit rest IH]; intros k ct cd j Hres; simpl in Hres.
  { by left. }
  destruct (candidate unit
            && closer (Vec.distanceTo origin (u_position unit)) cd) eqn:E.
  - apply andb_true_iff in E as [Hcand Hcloser].
    right. apply IH in Hres as [[= <-]|(u & Hk & Hu & Hc & Hbefore)].
    + exists unit. split; [lia|]. rewrite Nat.sub_diag.
      split; [done|]. split; [done|]. intros m u' Hm. lia.
    + exists u. split; [lia|].
      replace (j - k)%nat with (S (j - S k)) by lia.
      split; [done|]. simpl in Hc. apply Rltb_true_iff in Hc. split.
      * destruct cd as [c|]; [|done]. simpl in *.
        apply Rltb_true_iff in Hcloser. apply Rltb_true_iff. lra.
      * intros [|m] u' Hm Hu' Hcand'.
        { injection Hu' as <-. done. }
        apply (Hbefore m u'); [lia|done|done].
  - apply IH in Hres as [->|(u & Hk & Hu & Hc & Hbefore)]; [by left|].
    right. exists u. split; [lia|].
    replace (j - k)%nat with (S (j - S k)) by lia.
    split; [done|]. split; [done|].
    intros [|m] u' Hm Hu' Hcand'.
    + injection Hu' as <-. rewrite Hcand' in E. simpl in E.
      destruct cd as [c|]; [|done]. simpl in *.
      apply Rltb_false_iff in E. apply Rltb_true_iff in Hc. lra.
    + apply (Hbefore m u'); [lia|done|done].
Qed.

(** X10.  Ties of the two closest-unit scans go to the earlier unit:
    the unit that a unit or a tower takes as its target is strictly
    closer than every candidate before it in the unit list (a live unit
    of the other team, for a tower also within its range), so of
    several candidates at the same least distance the one that was
    spawned first is chosen. *)
Theorem closest_scan_prefers_earlier (g : Game) (j m : nat) (u u' : Unit) :
  g_units g !! j = Some u -> g_units g !! m = Some u' -> (m < j)%nat ->
  (forall this : Unit,
     Unit_chooseTarget this g = Some (UnitRef j) ->
     opposingLive (u_team this) u' ->
     Vec.distanceTo (u_position this) (u_position u)
     < Vec.distanceTo (u_position this) (u_position u'))
  /\ (forall this : Tower,
        Tower_chooseTarget this g = Some j ->
        opposingLive (t_team this) u' ->
        Vec.distanceTo (t_position this) (u_position u')
        <= t_attackRange this ->
        Vec.distanceTo (t_position this) (u_position u)
        < Vec.distanceTo (t_position this) (u_position u')).
Proof.
  intros Hu Hu' Hm. split.
  - intros this Hchosen Hlive. unfold Unit_chooseTarget in Hchosen.
    destruct (fst (Unit_scanUnits this (g_units g) 0 None None))
      as [j'|] eqn:Hscan; [|by repeat case_match].
    injection Hchosen as ->.
    rewrite Unit_scanUnits_shape in Hscan.
    apply scanClosest_earliest in Hscan as [|(u0 & _ & Hu0 & _ & Hbefore)];
      [done|].
    rewrite Nat.sub_0_r in Hu0, Hbefore.
    assert (u0 = u) as -> by congruence.
    apply (Hbefore m u' Hm Hu'). by apply opposing_candidate.
  - intros this Hchosen Hlive Hrange. unfold Tower_chooseTarget in Hchosen.
    rewrite Tower_scanUnits_shape in Hchosen.
    apply scanClosest_earliest in Hchosen
        as [|(u0 & _ & Hu0 & _ & Hbefore)]; [done|].
    rewrite Nat.sub_0_r in Hu0, Hbefore.
    assert (u0 = u) as -> by congruence.
    apply (Hbefore m u' Hm Hu').
    apply andb_true_iff. split; [by apply opposing_candidate|].
    by apply Rleb_true_iff.
Qed.

Lemma closest_scan_prefers_earlier_witness :
  Vec.distanceTo (mkVector2D 400 300) (mkVector2D 420 300)
  < Vec.distanceTo (mkVector2D 400 300) (mkVector2D 500 300).
Proof.
  destruct (closest_scan_prefers_earlier twoEnemies 1 0
              (newKnight (mkVector2D 420 300) enemy)
              (newKnight (mkVector2D 500 300) enemy))
    as [H _]; [reflexivity|reflexivity|lia|].
  assert (H100 : Vec.distanceTo (mkVector2D 400 300) (mkVector2D 500 300)
                 = 100).
  { rewrite distanceTo_distance2. unfold distance2; simpl.
    replace ((400 - 500) * (400 - 500) + (300 - 300) * (300 - 300))
      with (100 * 100) by ring.
    apply sqrt_square. lra. }
  apply (H (newKnight (mkVector2D 400 300) player)).
  - unfold Unit_chooseTarget; simpl. decide_comparisons.
    rewrite H100. decide_comparisons. reflexivity.
  - by split.
Defined.

(** X11.  The update of a live tower first takes the unit that its scan
    chooses as its target.  When the scan chooses a unit and the
    cooldown of 800 ms has elapsed, the tower fires: one projectile
    from the position of the tower to the position of that unit is
    appended, and the time of the last attack is set; the range and
    liveness tests of [attemptAttack] never stop it, since the scan
    only chooses live units within range.  Otherwise only the target of
    the tower is written.  The update of a destroyed tower does
    nothing, and no update of a tower writes a unit. *)
Theorem Tower_update_fires_at_chosen (currentTime : Z) (g : Game) (k : nat)
    (this : Tower) :
  g_towers g !! k = Some this ->
  let chosen := Tower_chooseTarget this g in
  let aimed := Tower_with_target this chosen in
  let g' := Tower_update currentTime k g in
  g_units g' = g_units g
  /\ (t_alive this = false -> g' = g)
  /\ (t_alive this = true ->
      (forall (j : nat) (target : Unit),
         chosen = Some j -> g_units g !! j = Some target ->
         (t_attackCooldown this <= currentTime - t_lastAttack this)%Z ->
         g' = Game_with_projectiles
                (setTower g k (Tower_with_lastAttack aimed currentTime))
                (g_projectiles g ++ [Tower_projectile this target]))
      /\ (chosen = None
          \/ (currentTime - t_lastAttack this < t_attackCooldown this)%Z ->
          g' = setTower g k aimed)).
Proof.
  intros Hthis chosen aimed g'.
  pose proof (lookup_lt_Some _ _ _ Hthis) as Hlt.
  assert (Haimed : g_towers (Tower_findTarget k g) !! k = Some aimed)
    by by apply Tower_findTarget_lookup.
  assert (Hfind : Tower_findTarget k g = setTower g k aimed).
  { unfold Tower_findTarget. by rewrite Hthis. }
  split.
  { unfold g', Tower_update, Tower_attemptAttack, Tower_setLastAttack,
      Tower_attack, Tower_findTarget.
    repeat (case_match; simpl; try done). }
  split.
  { intros Hdead. unfold g', Tower_update. by rewrite Hthis, Hdead. }
  intros Halive. unfold g', Tower_update. rewrite Hthis, Halive. simpl.
  unfold Tower_attemptAttack. rewrite Haimed. simpl. fold chosen. split.
  - intros j target Hchosen Htarget Hcool. rewrite Hchosen.
    destruct (Tower_chooseTarget_spec this g) as [Hspec _].
    destruct (Hspec j Hchosen) as (u & Hu & [_ Hlive] & Hrange & _).
    assert (u = target) as -> by congruence.
    assert (Hunits : g_units (Tower_findTarget k g) !! j = Some target).
    { by rewrite Hfind. }
    rewrite Hunits, Hlive. simpl.
    rewrite (proj2 (Z.ltb_ge _ _)) by lia.
    rewrite (proj2 (Rleb_true_iff _ _) Hrange).
    unfold Tower_attack. rewrite Haimed, Hunits.
    unfold Tower_setLastAttack. simpl. rewrite Haimed.
    rewrite Hfind. unfold setTower, Game_with_towers, Game_with_projectiles.
    simpl. by rewrite list_insert_insert_eq.
  - intros [Hnone|Hcool].
    + by rewrite Hnone.
    + destruct chosen as [j|]; [|done].
      destruct (g_units (Tower_findTarget k g) !! j); [|done].
      destruct (negb (u_alive u)); [done|].
      by rewrite (proj2 (Z.ltb_lt _ _) Hcool).
Qed.

Lemma Tower_update_fires_at_chosen_witness :
  p_target <$> g_projectiles (Tower_update 1000 0 knightAtTower)
  = [mkVector2D 400 400].
Proof.
  destruct (Tower_update_fires_at_chosen 1000 knightAtTower 0
              (Tower_new (mkVector2D (800 / 2) (500 - 50)) player))
    as (_ & _ & H); [reflexivity|].
  destruct H as [Hfire _]; [reflexivity|].
  rewrite (Hfire 0%nat (newKnight (mkVector2D 400 400) enemy)).
  - reflexivity.
  - unfold Tower_chooseTarget; simpl. decide_comparisons. reflexivity.
  - reflexivity.
  - simpl. lia.
Defined.
End Acquisition2.

(** ** Game.js: the collision pass and the tick *)

Section Collisions.
Local Open Scope R_scope.

(** X12.  A pair of the unit-against-unit loop of [checkCollisions]
    that passes the guards (the second unit alive, the teams different)
    throws a [TypeError] exactly when one of the two units is an archer
    or a wizard and has the other one within its attack range: the
    loop calls [attack] without the game, and a ranged attack reads
    [game.projectiles].  When it is the first unit, nothing has been
    written; when it is only the second, the first has already struck
    if the second was within its range. *)
Theorem clashPair_throws_iff (g : Game) (i j : nat) (unit1 unit2 : Unit) :
  g_units g !! i = Some unit1 -> g_units g !! j = Some unit2 ->
  u_alive unit2 = true -> u_team unit1 <> u_team unit2 ->
  let distance := Vec.distanceTo (u_position unit1) (u_position unit2) in
  let shoots (u : Unit) :=
    distance < u_attackRange u /\ isRanged (u_type u) = true in
  ((exists g' : Game, Game_clashPair i j g = TypeError g')
   <-> shoots unit1 \/ shoots unit2)
  /\ (shoots unit1 -> Game_clashPair i j g = TypeError g)
  /\ (~ shoots unit1 -> shoots unit2 ->
      Game_clashPair i j g
      = TypeError
          (if Rltb distance (u_attackRange unit1)
           then target_takeDamage g (UnitRef j) (u_damage unit1)
           else g)).
Proof.
  intros H1 H2 Halive Hteams distance shoots.
  assert (Hij : i <> j) by (intros ->; congruence).
  assert (Heqb : Team_eqb (u_team unit1) (u_team unit2) = false).
  { destruct (Team_eqb _ _) eqn:E; [|done]. by apply Team_eqb_eq in E. }
  assert (Hfirst :
    Game_clashPair i j g
    = (if Rltb distance (u_attackRange unit1)
       then (if isRanged (u_type unit1) then TypeError g
             else Normal (target_takeDamage g (UnitRef j) (u_damage unit1)))
       else Normal g) >>>
      (fun g' =>
         if Rltb distance (u_attackRange unit2)
         then Unit_attack j (UnitRef i) false g'
         else Normal g')).
  { unfold Game_clashPair. rewrite H1, H2, Halive, Heqb. simpl.
    fold distance. destruct (Rltb distance (u_attackRange unit1)); [|done].
    rewrite (Unit_attack_without_game i (UnitRef j) g unit1 (IsUnit unit2));
      [done|done|]. simpl. by rewrite H2. }
  assert (Hsecond : forall g1 : Game,
    g1 = g \/ g1 = target_takeDamage g (UnitRef j) (u_damage unit1) ->
    Unit_attack j (UnitRef i) false g1
    = if isRanged (u_type unit2) then TypeError g1
      else Normal (target_takeDamage g1 (UnitRef i) (u_damage unit2))).
  { intros g1 [->| ->].
    - rewrite (Unit_attack_without_game j (UnitRef i) g unit2 (IsUnit unit1));
        [done|done|]. simpl. by rewrite H1.
    - rewrite (Unit_attack_without_game j (UnitRef i) _
                 (Unit_takeDamage unit2 (u_damage unit1)) (IsUnit unit1)).
      + destruct (Unit_takeDamage_constants unit2 (u_damage unit1))
          as (-> & _ & -> & _).
        done.
      + simpl. rewrite H2. simpl. apply list_lookup_insert_eq.
        by eapply lookup_lt_Some.
      + simpl. rewrite H2. simpl.
        rewrite list_lookup_insert_ne by done. by rewrite H1. }
  assert (Hshoots1 : forall u : Unit,
            shoots u <-> Rltb distance (u_attackRange u) = true
                         /\ isRanged (u_type u) = true).
  { intros u. unfold shoots. by rewrite Rltb_true_iff. }
  rewrite Hfirst. rewrite !Hshoots1.
  destruct (Rltb distance (u_attackRange unit1)) eqn:E1;
    destruct (isRanged (u_type unit1)) eqn:R1; cbn [andThen];
    destruct (Rltb distance (u_attackRange unit2)) eqn:E2;
    try (rewrite Hsecond by first [by left|by right]);
    destruct (isRanged (u_type unit2)) eqn:R2; cbn [andThen];
    (split; [split|split]);
    try (intros [g' Hg']; try discriminate Hg'; (by left) || (by right));
    try (intros [[? ?]|[? ?]]; try discriminate; by eexists);
    try (intros [? ?]; try discriminate; done);
    try (intros Hn [? ?]; try discriminate; try done; exfalso; apply Hn; done).
Qed.

Lemma clashPair_throws_iff_witness :
  Game_clashPair 0 1 archerInRange = TypeError archerInRange.
Proof.
  destruct (clashPair_throws_iff archerInRange 0 1
              (newArcher (mkVector2D 400 300) player)
              (newKnight (mkVector2D 450 300) enemy))
    as (_ & H & _); [reflexivity|reflexivity|reflexivity|discriminate|].
  apply H. split; [|reflexivity].
  apply distanceTo_lt_iff. unfold distance2; simpl. lra.
Defined.
End Collisions.

(** *** What the phases of a tick keep of the units *)

Section TickUnitFrames.
Context {A : Type} (f : Unit -> A).
Hypothesis f_position : forall u p, f (Unit_with_position u p) = f u.
Hypothesis f_velocity : forall u v, f (Unit_with_velocity u v) = f u.
Hypothesis f_facing : forall u z, f (Unit_with_facing u z) = f u.
Hypothesis f_target : forall u t, f (Unit_with_target u t) = f u.
Hypothesis f_lastAttack : forall u t, f (Unit_with_lastAttack u t) = f u.
Hypothesis f_animationTime :
  forall u t, f (Unit_with_animationTime u t) = f u.
Hypothesis f_health : forall u h a, f (Unit_with_health u h a) = f u.

Lemma sameUnitsBy_eq (g g' : Game) :
  g_units g' = g_units g -> sameUnitsBy f g g'.
Proof. unfold sameUnitsBy. by intros ->. Qed.

Lemma Game_updateUnits_sameUnitsBy (deltaTime : R) (currentTime : nat -> Z)
    (g : Game) :
  sameUnitsBy f g (final (Game_updateUnits deltaTime currentTime g)).
Proof.
  apply (forIndices_frame (sameUnitsBy f) (sameUnitsBy_refl f)
           (sameUnitsBy_trans f)).
  intros i g' _. by apply Unit_update_sameUnitsBy.
Qed.

Lemma Tower_update_units (currentTime : Z) (k : nat) (g : Game) :
  g_units (Tower_update currentTime k g) = g_units g.
Proof.
  unfold Tower_update, Tower_attemptAttack, Tower_setLastAttack,
    Tower_attack, Tower_findTarget.
  repeat (case_match; simpl; try done).
Qed.

Lemma Game_updateTowers_units (currentTime : nat -> Z) (g : Game) :
  g_units (Game_updateTowers currentTime g) = g_units g.
Proof.
  apply (foldl_frame (fun g g' => g_units g' = g_units g)).
  - done.
  - intros g1 g2 g3 H12 H23. congruence.
  - intros k g' _. apply Tower_update_units.
Qed.

Lemma Game_clashUnits_sameUnitsBy (g : Game) :
  sameUnitsBy f g (final (Game_clashUnits g)).
Proof.
  apply (forIndices_frame (sameUnitsBy f) (sameUnitsBy_refl f)
           (sameUnitsBy_trans f)).
  intros i g' _. unfold Game_clashRow.
  destruct (g_units g' !! i) as [unit1|]; [|done].
  destruct (negb (u_alive unit1)); [done|].
  apply (forIndices_frame (sameUnitsBy f) (sameUnitsBy_refl f)
           (sameUnitsBy_trans f)).
  intros j g'' _. by apply Game_clashPair_sameUnitsBy.
Qed.

Lemma struckBy_attribute (projectile : Projectile) (unit : Unit) :
  f (struckBy projectile unit) = f unit.
Proof.
  unfold struckBy. case_match; [|done]. by apply Unit_takeDamage_attribute.
Qed.

Lemma Game_strikeProjectiles_sameUnitsBy (g : Game) :
  sameUnitsBy f g (Game_strikeProjectiles g).
Proof.
  unfold sameUnitsBy. rewrite Game_strikeProjectiles_units.
  generalize (g_units g) as units.
  induction (g_projectiles g) as [|p rest IH]; intros units; [done|].
  simpl. rewrite IH, Game_strikeUnits_spec. simpl.
  rewrite <- list_fmap_compose. apply list_fmap_ext.
  intros _ u _. apply struckBy_attribute.
Qed.

Lemma Game_checkCollisions_sameUnitsBy (g : Game) :
  sameUnitsBy f g (final (Game_checkCollisions g)).
Proof.
  apply (andThen_frame (sameUnitsBy f) (sameUnitsBy_trans f)).
  - apply Game_clashUnits_sameUnitsBy.
  - intros g'. apply Game_strikeProjectiles_sameUnitsBy.
Qed.

(** From the start of a tick to the end of its collision pass. *)
Lemma Game_beforeCleanup_sameUnitsBy (deltaTime : R)
    (unitTime towerTime : nat -> Z) (g g1 : Game) :
  Game_updateUnits deltaTime unitTime (Game_updateElixir deltaTime g)
  = Normal g1 ->
  sameUnitsBy f g
    (final (Game_checkCollisions
              (Game_updateTowers towerTime
                 (Game_updateProjectiles deltaTime g1)))).
Proof.
  intros H1.
  eapply (sameUnitsBy_trans f); [|apply Game_checkCollisions_sameUnitsBy].
  apply (sameUnitsBy_trans f) with g1.
  - pose proof (Game_updateUnits_sameUnitsBy deltaTime unitTime
                  (Game_updateElixir deltaTime g)) as H.
    rewrite H1 in H. simpl in H.
    eapply (sameUnitsBy_trans f); [|exact H].
    apply sameUnitsBy_eq. unfold Game_updateElixir. by case_match.
  - apply sameUnitsBy_eq. by rewrite Game_updateTowers_units.
Qed.
End TickUnitFrames.

Section Tick.

Lemma Unit_update_normal (deltaTime : R) (currentTime : Z) (i : nat)
    (g : Game) :
  exists g' : Game, Unit_update deltaTime currentTime i g = Normal g'.
Proof.
  unfold Unit_update.
  destruct (g_units g !! i) as [this|]; [|by eexists].
  destruct (negb (u_alive this)); [by eexists|].
  set (g2 := Unit_move deltaTime i (Unit_findTarget i g)).
  destruct (g_units g2 !! i) as [this2|] eqn:H2.
  - destruct (Unit_attemptAttack_cases currentTime i g2 this2 H2)
      as [->|(r & target & _ & _ & [[_ ->]|[_ ->]])]; by eexists.
  - unfold Unit_attemptAttack. rewrite H2. by eexists.
Qed.

Lemma forIndices_normal (Inv : Game -> Prop) (indices : list nat)
    (body : nat -> Game -> completion) :
  (forall i g, Inv g -> exists g', body i g = Normal g' /\ Inv g') ->
  forall g, Inv g ->
    exists g', forIndices indices body g = Normal g' /\ Inv g'.
Proof.
  intros Hbody. induction indices as [|i rest IH]; intros g Hg; simpl.
  { by exists g. }
  destruct (Hbody i g Hg) as (g1 & -> & H1). simpl. by apply IH.
Qed.

Lemma Game_updateUnits_normal (deltaTime : R) (currentTime : nat -> Z)
    (g : Game) :
  exists g' : Game, Game_updateUnits deltaTime currentTime g = Normal g'.
Proof.
  destruct (forIndices_normal (fun _ => True) (seq 0 (length (g_units g)))
              (fun i => Unit_update deltaTime (currentTime i) i))
    with (g := g) as (g' & Hg' & _); [|done|by exists g'].
  intros i g0 _.
  destruct (Unit_update_normal deltaTime (currentTime i) i g0) as [g' ->].
  by exists g'.
Qed.

(** A tick, cut at the point up to which it cannot throw. *)
Lemma Game_update_phases (deltaTime : R) (unitTime towerTime : nat -> Z)
    (g : Game) :
  exists g1 : Game,
    Game_updateUnits deltaTime unitTime (Game_updateElixir deltaTime g)
    = Normal g1
    /\ Game_update deltaTime unitTime towerTime g
       = Game_checkCollisions
           (Game_updateTowers towerTime (Game_updateProjectiles deltaTime g1))
         >>> (fun g => Game_checkWinConditions (Game_cleanupEntities g)).
Proof.
  destruct (Game_updateUnits_normal deltaTime unitTime
              (Game_updateElixir deltaTime g)) as [g1 H1].
  exists g1. split; [done|]. unfold Game_update. by rewrite H1.
Qed.

Lemma noneRanged_by_types (g g' : Game) :
  sameUnitsBy u_type g g' -> noneRanged g -> noneRanged g'.
Proof. unfold sameUnitsBy, noneRanged. by intros ->. Qed.

Lemma bothTowers_by_teams (g g' : Game) :
  sameTowersBy t_team g g' -> bothTowers g -> bothTowers g'.
Proof.
  intros Hsame [(kp & tp & Hp & Hpt) (ke & te & He & Het)].
  assert (Hlookup : forall k t, g_towers g !! k = Some t ->
            exists t', g_towers g' !! k = Some t' /\ t_team t' = t_team t).
  { intros k t Hk.
    assert (Hf : (t_team <$> g_towers g') !! k = Some (t_team t)).
    { rewrite Hsame, list_lookup_fmap, Hk. done. }
    rewrite list_lookup_fmap in Hf.
    destruct (g_towers g' !! k) as [t'|]; [|done].
    exists t'. split; [done|]. by injection Hf. }
  destruct (Hlookup kp tp Hp) as (tp' & Hp' & Hpt').
  destruct (Hlookup ke te He) as (te' & He' & Het').
  split; [exists kp, tp'|exists ke, te']; split; congruence.
Qed.

Lemma Unit_attack_melee_normal (i : nat) (r : TargetRef) (game : bool)
    (g : Game) :
  noneRanged g ->
  exists g' : Game, Unit_attack i r game g = Normal g' /\ noneRanged g'.
Proof.
  intros Hn.
  assert (Hframe : sameUnitsBy u_type g (final (Unit_attack i r game g)))
    by by apply Unit_attack_sameUnitsBy.
  assert (Hnormal : exists g', Unit_attack i r game g = Normal g').
  { unfold Unit_attack.
    destruct (g_units g !! i) as [this|] eqn:Hthis; [|by eexists].
    assert (Hmelee : isRanged (u_type this) = false).
    { unfold noneRanged in Hn. rewrite Forall_forall in Hn. apply Hn.
      apply list_elem_of_fmap. exists this. split; [done|].
      by eapply list_elem_of_lookup_2. }
    rewrite Hmelee. by eexists. }
  destruct Hnormal as [g' Hg']. exists g'. split; [done|].
  rewrite Hg' in Hframe. by apply (noneRanged_by_types g).
Qed.

Lemma Game_clashPair_normal (i j : nat) (g : Game) :
  noneRanged g ->
  exists g' : Game, Game_clashPair i j g = Normal g' /\ noneRanged g'.
Proof.
  intros Hn. unfold Game_clashPair.
  destruct (g_units g !! i) as [unit1|]; [|by exists g].
  destruct (g_units g !! j) as [unit2|]; [|by exists g].
  destruct (negb (u_alive unit2) || Team_eqb (u_team unit1) (u_team unit2));
    [by exists g|].
  cbv zeta.
  assert (Hfirst : exists g1,
            (if Rltb (Vec.distanceTo (u_position unit1) (u_position unit2))
                  (u_attackRange unit1)
             then Unit_attack i (UnitRef j) false g else Normal g)
            = Normal g1 /\ noneRanged g1).
  { destruct (Rltb _ _); [|by exists g].
    by apply Unit_attack_melee_normal. }
  destruct Hfirst as (g1 & -> & Hn1). simpl.
  destruct (Rltb _ _); [|by exists g1].
  by apply Unit_attack_melee_normal.
Qed.

Lemma Game_clashUnits_normal (g : Game) :
  noneRanged g ->
  exists g' : Game, Game_clashUnits g = Normal g' /\ noneRanged g'.
Proof.
  unfold Game_clashUnits. apply forIndices_normal.
  intros i g0 Hn. unfold Game_clashRow.
  destruct (g_units g0 !! i) as [unit1|]; [|by exists g0].
  destruct (negb (u_alive unit1)); [by exists g0|].
  apply forIndices_normal; [|done].
  intros j g1. apply Game_clashPair_normal.
Qed.

Lemma Game_checkWinConditions_normal (g : Game) :
  bothTowers g -> exists g' : Game, Game_checkWinConditions g = Normal g'.
Proof.
  intros [(kp & tp & Hp & Hpt) (ke & te & He & Het)].
  unfold Game_checkWinConditions.
  pose proof (findIndex_spec (fun t => Team_eqb (t_team t) player)
                (g_towers g)) as Hfp.
  pose proof (findIndex_spec (fun t => Team_eqb (t_team t) enemy)
                (g_towers g)) as Hfe.
  destruct (findIndex (fun t => Team_eqb (t_team t) player) (g_towers g))
    as [k1|]; simpl.
  2:{ specialize (Hfp kp tp Hp). simpl in Hfp. rewrite Hpt in Hfp. done. }
  destruct Hfp as (t1 & -> & _).
  destruct (negb (t_alive t1)); [by eexists|].
  destruct (findIndex (fun t => Team_eqb (t_team t) enemy) (g_towers g))
    as [k2|]; simpl.
  2:{ specialize (Hfe ke te He). simpl in Hfe. rewrite Het in Hfe. done. }
  destruct Hfe as (t2 & -> & _).
  destruct (negb (t_alive t2)); by eexists.
Qed.

(** The towers and the units at the start of the collision pass of a
    tick. *)
Lemma Game_beforeClash_sameTowersBy {B : Type} (f : Tower -> B)
    (deltaTime : R) (unitTime towerTime : nat -> Z) (g g1 : Game) :
  (forall t tg, f (Tower_with_target t tg) = f t) ->
  (forall t time, f (Tower_with_lastAttack t time) = f t) ->
  (forall t h a, f (Tower_with_health t h a) = f t) ->
  Game_updateUnits deltaTime unitTime (Game_updateElixir deltaTime g)
  = Normal g1 ->
  sameTowersBy f g
    (Game_updateTowers towerTime (Game_updateProjectiles deltaTime g1)).
Proof.
  intros Hf1 Hf2 Hf3 H1.
  apply (sameTowersBy_trans f) with (Game_updateElixir deltaTime g).
  { unfold Game_updateElixir. by case_match. }
  apply (sameTowersBy_trans f) with g1.
  { assert (H : sameTowersBy f (Game_updateElixir deltaTime g)
                  (final (Game_updateUnits deltaTime unitTime
                            (Game_updateElixir deltaTime g)))).
    { apply (forIndices_frame (sameTowersBy f) (sameTowersBy_refl f)
               (sameTowersBy_trans f)).
      intros i g0 _. by apply Unit_update_sameTowersBy. }
    by rewrite H1 in H. }
  apply (sameTowersBy_trans f) with (Game_updateProjectiles deltaTime g1);
    [done|].
  by apply Game_updateTowers_sameTowersBy.
Qed.

Lemma Game_beforeClash_sameUnitsBy {B : Type} (f : Unit -> B)
    (deltaTime : R) (unitTime towerTime : nat -> Z) (g g1 : Game) :
  (forall u p, f (Unit_with_position u p) = f u) ->
  (forall u v, f (Unit_with_velocity u v) = f u) ->
  (forall u z, f (Unit_with_facing u z) = f u) ->
  (forall u t, f (Unit_with_target u t) = f u) ->
  (forall u t, f (Unit_with_lastAttack u t) = f u) ->
  (forall u t, f (Unit_with_animationTime u t) = f u) ->
  (forall u h a, f (Unit_with_health u h a) = f u) ->
  Game_updateUnits deltaTime unitTime (Game_updateElixir deltaTime g)
  = Normal g1 ->
  sameUnitsBy f g
    (Game_updateTowers towerTime (Game_updateProjectiles deltaTime g1)).
Proof.
  intros Hf1 Hf2 Hf3 Hf4 Hf5 Hf6 Hf7 H1.
  apply (sameUnitsBy_trans f) with g1.
  - assert (H : sameUnitsBy f (Game_updateElixir deltaTime g)
                  (final (Game_updateUnits deltaTime unitTime
                            (Game_updateElixir deltaTime g))))
      by by apply Game_updateUnits_sameUnitsBy.
    rewrite H1 in H. simpl in H.
    eapply (sameUnitsBy_trans f); [|exact H].
    apply sameUnitsBy_eq. unfold Game_updateElixir. by case_match.
  - apply sameUnitsBy_eq. by rewrite Game_updateTowers_units.
Qed.

(** The towers at the win check of a tick whose collision pass
    completes. *)
Lemma bothTowers_at_win_check (g g2 g3 : Game) :
  sameTowersBy t_team g g2 -> Game_clashUnits g2 = Normal g3 ->
  bothTowers g ->
  bothTowers (Game_cleanupEntities (Game_strikeProjectiles g3)).
Proof.
  intros H2 H3 Hb. apply (bothTowers_by_teams g); [|done].
  apply (sameTowersBy_trans t_team) with g2; [done|].
  apply sameTowersBy_eq. simpl.
  rewrite (Game_strikeProjectiles_towers g3).
  pose proof (Game_clashUnits_towers g2) as H. by rewrite H3 in H.
Qed.

(** A tick without ranged units. *)
Lemma Game_update_melee_normal (deltaTime : R)
    (unitTime towerTime : nat -> Z) (g : Game) :
  noneRanged g -> bothTowers g ->
  exists g' : Game,
    Game_update deltaTime unitTime towerTime g = Normal g'
    /\ noneRanged g' /\ bothTowers g'.
Proof.
  intros Hn Hb.
  destruct (Game_update_phases deltaTime unitTime towerTime g)
    as (g1 & H1 & Hphases).
  set (g2 := Game_updateTowers towerTime
               (Game_updateProjectiles deltaTime g1)) in *.
  assert (Hteams : sameTowersBy t_team g
                     (final (Game_update deltaTime unitTime towerTime g)))
    by by apply Game_update_sameTowersBy.
  assert (Hn2 : noneRanged g2).
  { apply (noneRanged_by_types g); [|done].
    by apply (Game_beforeClash_sameUnitsBy u_type) with unitTime. }
  destruct (Game_clashUnits_normal g2 Hn2) as (g3 & H3 & Hn3).
  set (g4 := Game_cleanupEntities (Game_strikeProjectiles g3)).
  assert (Hb4 : bothTowers g4).
  { apply (bothTowers_at_win_check g g2 g3); [|done|done].
    by apply (Game_beforeClash_sameTowersBy t_team) with unitTime. }
  destruct (Game_checkWinConditions_normal g4 Hb4) as [g' Hg'].
  exists g'.
  assert (Hupdate : Game_update deltaTime unitTime towerTime g = Normal g').
  { rewrite Hphases. unfold Game_checkCollisions. rewrite H3. done. }
  split; [done|]. split.
  - assert (Hu : g_units g' = g_units g4).
    { revert Hg'. unfold Game_checkWinConditions.
      repeat case_match; try done; by intros [= <-]. }
    unfold noneRanged. rewrite Hu. unfold g4. simpl.
    rewrite Forall_fmap. apply Forall_filter_keeps.
    rewrite <- Forall_fmap.
    assert (Hn3' : noneRanged (Game_strikeProjectiles g3)).
    { apply (noneRanged_by_types g3); [|done].
      by apply Game_strikeProjectiles_sameUnitsBy. }
    exact Hn3'.
  - apply (bothTowers_by_teams g); [|done]. by rewrite Hupdate in Hteams.
Qed.

(** X13.  The update of the units never throws.  A tick of a game that
    has a tower of each team and no archer or wizard among its units
    completes normally, and leaves such a game again.  When a tick of a
    game with a tower of each team throws, it is the unit-against-unit
    loop of the collision pass that throws, and the game is left as
    that loop left it: without the projectile pass, the cleanup and the
    win check of that tick. *)
Theorem tick_without_ranged_units_completes (deltaTime : R)
    (unitTime towerTime : nat -> Z) (g : Game) :
  (exists g1 : Game, Game_updateUnits deltaTime unitTime g = Normal g1)
  /\ (noneRanged g -> bothTowers g ->
      exists g' : Game,
        Game_update deltaTime unitTime towerTime g = Normal g'
        /\ noneRanged g' /\ bothTowers g')
  /\ (bothTowers g ->
      forall g' : Game,
        Game_update deltaTime unitTime towerTime g = TypeError g' ->
        exists g2 : Game,
          Game_clashUnits g2 = TypeError g'
          /\ towerConstants <$> g_towers g2 = towerConstants <$> g_towers g
          /\ unitConstants <$> g_units g2 = unitConstants <$> g_units g).
Proof.
  split; [apply Game_updateUnits_normal|].
  split; [apply Game_update_melee_normal|].
  destruct (Game_update_phases deltaTime unitTime towerTime g)
    as (g1 & H1 & Hphases).
  set (g2 := Game_updateTowers towerTime
               (Game_updateProjectiles deltaTime g1)) in *.
  intros Hb g' Hthrow. exists g2.
  split; [|split].
  2:{ by apply (Game_beforeClash_sameTowersBy towerConstants)
        with unitTime. }
  2:{ by apply (Game_beforeClash_sameUnitsBy unitConstants) with unitTime. }
  rewrite Hphases in Hthrow. unfold Game_checkCollisions in Hthrow.
  destruct (Game_clashUnits g2) as [g3|g3] eqn:H3; simpl in Hthrow;
    [|congruence].
  exfalso.
  assert (Hb4 : bothTowers
                  (Game_cleanupEntities (Game_strikeProjectiles g3))).
  { apply (bothTowers_at_win_check g g2 g3); [|done|done].
    by apply (Game_beforeClash_sameTowersBy t_team) with unitTime. }
  destruct (Game_checkWinConditions_normal _ Hb4) as [g'' Hg''].
  congruence.
Qed.

Lemma tick_without_ranged_units_completes_witness :
  exists g' : Game,
    Game_update 0.016 (stillClock 1000) (stillClock 1000) twoKnights
    = Normal g'.
Proof.
  destruct (tick_without_ranged_units_completes 0.016 (stillClock 1000)
              (stillClock 1000) twoKnights) as (_ & H & _).
  destruct H as (g' & Hg' & _).
  - unfold noneRanged; simpl. by repeat constructor.
  - split; [exists 0%nat|exists 1%nat]; eexists; split; reflexivity.
  - by exists g'.
Defined.
End Tick.

Section TickOutcome.

Lemma Game_checkWinConditions_lists (g : Game) :
  g_units (final (Game_checkWinConditions g)) = g_units g
  /\ g_projectiles (final (Game_checkWinConditions g)) = g_projectiles g.
Proof. unfold Game_checkWinConditions. split; frame_cases. Qed.

(** X14.  A tick spawns no unit and, when it completes, removes exactly
    the dead: the unit list never grows in a tick; after a tick that
    completes normally every unit and every projectile of the game is
    alive, and every unit is one that was there before the tick, with
    its type, team, maximal health, damage, speed, range, radius and
    cooldown. *)
Theorem tick_removes_the_dead (deltaTime : R)
    (unitTime towerTime : nat -> Z) (g : Game) :
  let c := Game_update deltaTime unitTime towerTime g in
  length (g_units (final c)) <= length (g_units g)
  /\ forall g' : Game, c = Normal g' ->
       Forall (fun u => u_alive u = true) (g_units g')
       /\ Forall (fun p => p_alive p = true) (g_projectiles g')
       /\ forall (i : nat) (u' : Unit),
            g_units g' !! i = Some u' ->
            exists (j : nat) (u : Unit),
              g_units g !! j = Some u
              /\ unitConstants u' = unitConstants u.
Proof.
  intros c. unfold c.
  destruct (Game_update_phases deltaTime unitTime towerTime g)
    as (g1 & H1 & ->).
  set (g2 := Game_updateTowers towerTime
               (Game_updateProjectiles deltaTime g1)).
  assert (Hsame : sameUnitsBy unitConstants g
                    (final (Game_checkCollisions g2))).
  { by apply (Game_beforeCleanup_sameUnitsBy unitConstants) with unitTime. }
  assert (Hlength : length (g_units (final (Game_checkCollisions g2)))
                    = length (g_units g)).
  { unfold sameUnitsBy in Hsame.
    by rewrite <- (length_fmap unitConstants), Hsame, length_fmap. }
  destruct (Game_checkCollisions g2) as [g3|g3]; simpl in *.
  2:{ split; [lia|]. intros g' [=]. }
  destruct (Game_checkWinConditions_lists (Game_cleanupEntities g3))
    as [Hunits Hprojectiles].
  split.
  { rewrite Hunits. simpl. rewrite <- Hlength. apply length_filter. }
  intros g' Hg'. rewrite Hg' in Hunits, Hprojectiles. simpl in *.
  rewrite Hunits, Hprojectiles.
  split; [|split].
  - apply Forall_forall. intros u Hu.
    by apply list_elem_of_filter in Hu as [Hu _].
  - apply Forall_forall. intros p Hp.
    by apply list_elem_of_filter in Hp as [Hp _].
  - intros i u' Hu'.
    apply list_elem_of_lookup_2, list_elem_of_filter in Hu' as [_ Hin].
    apply list_elem_of_lookup_1 in Hin as [j Hj].
    assert (Hf : (unitConstants <$> g_units g) !! j
                 = Some (unitConstants u')).
    { rewrite <- Hsame, list_lookup_fmap, Hj. done. }
    rewrite list_lookup_fmap in Hf.
    destruct (g_units g !! j) as [u|] eqn:Hu; [|done].
    exists j, u. split; [done|]. simpl in Hf. congruence.
Qed.

Lemma tick_removes_the_dead_witness :
  exists g' : Game,
    Game_update 0.016 (stillClock 1000) (stillClock 1000) fallenKnight
    = Normal g'
    /\ u_alive <$> g_units fallenKnight = [false]
    /\ Forall (fun u => u_alive u = true) (g_units g').
Proof.
  assert (Htick : exists g' : Game,
            Game_update 0.016 (stillClock 1000) (stillClock 1000)
              fallenKnight = Normal g').
  { destruct (Game_update_melee_normal 0.016 (stillClock 1000)
                (stillClock 1000) fallenKnight) as (g' & Hg' & _).
    - unfold noneRanged; simpl. by repeat constructor.
    - split; [exists 0%nat|exists 1%nat]; eexists; split; reflexivity.
    - by exists g'. }
  destruct Htick as [g' Htick]. exists g'.
  split; [exact Htick|]. split; [reflexivity|].
  destruct (tick_removes_the_dead 0.016 (stillClock 1000)
              (stillClock 1000) fallenKnight) as [_ H].
  by destruct (H g' Htick) as [Halive _].
Defined.

(** The outcome of the win check in a game with one tower of each
    team. *)
Lemma Game_checkWinConditions_spec (g : Game) (kp ke : nat)
    (playerTower enemyTower : Tower) :
  towersOnePerTeam g ->
  g_towers g !! kp = Some playerTower -> t_team playerTower = player ->
  g_towers g !! ke = Some enemyTower -> t_team enemyTower = enemy ->
  Game_checkWinConditions g
  = Normal (if negb (t_alive playerTower) then Game_endGame defeat g
            else if negb (t_alive enemyTower)
                 then Game_endGame victory g
                 else g).
Proof.
  intros Hone Hp Hpt He Het.
  unfold Game_checkWinConditions.
  pose proof (findIndex_spec (fun t => Team_eqb (t_team t) player)
                (g_towers g)) as Hfp.
  pose proof (findIndex_spec (fun t => Team_eqb (t_team t) enemy)
                (g_towers g)) as Hfe.
  destruct (findIndex (fun t => Team_eqb (t_team t) player) (g_towers g))
    as [k1|]; simpl.
  2:{ specialize (Hfp kp playerTower Hp). simpl in Hfp.
      rewrite Hpt in Hfp. done. }
  destruct Hfp as (t1 & H1 & Ht1). apply Team_eqb_eq in Ht1.
  assert (k1 = kp) as -> by (apply (Hone k1 kp t1 playerTower); congruence).
  rewrite Hp. destruct (negb (t_alive playerTower)); [done|].
  destruct (findIndex (fun t => Team_eqb (t_team t) enemy) (g_towers g))
    as [k2|]; simpl.
  2:{ specialize (Hfe ke enemyTower He). simpl in Hfe.
      rewrite Het in Hfe. done. }
  destruct Hfe as (t2 & H2 & Ht2). apply Team_eqb_eq in Ht2.
  assert (k2 = ke) as -> by (apply (Hone k2 ke t2 enemyTower); congruence).
  rewrite He. by destruct (negb (t_alive enemyTower)).
Qed.

(** X15.  In a game with one tower of each team, [checkWinConditions]
    ends the game with a defeat when the tower of the human side is
    destroyed, whatever the state of the enemy tower, with a victory
    when only the enemy tower is destroyed, and leaves the game as it is
    when both stand; ending the game clears [running].  In every game
    reached from the constructor the check finds both towers and does
    not throw. *)
Theorem checkWinConditions_verdict :
  (forall (g : Game) (kp ke : nat) (playerTower enemyTower : Tower),
     towersOnePerTeam g ->
     g_towers g !! kp = Some playerTower -> t_team playerTower = player ->
     g_towers g !! ke = Some enemyTower -> t_team enemyTower = enemy ->
     Game_checkWinConditions g
     = Normal (if negb (t_alive playerTower) then Game_endGame defeat g
               else if negb (t_alive enemyTower)
                    then Game_endGame victory g
                    else g)
     /\ g_running (Game_endGame defeat g) = false
     /\ g_running (Game_endGame victory g) = false)
  /\ (forall (canvas0 : Canvas) (containerWidth : R) (steps : list Step),
        exists g' : Game,
          Game_checkWinConditions
            (Game_run steps (Game_new canvas0 containerWidth))
          = Normal g').
Proof.
  split.
  - intros g kp ke playerTower enemyTower Hone Hp Hpt He Het.
    split; [|done]. by apply (Game_checkWinConditions_spec g kp ke).
  - intros canvas0 containerWidth steps.
    apply Game_checkWinConditions_normal.
    apply (bothTowers_by_teams (Game_new canvas0 containerWidth)).
    + by apply Game_run_sameTowersBy.
    + split; [exists 0%nat|exists 1%nat]; eexists; split; reflexivity.
Qed.

Lemma checkWinConditions_verdict_witness :
  Game_checkWinConditions freshGame = Normal freshGame.
Proof.
  destruct checkWinConditions_verdict as [H _].
  destruct (H freshGame 0%nat 1%nat
              (Tower_new (mkVector2D (800 / 2) (500 - 50)) player)
              (Tower_new (mkVector2D (800 / 2) 50) enemy))
    as [Hverdict _];
    [apply Game_new_towersOnePerTeam|reflexivity|reflexivity|reflexivity
    |reflexivity|exact Hverdict].
Defined.

(** X16.  The towers of a game are fixed: over every sequence of
    frames, inputs and enemy spawns each tower keeps its position,
    team, maximal health, damage, range, radius and cooldown, and no
    tower is added or removed.  In a game reached from the constructor
    they are the tower of the human side at the bottom centre of the
    resized canvas and the enemy tower at the top centre, with 2500
    maximal health, 200 damage, range 150, radius 30 and an 800 ms
    cooldown. *)
Theorem towers_fixed_over_runs (steps : list Step) :
  (forall g : Game,
     towerConstants <$> g_towers (Game_run steps g)
     = towerConstants <$> g_towers g)
  /\ (forall (canvas0 : Canvas) (containerWidth : R),
        towerConstants
        <$> g_towers (Game_run steps (Game_new canvas0 containerWidth))
        = [ (mkVector2D (containerWidth / 2) (500 - 50), player,
             2500%Z, 200%Z, 150%R, 30%R, 800%Z);
            (mkVector2D (containerWidth / 2) 50, enemy,
             2500%Z, 200%Z, 150%R, 30%R, 800%Z) ]).
Proof.
  assert (H : forall g : Game,
            towerConstants <$> g_towers (Game_run steps g)
            = towerConstants <$> g_towers g).
  { intros g. by apply (Game_run_sameTowersBy towerConstants). }
  split; [exact H|]. intros canvas0 containerWidth. by rewrite H.
Qed.
End TickOutcome.

(** *** The health of the towers over time *)

Section TowersDecay.
Local Open Scope Z_scope.

Lemma towerDecays_lookup (l l' : list Tower) :
  Forall2 towerDecays l l'
  <-> length l = length l'
      /\ forall (k : nat) (t t' : Tower),
           l !! k = Some t -> l' !! k = Some t' -> towerDecays t t'.
Proof. apply Forall2_same_length_lookup. Qed.

Lemma towersDecay_refl (g : Game) : towersDecay g g.
Proof.
  intros Hwf. split; [done|]. apply towerDecays_lookup. split; [done|].
  intros k t t' Ht Ht'. assert (t' = t) as -> by congruence. by split.
Qed.

Lemma towersDecay_trans (g1 g2 g3 : Game) :
  towersDecay g1 g2 -> towersDecay g2 g3 -> towersDecay g1 g3.
Proof.
  intros H12 H23 Hwf. destruct (H12 Hwf) as [Hwf2 H2].
  destruct (H23 Hwf2) as [Hwf3 H3]. split; [done|].
  eapply Forall2_trans; [|exact H2|exact H3].
  intros t1 t2 t3 [Hh12 Ha12] [Hh23 Ha23]. split; [lia|tauto].
Qed.

(** A piece of the program that keeps the health and the liveness of
    the towers. *)
Lemma towersDecay_vitals (g g' : Game) :
  keepsWellFormed g g' -> sameTowersBy towerVitals g g' -> towersDecay g g'.
Proof.
  intros Hkeeps Hsame Hwf. split; [by apply Hkeeps|].
  unfold sameTowersBy in Hsame.
  apply towerDecays_lookup. split.
  { by rewrite <- (length_fmap towerVitals), <- Hsame, length_fmap. }
  intros k t t' Ht Ht'.
  assert (Hv : towerVitals t' = towerVitals t).
  { assert (H : (towerVitals <$> g_towers g') !! k
                = (towerVitals <$> g_towers g) !! k) by by rewrite Hsame.
    rewrite !list_lookup_fmap, Ht, Ht' in H. simpl in H. congruence. }
  unfold towerVitals in Hv. injection Hv as Hh Ha.
  split; [lia|congruence].
Qed.

Lemma Tower_takeDamage_decays (t : Tower) (amount : Z) :
  Tower_ok t -> 0 <= amount -> towerDecays t (Tower_takeDamage t amount).
Proof.
  intros (Hintact & _) Hamount. unfold intact in Hintact. simpl in Hintact.
  split.
  - rewrite Tower_takeDamage_health. destruct (t_alive t); lia.
  - intros Hdead. rewrite Tower_takeDamage_alive, Hdead. done.
Qed.

Lemma Unit_update_decay (deltaTime : R) (currentTime : Z) (i : nat)
    (g : Game) :
  towersDecay g (final (Unit_update deltaTime currentTime i g)).
Proof.
  intros Hwf. split; [by apply Unit_update_ok|].
  destruct (g_units g !! i) as [this|] eqn:Hthis.
  2:{ unfold Unit_update. rewrite Hthis. by apply towersDecay_refl. }
  destruct (Unit_update_towers deltaTime currentTime i g this Hthis)
    as [->|(_ & k & t & Ht & ->)].
  { by apply towersDecay_refl. }
  apply towerDecays_lookup. split; [by rewrite length_insert|].
  intros k' t1 t2 H1 H2.
  destruct (decide (k = k')) as [<-|Hne].
  - rewrite list_lookup_insert_eq in H2 by (by eapply lookup_lt_Some).
    assert (t1 = t) as -> by congruence. injection H2 as <-.
    apply Tower_takeDamage_decays.
    + by apply (wellFormed_tower g k).
    + by destruct (wellFormed_unit g i this Hwf Hthis) as (_ & Hd & _).
  - rewrite list_lookup_insert_ne in H2 by done.
    assert (t2 = t1) as -> by congruence. by split.
Qed.

Lemma Game_update_decay (deltaTime : R) (unitTime towerTime : nat -> Z)
    (g : Game) :
  towersDecay g (final (Game_update deltaTime unitTime towerTime g)).
Proof.
  unfold Game_update.
  apply (andThen_frame towersDecay towersDecay_trans).
  - apply towersDecay_trans with (Game_updateElixir deltaTime g).
    { apply towersDecay_vitals.
      - unfold keepsWellFormed, wellFormed, Game_updateElixir. by case_match.
      - unfold Game_updateElixir. by case_match. }
    apply (forIndices_frame towersDecay towersDecay_refl towersDecay_trans).
    intros i g' _. apply Unit_update_decay.
  - intros g0.
    apply (andThen_frame towersDecay towersDecay_trans).
    + eapply towersDecay_trans.
      2:{ apply towersDecay_vitals; [apply Game_checkCollisions_ok|].
          apply towerVitals_kept, Game_checkCollisions_towers. }
      apply towersDecay_trans with (Game_updateProjectiles deltaTime g0).
      { apply towersDecay_vitals; [|done].
        intros (Hunits & Htowers & Hprojectiles).
        split; [done|]. split; [done|]. simpl.
        apply Forall_fmap. eapply Forall_impl; [exact Hprojectiles|].
        by intros p Hp. }
      apply (foldl_frame towersDecay towersDecay_refl towersDecay_trans).
      intros k g' _. apply towersDecay_vitals; [apply Tower_update_ok|].
      by apply Tower_update_sameTowersBy.
    + intros g1.
      apply towersDecay_trans with (Game_cleanupEntities g1).
      { apply towersDecay_vitals; [|done].
        intros (Hunits & Htowers & Hprojectiles).
        split; [|split; [done|]]; simpl; by apply Forall_filter_keeps. }
      apply towersDecay_vitals.
      * intros Hg. unfold Game_checkWinConditions. repeat case_match; done.
      * apply towerVitals_kept, Game_checkWinConditions_towers.
Qed.

Lemma Game_step_decay (s : Step) (g : Game) : towersDecay g (Game_step s g).
Proof.
  destruct s as [deltaTime unitTime towerTime| | | | | | |];
    [apply Game_update_decay|..];
    (apply towersDecay_vitals; [apply Game_step_wellFormed|]);
    apply towerVitals_kept; unfold towersKept; simpl; try done.
  - unfold Game_handleMouseUp, Game_tryPlaceUnit.
    repeat case_match; spawn_cases; done.
  - unfold Game_handleTouchEnd, Game_tryPlaceUnit.
    repeat case_match; spawn_cases; done.
  - case_match; spawn_cases; done.
Qed.

Lemma Game_run_decay (steps : list Step) (g : Game) :
  towersDecay g (Game_run steps g).
Proof.
  apply (foldl_frame towersDecay towersDecay_refl towersDecay_trans).
  intros s g' _. apply Game_step_decay.
Qed.

(** X17.  Nothing heals a tower and nothing rebuilds it.  Between any
    two moments of a game reached from the constructor, whatever frames,
    inputs and enemy spawns lie between them, the health of each tower
    has not grown, it stays within 0 and 2500, and a tower that was
    destroyed is still destroyed, with a health of 0. *)
Theorem towers_never_heal (canvas0 : Canvas) (containerWidth : R)
    (steps more : list Step) (k : nat) (t t' : Tower) :
  let g := Game_run steps (Game_new canvas0 containerWidth) in
  let g' := Game_run more g in
  g_towers g !! k = Some t -> g_towers g' !! k = Some t' ->
  0 <= t_health t' <= t_health t
  /\ t_health t <= 2500
  /\ (t_alive t = false -> t_alive t' = false /\ t_health t' = 0).
Proof.
  intros g g' Ht Ht'.
  pose proof (Game_run_wellFormed canvas0 containerWidth steps) as Hwf.
  fold g in Hwf.
  destruct (Game_run_decay more g Hwf) as [Hwf' Hdecay].
  fold g' in Hwf', Hdecay.
  apply towerDecays_lookup in Hdecay as [_ Hdecay].
  destruct (Hdecay k t t' Ht Ht') as [Hhealth Hdead].
  destruct (wellFormed_tower g' k t' Hwf' Ht') as (Hintact' & _).
  unfold intact in Hintact'. simpl in Hintact'.
  assert (Hstart : t_health t <= 2500).
  { pose proof (Game_new_wellFormed canvas0 containerWidth) as Hwf0.
    destruct (Game_run_decay steps (Game_new canvas0 containerWidth) Hwf0)
      as [_ Hdecay0]. fold g in Hdecay0.
    apply towerDecays_lookup in Hdecay0 as [Hlen Hdecay0].
    destruct (g_towers (Game_new canvas0 containerWidth) !! k)
      as [t0|] eqn:Ht0.
    - destruct (Hdecay0 k t0 t Ht0 Ht) as [Hh _].
      destruct k as [|[|k]]; simpl in Ht0; [| |done];
        injection Ht0 as <-; simpl in Hh; lia.
    - apply lookup_ge_None in Ht0. apply lookup_lt_Some in Ht. lia. }
  split; [destruct (t_alive t'); lia|]. split; [done|].
  intros Hd. specialize (Hdead Hd). rewrite Hdead in Hintact'. done.
Qed.

Lemma towers_never_heal_witness :
  let t := Tower_new (mkVector2D (800 / 2) (500 - 50)) player in
  (0 <= t_health t <= 2500)%Z /\ (t_alive t = false -> t_health t = 0%Z).
Proof.
  intros t.
  destruct (towers_never_heal (mkCanvas 800 600) 800
              [EnemySpawn "knight" (mkVector2D 400 400)]
              [Select (Some "knight"%string);
               PointerMove (mkVector2D 400 400)]
              0%nat t t)
    as (H & _ & Hdead); [reflexivity|reflexivity|].
  split; [unfold t in *; simpl in *; lia|].
  intros Hd. by destruct (Hdead Hd).
Defined.
End TowersDecay.

(** *** What a tick keeps of the controls *)

Section Controls.

Lemma same_controls_refl (g : Game) : same_controls g g.
Proof. done. Qed.

Lemma same_controls_trans (g1 g2 g3 : Game) :
  same_controls g1 g2 -> same_controls g2 g3 -> same_controls g1 g3.
Proof. unfold same_controls. congruence. Qed.

Lemma Unit_findTarget_controls (i : nat) (g : Game) :
  same_controls g (Unit_findTarget i g).
Proof. unfold same_controls, Unit_findTarget. frame_cases. Qed.

Lemma Unit_move_controls (deltaTime : R) (i : nat) (g : Game) :
  same_controls g (Unit_move deltaTime i g).
Proof. unfold same_controls, Unit_move. frame_cases. Qed.

Lemma Unit_attack_controls (i : nat) (r : TargetRef) (game : bool) (g : Game) :
  same_controls g (final (Unit_attack i r game g)).
Proof.
  unfold same_controls, Unit_attack, Unit_createProjectile, target_takeDamage.
  frame_cases.
Qed.

Lemma Unit_attemptAttack_controls (currentTime : Z) (i : nat) (g : Game) :
  same_controls g (final (Unit_attemptAttack currentTime i g)).
Proof.
  unfold Unit_attemptAttack.
  repeat case_match; try apply same_controls_refl.
  apply (andThen_frame same_controls same_controls_trans).
  - apply Unit_attack_controls.
  - intros g'. unfold same_controls, Unit_setLastAttack. frame_cases.
Qed.

Lemma Unit_update_controls (deltaTime : R) (currentTime : Z) (i : nat)
    (g : Game) :
  same_controls g (final (Unit_update deltaTime currentTime i g)).
Proof.
  unfold Unit_update.
  repeat case_match; try apply same_controls_refl.
  apply (andThen_frame same_controls same_controls_trans).
  - eapply same_controls_trans; [apply Unit_findTarget_controls|].
    eapply same_controls_trans; [apply Unit_move_controls|].
    apply Unit_attemptAttack_controls.
  - intros g'. unfold same_controls, Unit_addAnimationTime. frame_cases.
Qed.

Lemma Game_updateUnits_controls (deltaTime : R) (currentTime : nat -> Z)
    (g : Game) :
  same_controls g (final (Game_updateUnits deltaTime currentTime g)).
Proof.
  apply (forIndices_frame same_controls same_controls_refl same_controls_trans).
  intros i g' _. apply Unit_update_controls.
Qed.

Lemma Tower_update_controls (currentTime : Z) (k : nat) (g : Game) :
  same_controls g (Tower_update currentTime k g).
Proof.
  unfold same_controls, Tower_update, Tower_attemptAttack, Tower_findTarget,
    Tower_setLastAttack, Tower_attack.
  frame_cases.
Qed.

Lemma Game_updateTowers_controls (currentTime : nat -> Z) (g : Game) :
  same_controls g (Game_updateTowers currentTime g).
Proof.
  apply (foldl_frame same_controls same_controls_refl same_controls_trans).
  intros k g' _. apply Tower_update_controls.
Qed.

Lemma Game_clashPair_controls (i j : nat) (g : Game) :
  same_controls g (final (Game_clashPair i j g)).
Proof.
  unfold Game_clashPair.
  repeat case_match; try apply same_controls_refl;
    apply (andThen_frame same_controls same_controls_trans);
    try apply Unit_attack_controls; try apply same_controls_refl;
    intros g'; case_match;
    try apply Unit_attack_controls; apply same_controls_refl.
Qed.

Lemma Game_clashUnits_controls (g : Game) :
  same_controls g (final (Game_clashUnits g)).
Proof.
  apply (forIndices_frame same_controls same_controls_refl same_controls_trans).
  intros i g' _. unfold Game_clashRow.
  repeat case_match; try apply same_controls_refl.
  apply (forIndices_frame same_controls same_controls_refl same_controls_trans).
  intros j g'' _. apply Game_clashPair_controls.
Qed.

Lemma Game_strikeProjectiles_controls (g : Game) :
  same_controls g (Game_strikeProjectiles g).
Proof.
  unfold same_controls, Game_strikeProjectiles.
  by destruct (Game_strikeAll (g_projectiles g) (g_units g)).
Qed.

Lemma Game_checkCollisions_controls (g : Game) :
  same_controls g (final (Game_checkCollisions g)).
Proof.
  apply (andThen_frame same_controls same_controls_trans).
  - apply Game_clashUnits_controls.
  - intros g'. apply Game_strikeProjectiles_controls.
Qed.

Lemma Game_checkWinConditions_controls (g : Game) :
  same_controls g (final (Game_checkWinConditions g)).
Proof. unfold same_controls, Game_checkWinConditions. frame_cases. Qed.

(** The phases of a tick after the first leave the controls alone. *)
Lemma Game_update_controls_after_elixir (deltaTime : R)
    (unitTime towerTime : nat -> Z)
    (g : Game) :
  controls (final (Game_update deltaTime unitTime towerTime g))
  = controls (Game_updateElixir deltaTime g).
Proof.
  unfold Game_update.
  change (same_controls (Game_updateElixir deltaTime g)
            (final (Game_updateUnits deltaTime unitTime
                      (Game_updateElixir deltaTime g) >>>
                    (fun g0 =>
                       Game_checkCollisions
                         (Game_updateTowers towerTime
                            (Game_updateProjectiles deltaTime g0)) >>>
                       (fun g1 =>
                          Game_checkWinConditions
                            (Game_cleanupEntities g1)))))).
  apply (andThen_frame same_controls same_controls_trans).
  - apply Game_updateUnits_controls.
  - intros g0. apply (andThen_frame same_controls same_controls_trans).
    + eapply same_controls_trans; [|apply Game_checkCollisions_controls].
      eapply same_controls_trans; [|apply Game_updateTowers_controls].
      done.
    + intros g1.
      eapply same_controls_trans; [|apply Game_checkWinConditions_controls].
      done.
Qed.

Lemma Game_update_controls (deltaTime : R) (unitTime towerTime : nat -> Z)
    (g : Game) :
  controls (final (Game_update deltaTime unitTime towerTime g)) = controls g.
Proof.
  rewrite Game_update_controls_after_elixir.
  unfold Game_updateElixir. by case_match.
Qed.
End Controls.

(** ** Placement through the UI *)

Section Placement.
Local Open Scope Z_scope.

(** What holds from the selection of a card to the release of the
    pointer: the resource stays at or above an amount that it covered,
    and the selection stays. *)
Lemma dragging_step (card : string) (amount : Z) (s : Step) (g : Game) :
  duringDrag s -> economy_ok g ->
  amount <= g_playerElixir g ->
  g_selectedCard g = Some card -> g_draggingCard g = true ->
  let g' := Game_step s g in
  economy_ok g'
  /\ amount <= g_playerElixir g'
  /\ g_selectedCard g' = Some card /\ g_draggingCard g' = true.
Proof.
  intros Hs Hok Hcost Hcard Hdrag g'.
  split; [by apply Game_step_ok|].
  destruct s as [deltaTime unitTime towerTime| | | | | | |]; try done.
  - unfold g'. simpl.
    pose proof (Game_update_economy deltaTime unitTime towerTime g) as He.
    pose proof (Game_update_controls deltaTime unitTime towerTime g) as Hc.
    unfold economy in He. unfold controls in Hc.
    injection He as He _ _ _ _. injection Hc as Hc1 Hc2 _ _ _ _.
    rewrite He, Hc1, Hc2. split; [|done].
    destruct Hok as (Hmax & Hrate & Hbounds).
    unfold Game_updateElixir. case_match; simpl; lia.
  - unfold g'. simpl. case_match; spawn_cases; done.
Qed.

Lemma dragging_run (card : string) (amount : Z) (steps : list Step) :
  forall g : Game,
    Forall duringDrag steps -> economy_ok g ->
    amount <= g_playerElixir g ->
    g_selectedCard g = Some card -> g_draggingCard g = true ->
    let g' := Game_run steps g in
    economy_ok g'
    /\ amount <= g_playerElixir g'
    /\ g_selectedCard g' = Some card /\ g_draggingCard g' = true.
Proof.
  induction steps as [|s steps IH]; intros g Hsteps Hok Hcost Hcard Hdrag.
  { done. }
  apply Forall_cons in Hsteps as [Hs Hsteps].
  destruct (dragging_step card amount s g Hs Hok Hcost Hcard Hdrag)
    as (Hok' & Hcost' & Hcard' & Hdrag').
  by apply IH.
Qed.

(** X19.  A card that the UI lets the player pick up can be paid for
    when it is dropped, when its type reads an entry of the table of
    the costs.  [startCardDrag] then selects the card in the game only
    when the resource covers the cost of the entry, and leaves the game
    as it is otherwise.  After it has selected the card, whatever
    frames, pointer moves and enemy spawns follow, a release of the
    pointer in the zone of the human side appends one unit, deducts
    exactly the cost, leaves the resource at 0 or more, and clears the
    selection; the unit is of the human side, of the card's type, at the
    point of the release, alive and without a target, with the health,
    damage, speed and range of the entry.  A card whose type names a
    member inherited from [Object.prototype] is selected whatever the
    resource, and its release spawns nothing and deducts nothing. *)
Theorem card_drag_places_unit (g : Game) (unitType : string)
    (steps : list Step) (point : Vector2D) :
  economy_ok g -> unitType <> ""%string ->
  Forall duringDrag steps ->
  inRect point (g_playerZone g) ->
  let g0 := UI_startCardDrag (Some unitType) g in
  let g1 := Game_run steps g0 in
  let g2 := Game_handleMouseUp point g1 in
  (forall unitData : UnitData,
     getUnitData unitType = Some unitData ->
     (cost unitData <= g_playerElixir g ->
      exists unit : Unit,
        g_units g2 = g_units g1 ++ [unit]
        /\ g_playerElixir g2 = g_playerElixir g1 - cost unitData
        /\ 0 <= g_playerElixir g2
        /\ g_selectedCard g2 = None /\ g_draggingCard g2 = false
        /\ Unit_new point unitType player = Some unit
        /\ u_team unit = player /\ u_type unit = unitType
        /\ u_position unit = point
        /\ u_alive unit = true /\ u_target unit = None
        /\ u_health unit = d_health unitData
        /\ u_maxHealth unit = d_health unitData
        /\ u_damage unit = d_damage unitData
        /\ u_speed unit = d_speed unitData
        /\ u_attackRange unit = d_range unitData)
     /\ (g_playerElixir g < cost unitData -> g0 = g))
  /\ (getUnitData unitType = None ->
      g0 = Game_selectCard (Some unitType) g
      /\ g_units g2 = g_units g1
      /\ g_playerElixir g2 = g_playerElixir g1
      /\ g_selectedCard g2 = None /\ g_draggingCard g2 = false).
Proof.
  intros Hok Htype Hsteps Hzone g0 g1 g2.
  assert (Htruthy : truthyCard (Some unitType) = Some unitType).
  { by destruct unitType. }
  assert (Hrelease : forall amount : Z,
    g0 = Game_selectCard (Some unitType) g ->
    amount <= g_playerElixir g ->
    amount <= g_playerElixir g1
    /\ g2 = Game_tryPlaceUnit (Game_with_mouse g1 point false)
    /\ truthyCard (g_selectedCard g1) = Some unitType
    /\ Utils.pointInRect point (g_playerZone g1) = true).
  { intros amount Hg0 Hamount.
    destruct (dragging_run unitType amount steps g0)
      as (Hok1 & Hcost1 & Hcard & Hdrag);
      [done|by rewrite Hg0|by rewrite Hg0|by rewrite Hg0|by rewrite Hg0|].
    fold g1 in Hok1, Hcost1, Hcard, Hdrag.
    assert (Hzone1 : g_playerZone g1 = g_playerZone g).
    { unfold g1. rewrite Game_run_playerZone. by rewrite Hg0. }
    split; [done|]. split.
    - unfold g2, Game_handleMouseUp, placing. simpl.
      by rewrite Hcard, Htruthy, Hdrag.
    - rewrite Hcard, Hzone1. split; [done|].
      by apply pointInRect_inRect. }
  split.
  - intros unitData Hdata. split.
    + intros Hcost.
      assert (Hg0 : g0 = Game_selectCard (Some unitType) g).
      { unfold g0, UI_startCardDrag. simpl. rewrite Hdata.
        by rewrite (proj2 (Z.ltb_ge _ _)) by lia. }
      destruct (Hrelease (cost unitData) Hg0 Hcost)
        as (Hcost1 & -> & Hcard & Hin).
      destruct (Game_spawnUnit_priced unitType point player
                  (Game_with_mouse g1 point false) unitData Hdata)
        as (unit & Hunit & Hspawn).
      exists unit. unfold Game_tryPlaceUnit. simpl.
      rewrite Hcard, Hin, Hdata. simpl.
      rewrite (proj2 (Z.leb_le _ _) Hcost1), Hspawn. simpl.
      split; [done|]. split; [done|]. split; [lia|].
      split; [done|]. split; [done|]. split; [done|].
      destruct (Unit_new_spec _ _ _ _ Hunit)
        as ((Hp & Hty & Hte & Ha & Hh & _ & Htg & _)
            & d' & Hd' & Hm & Hdm & Hs & Hr).
      rewrite Hdata in Hd'. injection Hd' as <-.
      repeat split; congruence.
    + intros Hpoor. unfold g0, UI_startCardDrag. simpl. rewrite Hdata.
      by rewrite (proj2 (Z.ltb_lt _ _) Hpoor).
  - intros Hnone.
    assert (Hg0 : g0 = Game_selectCard (Some unitType) g).
    { unfold g0, UI_startCardDrag. simpl. by rewrite Hnone. }
    split; [exact Hg0|].
    destruct Hok as (Hmax & Hrate & Hbounds).
    destruct (Hrelease 0 Hg0) as (_ & -> & Hcard & Hin); [lia|].
    unfold Game_tryPlaceUnit. simpl.
    rewrite Hcard, Hin, Hnone. simpl. done.
Qed.

Lemma card_drag_places_unit_witness :
  let g1 :=
    Game_run [PointerMove (mkVector2D 400 100)]
      (UI_startCardDrag (Some "giant"%string) freshGame) in
  let named :=
    Game_run [PointerMove (mkVector2D 400 100)]
      (UI_startCardDrag (Some "toString"%string) freshGame) in
  g_units (Game_handleMouseUp (mkVector2D 400 450) g1)
  = g_units g1 ++ [newGiant (mkVector2D 400 450) player]
  /\ g_selectedCard named = Some "toString"%string
  /\ g_units (Game_handleMouseUp (mkVector2D 400 450) named) = g_units named.
Proof.
  intros g1 named. split; [|split; [reflexivity|]].
  - destruct (card_drag_places_unit freshGame "giant"
                [PointerMove (mkVector2D 400 100)] (mkVector2D 400 450))
      as [H _].
    + apply Game_new_ok.
    + discriminate.
    + by repeat constructor.
    + unfold inRect; simpl; lra.
    + destruct (H giantData eq_refl) as [Hplace _].
      destruct Hplace as (unit & Hunits & _ & _ & _ & _ & Hunit & _);
        [simpl; lia|].
      injection Hunit as <-. exact Hunits.
  - destruct (card_drag_places_unit freshGame "toString"
                [PointerMove (mkVector2D 400 100)] (mkVector2D 400 450))
      as [_ H].
    + apply Game_new_ok.
    + discriminate.
    + by repeat constructor.
    + unfold inRect; simpl; lra.
    + destruct (H eq_refl) as (_ & Hunits & _). exact Hunits.
Defined.
End Placement.

(** ** The projectile pass over all projectiles *)

Section ProjectilePass.

Lemma struckBy_dead (projectile : Projectile) (unit : Unit) :
  u_alive unit = false -> struckBy projectile unit = unit.
Proof.
  intros Hdead. unfold struckBy, projectileHits. rewrite Hdead.
  by rewrite andb_false_r.
Qed.

Lemma struckBy_all_dead (projectiles : list Projectile) (unit : Unit) :
  u_alive unit = false ->
  foldl (fun u p => struckBy p u) unit projectiles = unit.
Proof.
  intros Hdead. induction projectiles as [|p rest IH]; [done|].
  simpl. by rewrite struckBy_dead.
Qed.

Lemma Game_strikeAll_lookup (projectiles : list Projectile) :
  forall (units : list Unit) (i : nat) (u : Unit),
    units !! i = Some u ->
    snd (Game_strikeAll projectiles units) !! i
    = Some (foldl (fun u p => struckBy p u) u projectiles).
Proof.
  induction projectiles as [|p rest IH]; intros units i u Hu; [done|].
  rewrite Game_strikeAll_units in *. simpl.
  rewrite <- Game_strikeAll_units. apply IH.
  rewrite Game_strikeUnits_spec. simpl.
  by rewrite list_lookup_fmap, Hu.
Qed.

Lemma Game_strikeAll_lengths (projectiles : list Projectile) :
  forall units : list Unit,
    length (fst (Game_strikeAll projectiles units)) = length projectiles
    /\ length (snd (Game_strikeAll projectiles units)) = length units.
Proof.
  induction projectiles as [|p rest IH]; intros units; [done|].
  simpl. rewrite Game_strikeUnits_spec.
  destruct (Game_strikeAll rest (map (struckBy p) units)) as [ps us] eqn:E.
  specialize (IH (map (struckBy p) units)). rewrite E in IH. simpl in *.
  destruct IH as [-> ->]. by rewrite length_map.
Qed.

(** X18.  The projectile pass of [checkCollisions] over all
    projectiles keeps both lists in length and order, and strikes each
    unit with each projectile in turn, in the order of the projectile
    list: a unit in reach of several projectiles takes the damage of
    each of them in the same pass, until it dies; a later projectile
    sees the unit as the earlier ones left it, so a unit that an
    earlier projectile has killed is not struck again, and a dead unit
    is not touched at all. *)
Theorem projectile_pass_accumulates (projectiles : list Projectile)
    (units : list Unit) :
  let projectiles' := fst (Game_strikeAll projectiles units) in
  let units' := snd (Game_strikeAll projectiles units) in
  length projectiles' = length projectiles
  /\ length units' = length units
  /\ (forall (i : nat) (u : Unit),
        units !! i = Some u ->
        units' !! i = Some (foldl (fun u p => struckBy p u) u projectiles))
  /\ (forall (i : nat) (u : Unit),
        units !! i = Some u -> u_alive u = false -> units' !! i = Some u)
  /\ (forall (p : Projectile) (rest : list Projectile) (u : Unit),
        projectiles = p :: rest -> inReach p u ->
        (u_health u <= p_damage p)%Z ->
        foldl (fun u p => struckBy p u) u projectiles
        = Unit_takeDamage u (p_damage p)).
Proof.
  intros projectiles' units'.
  destruct (Game_strikeAll_lengths projectiles units) as [Hp Hu].
  split; [done|]. split; [done|].
  split; [apply Game_strikeAll_lookup|]. split.
  - intros i u Hi Hdead. unfold units'.
    rewrite (Game_strikeAll_lookup projectiles units i u Hi).
    by rewrite struckBy_all_dead.
  - intros p rest u -> Hreach Hkill. simpl.
    assert (Hhit : struckBy p u = Unit_takeDamage u (p_damage p)).
    { unfold struckBy.
      by rewrite (proj2 (projectileHits_inReach p u) Hreach). }
    rewrite Hhit. apply struckBy_all_dead.
    rewrite Unit_takeDamage_alive.
    rewrite (proj2 (Z.leb_le _ _)) by lia. apply andb_false_r.
Qed.

Lemma projectile_pass_accumulates_witness :
  snd (Game_strikeAll (g_projectiles twoInReach) (g_units twoInReach))
  !! 0%nat
  = Some (foldl (fun u p => struckBy p u)
            (newKnight (mkVector2D 100 100) enemy)
            (g_projectiles twoInReach)).
Proof.
  destruct (projectile_pass_accumulates (g_projectiles twoInReach)
              (g_units twoInReach)) as (_ & _ & H & _).
  apply H. reflexivity.
Defined.
End ProjectilePass.

(** ** The enemy AI and the game loop *)

Section EnemyAndLoop.
Local Open Scope R_scope.

(** X20.  With the three numbers that [Math.random()] can return,
    [enemyAI] appends exactly one unit of the enemy team, of one of the
    four types, and writes nothing else of the game; the unit is placed
    at least 100 from the left and right edges of the canvas (when the
    canvas is at least 200 wide) and from 50 below the top to 50 above
    the bottom of the enemy zone (when the zone is at least 100 high).
    The timer of the AI does nothing once the game is not running. *)
Theorem enemyAI_spawns_in_bounds (rndType rndX rndY : R) (g : Game) :
  0 <= rndType < 1 -> 0 <= rndX < 1 -> 0 <= rndY < 1 ->
  (exists (type : string) (position : Vector2D) (unit : Unit),
     Unit_new position type enemy = Some unit
     /\ u_team unit = enemy /\ u_type unit = type
     /\ u_position unit = position
     /\ Game_enemyAI rndType rndX rndY g
        = Some (Game_with_units g (g_units g ++ [unit]))
     /\ knownType type
     /\ (200 <= width (g_canvas g) ->
         100 <= x position <= width (g_canvas g) - 100)
     /\ (100 <= rect_height (g_enemyZone g) ->
         50 <= y position <= rect_height (g_enemyZone g) - 50))
  /\ (g_running g = false -> Game_enemyAITimer rndType rndX rndY g = Some g)
  /\ (g_running g = true ->
      Game_enemyAITimer rndType rndX rndY g
      = Game_enemyAI rndType rndX rndY g).
Proof.
  intros Htype Hx Hy. split.
  - unfold Game_enemyAI. cbv zeta.
    pose proof (Utils_randomInt_range rndType 0 3 Htype) as Hindex.
    change (Z.of_nat (length ["knight"%string; "archer"%string;
                              "giant"%string; "wizard"%string]) - 1)%Z
      with 3%Z.
    set (index := Utils_randomInt rndType 0 3) in *.
    specialize (Hindex ltac:(lia)).
    rewrite (proj2 (Z.ltb_ge _ _)) by lia.
    assert (Hcases : index = 0%Z \/ index = 1%Z \/ index = 2%Z
                     \/ index = 3%Z) by lia.
    assert (Hbounds :
      (200 <= width (g_canvas g) ->
       100 <= Utils_random rndX 100 (width (g_canvas g) - 100)
       <= width (g_canvas g) - 100)
      /\ (100 <= rect_height (g_enemyZone g) ->
          50 <= Utils_random rndY 50 (rect_height (g_enemyZone g) - 50)
          <= rect_height (g_enemyZone g) - 50)).
    { split; intros Hwide; apply Utils_random_range; (done || lra). }
    destruct Hcases as [-> | [-> | [-> | ->]]];
      [exists "knight"%string|exists "archer"%string
      |exists "giant"%string|exists "wizard"%string];
      eexists (mkVector2D _ _), _;
      (split; [reflexivity|]); (split; [reflexivity|]);
      (split; [reflexivity|]); (split; [reflexivity|]);
      (split; [reflexivity|]);
      (split; [unfold knownType; tauto|exact Hbounds]).
  - unfold Game_enemyAITimer. split; by intros ->.
Qed.

Lemma enemyAI_spawns_in_bounds_witness :
  exists (type : string) (position : Vector2D) (unit : Unit),
    Unit_new position type enemy = Some unit
    /\ Game_enemyAI (1 / 2) (1 / 2) (1 / 2) freshGame
       = Some (Game_with_units freshGame [unit]).
Proof.
  destruct (enemyAI_spawns_in_bounds (1 / 2) (1 / 2) (1 / 2) freshGame)
    as [(type & position & unit & Hunit & _ & _ & _ & H & _) _];
    [lra|lra|lra|].
  by exists type, position, unit.
Defined.

Lemma Loop_frames_idle (frames : list Frame) (l : Loop) :
  l_frameRequested l = false -> Loop_frames frames l = l.
Proof.
  intros Hidle. induction frames as [|f rest IH]; [done|].
  unfold Loop_frames in *. simpl.
  unfold Loop_animationFrame at 2. by rewrite Hidle.
Qed.

Lemma Loop_frames_stopped (frames : list Frame) :
  forall l : Loop,
    g_running (l_game l) = false ->
    l_game (Loop_frames frames l) = l_game l.
Proof.
  induction frames as [|f rest IH]; intros l Hstop; [done|].
  unfold Loop_frames in *. simpl.
  unfold Loop_animationFrame at 2, Game_gameLoop.
  destruct (l_frameRequested l); [|by apply IH].
  simpl. rewrite Hstop. simpl. by rewrite IH.
Qed.

(** X21.  The game loop stops for good.  A frame callback runs a tick
    with the time since the last frame, in seconds, and requests the
    next frame only when the game is running and the tick completes.
    After a frame that leaves no request, because the game has ended
    or because the tick threw, no later frame changes anything: the
    game stays as the throw or the end of the game left it. *)
Theorem gameLoop_stops_for_good (currentTime : R)
    (unitTime towerTime : nat -> Z) (l : Loop) (frames : list Frame) :
  let l' := Loop_animationFrame currentTime unitTime towerTime l in
  let tick :=
    Game_update ((currentTime - l_lastTime l) / 1000) unitTime towerTime
      (l_game l) in
  (l_frameRequested l = true -> g_running (l_game l) = true ->
   l_game l' = final tick /\ l_lastTime l' = currentTime)
  /\ (l_frameRequested l' = true <->
      l_frameRequested l = true /\ g_running (l_game l) = true
      /\ exists g' : Game, tick = Normal g')
  /\ (l_frameRequested l' = false -> Loop_frames frames l' = l')
  /\ (g_running (l_game l') = false ->
      l_game (Loop_frames frames l') = l_game l').
Proof.
  intros l' tick.
  split; [|split; [|split]].
  - intros Hreq Hrun. unfold l', Loop_animationFrame, Game_gameLoop.
    rewrite Hreq. simpl. rewrite Hrun. simpl. fold tick.
    by destruct tick.
  - unfold l', Loop_animationFrame, Game_gameLoop.
    destruct (l_frameRequested l) eqn:Hreq; simpl.
    2:{ split; [congruence|]. by intros [? _]. }
    destruct (g_running (l_game l)) eqn:Hrun; simpl.
    2:{ split; [done|]. by intros (_ & ? & _). }
    fold tick. destruct tick as [g'|g']; simpl.
    + split; [|done]. intros _. split; [done|]. split; [done|by exists g'].
    + split; [done|]. by intros (_ & _ & g'' & ?).
  - apply Loop_frames_idle.
  - apply Loop_frames_stopped.
Qed.

Lemma gameLoop_stops_for_good_witness :
  let l := mkLoop freshGame 0 true false in
  let l' := Loop_animationFrame 16 (stillClock 1000) (stillClock 1000) l in
  Loop_frames [mkFrame 32 (stillClock 1016) (stillClock 1016)] l' = l'.
Proof.
  intros l l'.
  destruct (gameLoop_stops_for_good 16 (stillClock 1000) (stillClock 1000) l
              [mkFrame 32 (stillClock 1016) (stillClock 1016)])
    as (_ & _ & H & _).
  apply H. reflexivity.
Defined.

(** X22.  [start] marks the game as running, takes the time, and runs
    the first frame at once.  When the tick of that frame completes,
    the next frame is requested and the timer of the enemy AI is
    installed; when it throws, [start] throws with it, and neither
    happens.  On a game as the constructor builds it the first tick
    completes: it only adds the time since [start] to the accumulator
    of the resource (and regenerates, at the cap, when that reaches one
    second).  After [stop] no frame changes the game. *)
Theorem start_runs_first_frame (startTime currentTime : R)
    (unitTime towerTime : nat -> Z) :
  let deltaTime := (currentTime - startTime) / 1000 in
  (forall l : Loop,
     let started :=
       Game_with_running (l_game l) true (g_result (l_game l)) in
     let tick := Game_update deltaTime unitTime towerTime started in
     (forall g' : Game, tick = Normal g' ->
        Game_start startTime currentTime unitTime towerTime l
        = Returned (mkLoop g' currentTime true true))
     /\ (forall g' : Game, tick = TypeError g' ->
         Game_start startTime currentTime unitTime towerTime l
         = Thrown (mkLoop g' currentTime (l_frameRequested l)
                     (l_enemyAI l))))
  /\ (forall (canvas0 : Canvas) (containerWidth : R),
        let g := Game_new canvas0 containerWidth in
        Game_start startTime currentTime unitTime towerTime (Loop_new g)
        = Returned
            (mkLoop
               (Game_with_running (Game_updateElixir deltaTime g) true None)
               currentTime true true))
  /\ (forall (l : Loop) (frames : list Frame),
        l_game
          (Loop_frames frames
             (mkLoop (Game_stop (l_game l)) (l_lastTime l)
                (l_frameRequested l) (l_enemyAI l)))
        = Game_stop (l_game l)).
Proof.
  intros deltaTime. split; [|split].
  - intros l started tick.
    split; intros g' Hg'; unfold Game_start, Game_gameLoop; simpl;
      fold deltaTime started tick; by rewrite Hg'.
  - intros canvas0 containerWidth g.
    unfold Game_start, Game_gameLoop, Loop_new. simpl. fold deltaTime.
    unfold Game_update, Game_updateElixir. simpl.
    destruct (Rleb 1 (0 + deltaTime)); reflexivity.
  - intros l frames. by rewrite Loop_frames_stopped.
Qed.

Lemma start_runs_first_frame_witness :
  Game_start 0 16 (stillClock 1000) (stillClock 1000) (Loop_new freshGame)
  = Returned
      (mkLoop
         (Game_with_running (Game_updateElixir ((16 - 0) / 1000) freshGame)
            true None)
         16 true true).
Proof.
  destruct (start_runs_first_frame 0 16 (stillClock 1000) (stillClock 1000))
    as (_ & H & _).
  apply H.
Defined.

(** X23.  The test by which the UI colours a dragged card and the test
    by which the game accepts a placement are different tests.  In a
    game reached from the constructor the UI shows a point as valid
    when it lies below the middle of the resized canvas (y above 250),
    whatever its x; the game accepts a point inside the lower half of
    the canvas as the constructor found it, edges included.  When the
    canvas already had the height 500 and the width of its container,
    every point of the canvas that the UI shows as valid is accepted,
    and every accepted point is shown as valid or lies on the middle
    line. *)
Theorem UI_preview_and_placement_zone (canvas0 : Canvas)
    (containerWidth : R) (steps : list Step) (point : Vector2D) :
  let g := Game_run steps (Game_new canvas0 containerWidth) in
  (UI_isValidPlacement (y point) (g_canvas g) = true <-> 250 < y point)
  /\ (Utils.pointInRect point (g_playerZone g) = true <->
      0 <= x point <= width canvas0
      /\ height canvas0 / 2 <= y point <= height canvas0)
  /\ (height canvas0 = 500 -> width canvas0 = containerWidth ->
      (0 <= x point <= containerWidth -> y point <= 500 ->
       UI_isValidPlacement (y point) (g_canvas g) = true ->
       Utils.pointInRect point (g_playerZone g) = true)
      /\ (Utils.pointInRect point (g_playerZone g) = true ->
          UI_isValidPlacement (y point) (g_canvas g) = true
          \/ y point = 250)).
Proof.
  intros g.
  assert (Hcanvas : g_canvas g = mkCanvas containerWidth 500).
  { assert (H : forall (steps : list Step) (g0 : Game),
              g_canvas (Game_run steps g0) = g_canvas g0).
    { clear. intros steps.
      induction steps as [|s rest IH]; intros g0; [done|].
      change (Game_run (s :: rest) g0) with (Game_run rest (Game_step s g0)).
      rewrite IH. destruct s; try done.
      - simpl.
        pose proof (Game_update_controls deltaTime unitTime towerTime g0)
          as Hc.
        unfold controls in Hc. by injection Hc.
      - simpl. unfold Game_handleMouseUp, Game_tryPlaceUnit.
        repeat case_match; spawn_cases; done.
      - simpl. unfold Game_handleTouchEnd, Game_tryPlaceUnit.
        repeat case_match; spawn_cases; done.
      - simpl. case_match; spawn_cases; done. }
    unfold g. by rewrite H. }
  assert (Hzone : g_playerZone g
                  = mkRect 0 (height canvas0 / 2) (width canvas0)
                      (height canvas0 / 2)).
  { unfold g. by rewrite Game_run_playerZone. }
  assert (Hui : UI_isValidPlacement (y point) (g_canvas g) = true
                <-> 250 < y point).
  { unfold UI_isValidPlacement. rewrite Hcanvas, Rltb_true_iff. simpl. lra. }
  assert (Hgame : Utils.pointInRect point (g_playerZone g) = true <->
                  0 <= x point <= width canvas0
                  /\ height canvas0 / 2 <= y point <= height canvas0).
  { rewrite pointInRect_inRect, Hzone. unfold inRect. simpl. lra. }
  split; [exact Hui|]. split; [exact Hgame|].
  intros Hheight Hwidth. rewrite Hui, Hgame, Hheight, Hwidth. split.
  - intros Hx Hy Hvalid. lra.
  - intros [Hx Hy]. lra.
Qed.

Lemma UI_preview_and_placement_zone_witness :
  Utils.pointInRect (mkVector2D 400 270)
    (g_playerZone (Game_new (mkCanvas 800 500) 800)) = true.
Proof.
  destruct (UI_preview_and_placement_zone (mkCanvas 800 500) 800 []
              (mkVector2D 400 270)) as (_ & _ & H).
  destruct H as [H _]; [reflexivity|reflexivity|].
  apply H; [simpl; lra|simpl; lra|].
  unfold UI_isValidPlacement. apply Rltb_true_iff. simpl. lra.
Defined.
End EnemyAndLoop.

(** *** What a tick keeps of the status before its win check *)

Section Status.















End Status.

Section GameOver.


End GameOver.

(** ** The fixed bounds of the projectiles *)

Section FixedBounds.
Local Open Scope R_scope.



End FixedBounds.
